(** * The DADI API model engine: a shallow embedding

    Embedded sources:
    - [dadi/lib/model/index.js]: the [Model] constructor with [createIndex],
      and the operations [count], [create], [delete], [find], [get],
      [revisions], [update], [isKeyValid], [formatQuery], [formatResultSet],
      [formatResultSetForInput] and [formatResultSetForOutput];
    - [dadi/lib/fields/reference.js]: [createModelChain] and [beforeQuery].

    Conventions.
    - A JSON value is a [value]; a document, a query and an update payload
      are JavaScript objects used as maps and are [gmap string value].
      Where the source iterates over the keys of an object in their order,
      the object is an association list.
    - The code is written in continuation-passing style over promises.  The
      embedding runs one operation at a time, from its call to the moment it
      has nothing left to do, passing a [World] along: the state of the
      datastore connection, the registry of models and the list of
      observable [Event]s (datastore calls, log entries, invocations of the
      caller's callback [done], uncaught exceptions) in the order they
      happen.
    - An exception travels as the code has it.  [find] calls its callback
      inside the [.then] of the datastore promise, and the [.catch] that
      follows hands an exception of the callback back to the callback, as
      its error; an exception thrown where nothing of the sources catches
      it is the event [Throw].
    - What the operations call in modules that are not part of the embedded
      sources (validator, composer, history, hooks, query utilities,
      datastore) is either a field of the [Model] record, as it is a
      property of the instance in the source, or a definition whose comment
      starts with "Modelled from the spec". *)

From stdpp Require Import gmap strings list fin_maps stringmap sorting.
From Stdlib Require Import ZArith Ascii.

Set Warnings "-register-all".
Open Scope string_scope.
Open Scope list_scope.

(** ** JavaScript values *)

Inductive value : Type :=
| VNull
| VBool (b : bool)
| VNum (n : Z)
| VStr (s : string)
| VArr (xs : list value)
| VObj (fields : list (string * value)).

Definition value_eq_dec : EqDecision value.
Proof.
  refine (fix go (a b : value) {struct a} : Decision (a = b) :=
    match a, b with
    | VNull, VNull => left eq_refl
    | VBool x, VBool y => cast_if (decide (x = y))
    | VNum x, VNum y => cast_if (decide (x = y))
    | VStr x, VStr y => cast_if (decide (x = y))
    | VArr xs, VArr ys =>
        cast_if ((fix gol (l k : list value) {struct l} : Decision (l = k) :=
           match l, k with
           | [], [] => left eq_refl
           | x :: l', y :: k' => cast_if_and (go x y) (gol l' k')
           | _, _ => right _
           end) xs ys)
    | VObj xs, VObj ys =>
        cast_if ((fix gol (l k : list (string * value)) {struct l}
                   : Decision (l = k) :=
           match l, k with
           | [], [] => left eq_refl
           | (s, x) :: l', (t, y) :: k' =>
               cast_if_and3 (decide (s = t)) (go x y) (gol l' k')
           | _, _ => right _
           end) xs ys)
    | _, _ => right _
    end); congruence.
Defined.
#[global] Existing Instance value_eq_dec.

(** A document, a query, an update payload. *)
Abbreviation doc := (gmap string value).

(** [!x]: JavaScript truthiness of a property that may be missing. *)
Definition truthy (v : option value) : bool :=
  match v with
  | None | Some VNull => false
  | Some (VBool b) => b
  | Some (VNum n) => negb (n =? 0)%Z
  | Some (VStr s) => negb (String.eqb s "")
  | Some (VArr _) | Some (VObj _) => true
  end.

(** [s.indexOf(p) === 0] *)
Definition startsWith (p s : string) : bool := String.prefix p s.

(** [s.slice(1)] *)
Definition slice1 (s : string) : string :=
  match s with
  | EmptyString => EmptyString
  | String _ rest => rest
  end.

(** [Object.keys(o).sort()]: the default sort compares code units. *)
Definition str_le (a b : string) : Prop := String.leb a b = true.

#[global] Instance str_le_dec a b : Decision (str_le a b) :=
  decide (String.leb a b = true).

Definition sortedKeys (o : doc) : list string :=
  merge_sort str_le (elements (dom o)).

(** [o[key] = v] on an object that the code has made with [{}].  The
    assignment to [__proto__] makes no property: it sets the prototype of
    the object when [v] is an object, and does nothing otherwise. *)
Definition setField (key : string) (v : value) (o : doc) : doc :=
  if String.eqb key "__proto__" then o else <[key := v]> o.

(** ** Result-set formatting ([formatQuery], [formatResultSet]) *)

Section Formatting.

(** [config.get('internalFieldsPrefix')] *)
Variable internalFieldsPrefix : string.

(** The key under which [formatQuery] copies the condition on [key]. *)
Definition queryKey (key : string) : string :=
  if negb (String.eqb internalFieldsPrefix "_")
     && startsWith internalFieldsPrefix key
  then "_" +:+ slice1 key else key.

(** [Model.prototype.formatQuery] *)
Definition formatQuery (query : doc) : doc :=
  foldl (fun newQuery key =>
           match query !! key with
           | Some v => setField (queryKey key) v newQuery
           | None => newQuery
           end)
        ∅ (elements (dom query)).

(** The name under which [field] is copied, for [prefixes = {from, to}]. *)
Definition property (from to field : string) : string :=
  if startsWith from field then to +:+ slice1 field else field.

(** The callback of [Object.keys(document).sort().forEach]: null values
    are stripped. *)
Definition formatField (from to : string) (document newDocument : doc)
    (field : string) : doc :=
  match document !! field with
  | Some VNull | None => newDocument
  | Some v => setField (property from to field) v newDocument
  end.

(** The callback of [documents.forEach] in [formatResultSet]. *)
Definition formatDocument (from to : string) (document : doc) : doc :=
  foldl (formatField from to document) ∅ (sortedKeys document).

(** [results] is one document or an array of documents. *)
Inductive ResultSet :=
| Single (document : doc)
| Multiple (documents : list doc).

(** [Model.prototype.formatResultSet] *)
Definition formatResultSet (results : ResultSet) (formatForInput : bool)
  : ResultSet :=
  let from := if formatForInput then internalFieldsPrefix else "_" in
  let to := if formatForInput then "_" else internalFieldsPrefix in
  match results with
  | Single document => Single (formatDocument from to document)
  | Multiple documents => Multiple (map (formatDocument from to) documents)
  end.

(** [Model.prototype.formatResultSetForInput] *)
Definition formatResultSetForInput (results : ResultSet) : ResultSet :=
  formatResultSet results true.

(** [Model.prototype.formatResultSetForOutput] *)
Definition formatResultSetForOutput (results : ResultSet) : ResultSet :=
  formatResultSet results false.

(** [formatResultSetForOutput] on the array [results.results]. *)
Definition formatDocsForOutput (documents : list doc) : list doc :=
  map (formatDocument "_" internalFieldsPrefix) documents.

End Formatting.

(** A document without its null-valued fields. *)
Definition nonNull (v : value) : option value :=
  if decide (v = VNull) then None else Some v.

Definition stripNulls (document : doc) : doc := omap nonNull document.

Definition stripNullsSet (results : ResultSet) : ResultSet :=
  match results with
  | Single document => Single (stripNulls document)
  | Multiple documents => Multiple (map stripNulls documents)
  end.

(** Every field name of every document starts with [p]. *)
Definition allPrefixed (p : string) (results : ResultSet) : Prop :=
  match results with
  | Single document => forall k, k ∈ dom document -> startsWith p k = true
  | Multiple documents =>
      Forall (fun document =>
                forall k, k ∈ dom document -> startsWith p k = true) documents
  end.

(** No document has the field [field]. *)
Definition withoutField (field : string) (results : ResultSet) : Prop :=
  match results with
  | Single document => document !! field = None
  | Multiple documents =>
      Forall (fun document : doc => document !! field = None) documents
  end.

(** ** Schemas, settings and model instances *)

(** [schema[field].settings] of a field. *)
Record FieldSettings := {
  fs_collection : option string;
  fs_database : option string;
  fs_fields : option (list string);
  fs_multiple : bool
}.

Record FieldSchema := {
  f_type : string;
  f_settings : option FieldSettings
}.

(** A hook configuration names its handler. *)
Abbreviation HookConfig := string (only parsing).

Record Hooks := {
  beforeCreate : option (list HookConfig);
  afterCreate : option (list HookConfig);
  beforeUpdate : option (list HookConfig);
  afterUpdate : option (list HookConfig);
  beforeDelete : option (list HookConfig);
  afterDelete : option (list HookConfig)
}.

(** [settings.index]: the definition of one index, an object with [keys]
    and [options], or an array of definitions. *)
Inductive IndexSetting :=
| IndexObject (keys options : option value)
| IndexArray (definitions : list value).

(** Collection-level settings; [None] is a property that is not there. *)
Record Settings := {
  s_database : option string;
  s_compose : option bool;
  s_storeRevisions : option bool;
  s_revisionCollection : option string;
  s_hooks : option Hooks;
  s_index : option IndexSetting
}.

Record Schema := {
  sc_fields : gmap string FieldSchema;
  sc_settings : option Settings
}.

(** [Object.assign({}, a, b)] on settings: the properties of [b] win. *)
Definition assignSettings (a : Settings) (b : option Settings) : Settings :=
  match b with
  | None => a
  | Some b =>
      let pick {A} (x y : option A) := match y with Some _ => y | None => x end in
      {| s_database := pick (s_database a) (s_database b);
         s_compose := pick (s_compose a) (s_compose b);
         s_storeRevisions := pick (s_storeRevisions a) (s_storeRevisions b);
         s_revisionCollection :=
           pick (s_revisionCollection a) (s_revisionCollection b);
         s_hooks := pick (s_hooks a) (s_hooks b);
         s_index := pick (s_index a) (s_index b) |}
  end.

(** [_.isEmpty(schema)] *)
Definition isEmptySchema (schema : Schema) : bool :=
  bool_decide (sc_fields schema = ∅) && bool_decide (sc_settings schema = None).

Definition emptySchema : Schema := {| sc_fields := ∅; sc_settings := None |}.

(** The properties of a [Model] instance that the operations read.
    [history] tells whether [this.history] is defined; [searcher] whether
    [this.searcher] is. *)
Record Model := {
  name : string;
  schema : Schema;
  settings : Settings;
  compose : option bool;
  storeRevisions : bool;
  history : bool;
  revisionCollection : option string;
  searchHandler : bool;
  searcher : bool
}.

(** ** Errors, datastore calls and events *)

(** [{success, errors}], the result of a validation. *)
Record Validation := {
  success : bool;
  errors : list value
}.

Inductive Err :=
| ConnectionError
    (* createConnectionError(): API error 0004 *)
| ValidationError (message : string) (validation : Validation)
    (* createValidationError(message) with the validation attached *)
| NotFoundError (message : string)
    (* new Error(message) with statusCode 404 *)
| HookError (err : value)
    (* what a hook pipeline fails with: {} or hook.formatError(err) *)
| HookErrorResponse (err : value)
    (* {success: false, errors: err} *)
| ComposeError (json : value)
    (* err.json of a failed createFromComposed *)
| DatastoreError (message : string)
    (* the rejection of a datastore promise, with its message *)
| TypeError (message : string)
| PlainError (message : string).
    (* new Error(message) *)

(** [err.statusCode] *)
Definition statusCode (e : Err) : option Z :=
  match e with
  | ConnectionError => Some 503%Z
  | ValidationError _ _ => Some 400%Z
  | NotFoundError _ => Some 404%Z
  | _ => None
  end.

(** [createValidationError(message)] *)
Definition createValidationError (message : option string) (v : Validation)
  : Err :=
  ValidationError (default "Model Validation Failed" message) v.

(** [createConnectionError()] *)
Definition createConnectionError : Err := ConnectionError.

(** The update document handed to the datastore. *)
Record UpdateSpec := {
  u_set : doc;                        (* $set *)
  u_inc : list (string * Z);          (* $inc *)
  u_push : list (string * value)      (* $push *)
}.

Record Metadata := { totalCount : nat }.

Inductive DbCall :=
| DbFind (collection : string) (query : doc) (fields : list string)
| DbInsert (collection : string) (data : list doc)
| DbUpdate (collection : string) (query : doc) (update : UpdateSpec)
| DbDelete (collection : string) (query : doc)
| DbIndex (collection : string) (index : list value).

(** Whether a datastore call can change stored documents. *)
Definition mutating (c : DbCall) : bool :=
  match c with
  | DbFind _ _ _ | DbIndex _ _ => false
  | _ => true
  end.

(** What [done] receives as its second argument. *)
Inductive Result :=
| Found (results : list doc) (metadata : Metadata)
| Created (results : list doc)
| Deleted (deletedCount : nat) (remaining : Z).

Inductive Event :=
| Call (c : DbCall)              (* a call of the datastore *)
| Log (e : Err)                  (* logger.error({module: 'model'}, e) *)
| Done (r : Err + Result)        (* done(err) or done(null, result) *)
| Throw (e : Err)                (* an exception, or a rejection, that nothing
                                    in the sources catches *)
| SearchIndex (docs : list doc)  (* searchHandler.index(docs) *)
| SearchDelete (docs : list doc) (* searchHandler.delete(docs) *)
| AfterHook (hook : HookConfig). (* an after-hook applied, its result dropped *)

(** ** The datastore *)

(** Modelled from the spec: the Datastore collaborator of section 6, which
    the repository reaches through [this.connection.db] and whose code is
    not part of it.  A collection maps the identifier that storage assigned
    to a document to that document; [find], [insert], [update] and [delete]
    are the operations of the interface, with [index], which changes no
    document.  A collection listed in [faults] rejects every operation with
    the message given there. *)
Record Datastore := {
  collections : gmap string (gmap string doc);
  faults : gmap string string
}.

Definition collectionOf (ds : Datastore) (c : string) : gmap string doc :=
  default ∅ (collections ds !! c).

Definition setCollection (ds : Datastore) (c : string) (docs : gmap string doc)
  : Datastore :=
  {| collections := <[c := docs]> (collections ds); faults := faults ds |}.

(** One condition of a query against the field it names: [$in] and
    [$containsAny] ask for a common element with the given list, any other
    value asks for equality. *)
Definition condMatches (cond : value) (field : option value) : bool :=
  match cond with
  | VObj [(op, VArr ids)] =>
      if bool_decide (op = "$in") || bool_decide (op = "$containsAny") then
        match field with
        | Some (VArr xs) => existsb (fun x => bool_decide (x ∈ ids)) xs
        | Some v => bool_decide (v ∈ ids)
        | None => false
        end
      else bool_decide (field = Some cond)
  | _ => bool_decide (field = Some cond)
  end.

Definition matches (query : doc) (d : doc) : bool :=
  bool_decide (map_Forall (fun k cond => condMatches cond (d !! k) = true) query).

(** The projection asked for by [options.fields]; none when it is empty. *)
Definition project (fields : list string) (d : doc) : doc :=
  match fields with
  | [] => d
  | _ => filter (fun kv => kv.1 ∈ "_id" :: fields) d
  end.

Definition numberOf (v : option value) : Z :=
  match v with Some (VNum n) => n | _ => 0%Z end.

Definition arrayOf (v : option value) : list value :=
  match v with Some (VArr xs) => xs | _ => [] end.

Definition applyUpdate (u : UpdateSpec) (d : doc) : doc :=
  let d1 := u_set u ∪ d in
  let d2 := foldl (fun d '(k, n) => <[k := VNum (numberOf (d !! k) + n)]> d)
                  d1 (u_inc u) in
  foldl (fun d '(k, v) => <[k := VArr (arrayOf (d !! k) ++ [v])]> d)
        d2 (u_push u).

Definition ds_find (ds : Datastore) (c : string) (query : doc)
    (fields : list string) : string + list doc :=
  match faults ds !! c with
  | Some message => inl message
  | None =>
      inr (project fields <$>
             filter (fun d => matches query d = true)
                    (map_to_list (collectionOf ds c)).*2)
  end.

Definition insertOne (docs : gmap string doc) (d : doc)
  : doc * gmap string doc :=
  let id := fresh_string "id" docs in
  let stored := <["_id" := VStr id]> d in
  (stored, <[id := stored]> docs).

Definition ds_insert (ds : Datastore) (c : string) (data : list doc)
  : string + (list doc * Datastore) :=
  match faults ds !! c with
  | Some message => inl message
  | None =>
      let '(results, docs) :=
        foldl (fun '(results, docs) d =>
                 let '(stored, docs') := insertOne docs d in
                 (results ++ [stored], docs'))
              ([], collectionOf ds c) data in
      inr (results, setCollection ds c docs)
  end.

Definition ds_update (ds : Datastore) (c : string) (query : doc)
    (u : UpdateSpec) : string + (nat * Datastore) :=
  match faults ds !! c with
  | Some message => inl message
  | None =>
      let docs := collectionOf ds c in
      let matchedCount :=
        length (filter (fun d => matches query d = true) (map_to_list docs).*2) in
      inr (matchedCount,
           setCollection ds c
             ((fun d => if matches query d then applyUpdate u d else d) <$> docs))
  end.

Definition ds_delete (ds : Datastore) (c : string) (query : doc)
  : string + (nat * Datastore) :=
  match faults ds !! c with
  | Some message => inl message
  | None =>
      let docs := collectionOf ds c in
      let deletedCount :=
        length (filter (fun d => matches query d = true) (map_to_list docs).*2) in
      inr (deletedCount,
           setCollection ds c (filter (fun kv => matches query kv.2 = false) docs))
  end.

(** ** The world an operation runs in *)

Record World := {
  db : option Datastore;         (* this.connection.db *)
  models : gmap string Schema;   (* _models: the schema of each model *)
  events : list Event
}.

Definition emit (e : Event) (w : World) : World :=
  {| db := db w; models := models w; events := events w ++ [e] |}.

Definition setDb (ds : Datastore) (w : World) : World :=
  {| db := Some ds; models := models w; events := events w |}.

Definition register (m : Model) (w : World) : World :=
  {| db := db w; models := <[name m := schema m]> (models w);
     events := events w |}.

(** A datastore promise: the call is recorded, then it resolves or rejects.
    Without a datastore the promise rejects with [DB_DISCONNECTED]. *)
Definition database_find (c : string) (query : doc) (fields : list string)
    (w : World) : (string + list doc * Metadata) * World :=
  let w := emit (Call (DbFind c query fields)) w in
  match db w with
  | None => (inl "DB_DISCONNECTED", w)
  | Some ds =>
      match ds_find ds c query fields with
      | inl message => (inl message, w)
      | inr results => (inr (results, {| totalCount := length results |}), w)
      end
  end.

Definition database_insert (c : string) (data : list doc) (w : World)
  : (string + list doc) * World :=
  let w := emit (Call (DbInsert c data)) w in
  match db w with
  | None => (inl "DB_DISCONNECTED", w)
  | Some ds =>
      match ds_insert ds c data with
      | inl message => (inl message, w)
      | inr (results, ds') => (inr results, setDb ds' w)
      end
  end.

Definition database_update (c : string) (query : doc) (u : UpdateSpec)
    (w : World) : (string + nat) * World :=
  let w := emit (Call (DbUpdate c query u)) w in
  match db w with
  | None => (inl "DB_DISCONNECTED", w)
  | Some ds =>
      match ds_update ds c query u with
      | inl message => (inl message, w)
      | inr (matchedCount, ds') => (inr matchedCount, setDb ds' w)
      end
  end.

Definition database_delete (c : string) (query : doc) (w : World)
  : (string + nat) * World :=
  let w := emit (Call (DbDelete c query)) w in
  match db w with
  | None => (inl "DB_DISCONNECTED", w)
  | Some ds =>
      match ds_delete ds c query with
      | inl message => (inl message, w)
      | inr (deletedCount, ds') => (inr deletedCount, setDb ds' w)
      end
  end.

(** [database.index(collection, index)] as the constructor calls it, with
    an empty callback: the call is recorded; the rejection of a collection
    that is listed in [faults] has no handler. *)
Definition database_index (c : string) (index : list value) (w : World)
  : World :=
  let w := emit (Call (DbIndex c index)) w in
  match db w ≫= fun ds => faults ds !! c with
  | Some message => emit (Throw (DatastoreError message)) w
  | None => w
  end.

(** The documents of collection [c] in the datastore of [w]. *)
Definition documentsOf (w : World) (c : string) : gmap string doc :=
  from_option (fun ds => collectionOf ds c) ∅ (db w).

(** The calls of the datastore among the events. *)
Definition calls (es : list Event) : list DbCall :=
  omap (fun e => match e with Call c => Some c | _ => None end) es.

(** The calls among the events that can change stored documents. *)
Definition mutations (es : list Event) : list DbCall :=
  filter (fun c => mutating c = true) (calls es).

(** From [w] to [w'] nothing was asked of the datastore that can change
    stored documents, and the datastore is the same. *)
Definition readonly (w w' : World) : Prop :=
  db w' = db w /\ mutations (events w') = mutations (events w).

(** The invocations of the caller's callback among the events. *)
Definition dones (es : list Event) : list (Err + Result) :=
  omap (fun e => match e with Done r => Some r | _ => None end) es.

(** The log entries among the events. *)
Definition logged (es : list Event) : list Err :=
  omap (fun e => match e with Log e => Some e | _ => None end) es.

(** ** What the engine calls in the rest of the repository *)

(** What [hook.apply] answers with: a value, [null], or a rejection.  The
    answer is there when [apply] returns: it is the value itself or a
    promise that is settled. *)
Inductive HookReturn :=
| HValue (v : doc)
| HNull
| HThrows (err : value).

(** The part of the request the engine reads: [req.params.id]. *)
Record Request := { params_id : option string }.

(** The modules that [index.js] requires and that are not embedded below:
    the configuration, the connections, the validator, the composer, the
    hook loader and the query utilities.  Handlers and utilities are
    functions of their arguments; a composer or a utility that writes into
    the document it is given is a function to the document as it leaves
    it. *)
Record Library := {
  (* config.get('internalFieldsPrefix') *)
  internalFieldsPrefix : string;
  (* Connection({database, collection}, collection, ...).db: whether the
     connection that a model makes for itself, when it is constructed
     without one, has its datastore; one datastore is behind all
     connections *)
  Connection_db : option string -> string -> World -> bool;
  (* this.validate.query(query) *)
  validate_query : Model -> doc -> Validation;
  (* this.validate.schema(doc, update) *)
  validate_schema : Model -> doc -> bool -> Validation;
  (* this.composer.compose(results, callback): what callback receives *)
  composer_compose : Model -> list doc -> World -> list doc;
  (* whether compose calls callback before it returns; an exception of
     callback then travels to the caller of compose *)
  composer_compose_immediate : Model -> list doc -> World -> bool;
  (* this.composer.createFromComposed(doc, req, callback): err.json or the
     document with its sub-documents replaced by identifiers, the datastore
     as the creation of the sub-documents leaves it, and the calls made *)
  composer_createFromComposed :
    Model -> doc -> Datastore -> (value + doc) * Datastore * list DbCall;
  (* whether createFromComposed calls callback before it returns *)
  composer_createFromComposed_immediate : Model -> doc -> Datastore -> bool;
  (* new Hook(hookConfig, type).apply(current, docs, ...) *)
  hook_apply : HookConfig -> string -> Model -> doc -> list doc -> HookReturn;
  (* hook.formatError(err) *)
  hook_formatError : HookConfig -> value -> value;
  queryUtils_makeCaseInsensitive : doc -> Schema -> doc;
  queryUtils_containsNestedReferenceFields : doc -> Schema -> bool;
  (* [queries[0]] and the entries of [queries[1]] in the order of its keys *)
  queryUtils_processReferenceFieldQuery :
    doc -> Schema -> doc * list (string * value);
  queryUtils_getSchemaOrParent : string -> Schema -> option FieldSchema;
  queryUtils_convertDateTimeForSave : Schema -> doc -> doc;
  (* new RegExp(queryValue).test(value) *)
  regExp_test : value -> option value -> bool
}.

(** [this.composer.createFromComposed(doc, req, callback)] in the world:
    what the callback receives, after the calls of the composer. *)
Definition createFromComposed (lib : Library) (self : Model) (d : doc)
    (w : World) : (value + doc) * World :=
  match db w with
  | Some ds =>
      let '(result, ds, made) := composer_createFromComposed lib self d ds in
      (result, {| db := Some ds; models := models w;
                  events := events w ++ (Call <$> made) |})
  | None => (inl (VStr "DB_DISCONNECTED"), w)
  end.

(** [queryUtils.snapshot(docs)]: a copy of the documents. *)
Definition snapshot (docs : list doc) : list doc := docs.

(** [req && req.params.id] *)
Definition isRestIDQuery (req : option Request) : bool :=
  match req with
  | Some r => truthy (VStr <$> params_id r)
  | None => false
  end.

(** [async.reduce(coll, memo, iteratee, callback)]: [iteratee] hands
    [(err, v)] to its callback; the reduction stops at the first [err] that
    is truthy.  The result is what [callback] receives, with the number of
    calls of [iteratee] that were made. *)
Fixpoint async_reduce {A X E} (coll : list X) (memo : A)
    (iteratee : A -> X -> option E * A) : option E * A * nat :=
  match coll with
  | [] => (None, memo, 0)
  | x :: rest =>
      match iteratee memo x with
      | (Some err, v) => (Some err, v, 1)
      | (None, v) =>
          let '(err, result, n) := async_reduce rest v iteratee in
          (err, result, S n)
      end
  end.

(** The iteratee of the [before] pipelines of [create], [update] and
    [delete]:
    [callback((newDoc === null) ? {} : null, newDoc)] when the handler
    resolves, [callback(hook.formatError(err))] when it rejects.  An empty
    object is truthy, so it is an error for [async.reduce].  The value that
    goes with an error is not read by any of the final callbacks; the
    current one stands for it. *)
Definition hookIteratee (lib : Library) (type : string) (self : Model)
    (docs : list doc) (current : doc) (hookConfig : HookConfig)
  : option value * doc :=
  match hook_apply lib hookConfig type self current docs with
  | HValue newDoc => (None, newDoc)
  | HNull => (Some (VObj []), current)
  | HThrows err => (Some (hook_formatError lib hookConfig err), current)
  end.

(** The turns of the event loop that a pipeline of [before] hooks takes
    from its start to its final callback.  The iteratee is
    [Promise.resolve(hook.apply(...)).then(...).catch(...)]: an answer
    that resolves reaches the callback of [.then] in the next turn; a
    rejection goes through [.then] first and reaches the callback of
    [.catch] one turn later.  [async.reduce] calls the next handler, or
    the final callback, in the turn of the callback. *)
Fixpoint pipelineTurns (lib : Library) (type : string) (self : Model)
    (docs : list doc) (hooks : list HookConfig) (current : doc) : nat :=
  match hooks with
  | [] => 0
  | hookConfig :: rest =>
      match hook_apply lib hookConfig type self current docs with
      | HValue newDoc => S (pipelineTurns lib type self docs rest newDoc)
      | HNull => 1
      | HThrows _ => 2
      end
  end.

(** Of several pipelines started together, each with the number of turns
    it takes, the final callback that runs last.  The callbacks of one
    turn run in the order in which the pipelines were started. *)
Definition lastToFinish {A} (chains : list (A * nat)) : option A :=
  fst <$> foldl (fun best chain =>
                   match best with
                   | Some (_, m) => if (m <=? chain.2)%nat then Some chain else best
                   | None => Some chain
                   end) None chains.

(** ** The [Model] constructor *)

(** The array that the constructor makes of [settings.index]:
    [[{keys: index.keys, options: index.options || {}}]] when it is not an
    array. *)
Definition indexArray (index : IndexSetting) : list value :=
  match index with
  | IndexArray definitions => definitions
  | IndexObject keys options =>
      [VObj (match keys with Some keys => [("keys", keys)] | None => [] end
             ++ [("options", if truthy options then default VNull options
                             else VObj [])])]
  end.

(** [Model.prototype.createIndex] with the empty callback of the
    constructor.  Without a datastore on the connection the index waits
    for the event [connect], which is not part of an operation. *)
Definition createIndex (self : Model) (w : World) : World :=
  match db w with
  | Some _ =>
      database_index (name self)
        (default [] (indexArray <$> s_index (settings self))) w
  | None => w
  end.

(** [new Model(name, schema, conn, settings)], in the world as the
    connection of the instance shows it: [db] is [this.connection.db].
    The registry [_models] is read for the schema of a model only
    ([_models[name].schema]), and holds the schemas.  The listeners of the
    connection are not part of the embedding.  The constructor assigns
    [this.searchHandler]; it does not assign [this.searcher]. *)
Definition Model_new (name : string) (schema : Schema) (settings : Settings)
    (w : World) : Model * World :=
  let schema :=
    match models w !! name with
    | Some registered => if isEmptySchema schema then registered else schema
    | None => schema
    end in
  let settings := assignSettings settings (sc_settings schema) in
  (* add any configured indexes *)
  let settings :=
    {| s_database := s_database settings; s_compose := s_compose settings;
       s_storeRevisions := s_storeRevisions settings;
       s_revisionCollection := s_revisionCollection settings;
       s_hooks := s_hooks settings;
       s_index := IndexArray ∘ indexArray <$> s_index settings |} in
  let storeRevisions :=
    negb (bool_decide (s_storeRevisions settings = Some false)) in
  let self :=
    {| name := name;
       schema := schema;
       settings := settings;
       compose := s_compose settings;
       storeRevisions := storeRevisions;
       history := storeRevisions;
       revisionCollection :=
         if storeRevisions
         then Some (if truthy (VStr <$> s_revisionCollection settings)
                    then default "" (s_revisionCollection settings)
                    else name +:+ "History")
         else None;
       searchHandler := true;
       searcher := false |} in
  let w := register self w in
  match s_index settings with
  | Some _ => (self, createIndex self (createIndex self w))
  | None => (self, w)
  end.

(** ** Strings and identifiers *)

(** [s.split(sep)] for a separator of one character. *)
Fixpoint split (sep : ascii) (s : string) : list string :=
  match s with
  | EmptyString => [EmptyString]
  | String c rest =>
      if Ascii.eqb c sep then EmptyString :: split sep rest
      else match split sep rest with
           | head :: tail => String c head :: tail
           | [] => [String c EmptyString]
           end
  end.

(** [v.toString()]; [None] where the call throws a TypeError.  A number is
    an integer that JavaScript prints in full, with all its digits: its
    absolute value is below 10^21. *)
Fixpoint toString (v : value) : option string :=
  match v with
  | VNull => None
  | VBool b => Some (if b then "true" else "false")
  | VNum n => Some (pretty n)
  | VStr s => Some s
  | VArr xs =>
      Some ((fix join (xs : list value) : string :=
               match xs with
               | [] => ""
               | [x] => default "" (toString x)
               | x :: rest => default "" (toString x) +:+ "," +:+ join rest
               end) xs)
  | VObj _ => Some "[object Object]"
  end.

(** [doc._id.toString()] *)
Definition idString (d : doc) : option string := d !! "_id" ≫= toString.

(** [_.map(_.pluck(results, '_id'), id => id.toString())] *)
Definition pluckIds (results : list doc) : option (list string) :=
  mapM idString results.

Definition idValues (ids : list string) : value := VArr (VStr <$> ids).

(** ** [Model.prototype.find] *)

Record FindOptions := {
  o_compose : option bool;     (* options.compose, when it is there *)
  o_fields : list string       (* the keys of options.fields *)
}.

Definition noOptions : FindOptions := {| o_compose := None; o_fields := [] |}.

(** What the callback of [find] receives; [None] when it is not called. *)
Definition FindReply : Type := option (Err + list doc * Metadata).

Definition withCompose (c : option bool) (self : Model) : Model :=
  {| name := name self; schema := schema self; settings := settings self;
     compose := c; storeRevisions := storeRevisions self;
     history := history self; revisionCollection := revisionCollection self;
     searchHandler := searchHandler self; searcher := searcher self |}.

(** [if (options.hasOwnProperty('compose')) self.compose = options.compose]:
    the instance after the assignment. *)
Definition overrideCompose (options : FindOptions) (self : Model) : Model :=
  match o_compose options with
  | Some c => withCompose (Some c) self
  | None => self
  end.

(** How [find] ends for the code that calls it. *)
Inductive FindOutcome :=
| Answers (reply : Err + list doc * Metadata) (guarded : bool)
    (* the callback is called with [reply]; [guarded]: it is called in the
       [.then] of [runFind], and the [.catch] that follows hands an
       exception of the callback back to the callback, as its error *)
| Silent
    (* the callback is not called *)
| Throws (e : Err).
    (* [find] throws [e] before it returns *)

(** The error that the [.catch] of [runFind] hands to the callback. *)
Definition handedBack (e : Err) : Err :=
  match e with
  | DatastoreError message =>
      if String.eqb message "DB_DISCONNECTED" then createConnectionError else e
  | _ => e
  end.

(** How the lookup of one reference key ends. *)
Inductive Lookup :=
| Continue (query : doc) (guarded : bool)
    (* cb(null, query), in the callback of [referenceModel.find] *)
| Abort (err : Err)        (* done(err) *)
| Stop                     (* nothing is called *)
| Raise (e : Err).         (* an exception that leaves [find] *)

(** Where an exception goes that is thrown while the queue of lookups
    runs.  The first function of the queue runs before [find] returns; a
    later one runs in the callback of the lookup before it, [guarded] or
    not: the [.catch] of that lookup hands the exception to its callback,
    which hands it to [done]. *)
Definition thrownIn (turn : option bool) (e : Err) (w : World)
  : Lookup * World :=
  match turn with
  | None => (Raise e, w)
  | Some true => (Abort (handedBack e), w)
  | Some false => (Stop, emit (Throw e) w)
  end.

(** The world as a connection without its datastore shows it, and the
    world with the datastore [d] again. *)
Definition disconnected (w : World) : World :=
  {| db := None; models := models w; events := events w |}.

Definition reconnected (d : option Datastore) (w : World) : World :=
  {| db := d; models := models w; events := events w |}.

(** The filter that selects the children of [parent] by [linkKey]; [None]
    where it throws a TypeError. *)
Definition isChildOf (linkKey : string) (parent : doc) (result : doc)
  : option bool :=
  if truthy (result !! linkKey) then
    match result !! linkKey with
    | Some (VStr s) =>
        parentId ← idString parent; Some (String.eqb s parentId)
    | Some (VObj fields) =>
        id ← (list_to_map fields : doc) !! "_id" ≫= toString;
        parentId ← idString parent;
        Some (String.eqb id parentId || String.eqb "[object Object]" parentId)
    | Some (VArr xs) =>
        let s := default "" (toString (VArr xs)) in
        if String.eqb s "[object Object]" then None
        else parentId ← idString parent; Some (String.eqb s parentId)
    | _ => Some false
    end
  else Some false.

Definition emptyFieldSettings : FieldSettings :=
  {| fs_collection := None; fs_database := None; fs_fields := None;
     fs_multiple := false |}.

Section Find.

Variable lib : Library.

(** [referenceModel.find]: [find] itself, one lookup deeper. *)
Variable referenceModel_find :
  Model -> doc -> FindOptions -> World -> FindOutcome * Model * World.

(** [runFind] with [runDoneQueue]; no history is asked for.  The callback
    is called in the [.then] of the datastore promise, or in the callback
    of the composer. *)
Definition runFind (self : Model) (query : doc) (options : FindOptions)
    (w : World) : FindOutcome * World :=
  match database_find (name self) query (o_fields options) w with
  | (inr (results, metadata), w) =>
      if default false (compose self)
      then (Answers (inr (composer_compose lib self results w, metadata))
              (composer_compose_immediate lib self results w), w)
      else (Answers (inr (results, metadata)) true, w)
  | (inl message, w) =>
      (Answers (inl (handedBack (DatastoreError message))) false, w)
  end.

(** The criteria put into [query[collectionKey]] from the documents found
    in the reference collection. *)
Definition referenceCriteria (collectionSettings : FieldSettings)
    (linkKey : option string) (queryKey : option string)
    (queryValue : value) (results : list doc) : option value :=
  match results with
  | [] =>
      (* nothing found in the reference collection *)
      Some (if fs_multiple collectionSettings
            then VObj [("$in", VArr [])] else VStr "")
  | _ =>
      if negb (truthy (VStr <$> linkKey)) then
        (* a one-level nested query *)
        ids ← pluckIds results;
        Some (if fs_multiple collectionSettings
              then VObj [("$containsAny", idValues ids)]
              else default (VStr "") (VStr <$> head ids))
      else
        let linkKey := default "" linkKey in
        let parents :=
          filter (fun result =>
                    regExp_test lib queryValue
                      (queryKey ≫= fun k => result !! k) = true) results in
        ids ← foldl (fun ids parent =>
                       ids ← ids;
                       flags ← mapM (isChildOf linkKey parent) results;
                       let children :=
                         (zip results flags) ≫=
                           (fun rf : doc * bool =>
                              if rf.2 then [rf.1] else []) in
                       childIds ← pluckIds children;
                       Some (ids ++ childIds))
                    (Some []) parents;
        Some (VObj [("$in", idValues ids)])
  end.

(** One function of [queue]: the lookup for [key], run in [turn].  The
    reference model is constructed without a connection and makes its
    own: the constructor and [referenceModel.find] see the datastore
    when that connection has it.  The keys of the query and of the
    documents are read as properties of their own. *)
Definition referenceLookup (turn : option bool) (self : Model) (query : doc)
    (key : string) (queryValue : value) (w : World) : Lookup * World :=
  let keyParts := split "."%char key in
  let collectionKey := default "" (head keyParts) in
  match queryUtils_getSchemaOrParent lib collectionKey (schema self) with
  | None =>
      thrownIn turn
        (TypeError "Cannot read property 'settings' of undefined") w
  | Some fieldSchema =>
      let collectionSettings :=
        default emptyFieldSettings (f_settings fieldSchema) in
      let collection :=
        if bool_decide (Some collectionKey ≠ fs_collection collectionSettings)
        then fs_collection collectionSettings
        else Some collectionKey in
      let fieldsObj := default [] (fs_fields collectionSettings) in
      let '(linkKey, queryKey, collectionQuery) :=
        if bool_decide (length keyParts = 2)
        then (None, keyParts !! 1,
              setField (default "undefined" (keyParts !! 1)) queryValue
                (∅ : doc))
        else (keyParts !! 1, keyParts !! 2, (∅ : doc)) in
      let collectionQuery :=
        if truthy (query !! collectionKey)
        then <["_id" := default VNull (query !! collectionKey)]> collectionQuery
        else collectionQuery in
      let database :=
        if truthy (VStr <$> fs_database collectionSettings)
        then fs_database collectionSettings
        else s_database (settings self) in
      let connected :=
        Connection_db lib database (default "undefined" collection) w in
      let '(referenceModel, w1) :=
        Model_new (default "undefined" collection) emptySchema
          {| s_database := database;
             s_compose := Some true;
             s_storeRevisions := None;
             s_revisionCollection := None;
             s_hooks := None;
             s_index := None |}
          (if connected then w else disconnected w) in
      let '(outcome, _, w2) :=
        referenceModel_find referenceModel collectionQuery
          {| o_compose := None; o_fields := fieldsObj |} w1 in
      let w := if connected then w2 else reconnected (db w) w2 in
      match outcome with
      | Throws e => thrownIn turn e w
      | Silent => (Stop, w)
      | Answers (inl err) _ => (Abort err, w)
      | Answers (inr (results, _)) guarded =>
          match referenceCriteria collectionSettings linkKey queryKey
                  queryValue results with
          | Some criteria =>
              (Continue (setField collectionKey criteria query) guarded, w)
          | None =>
              thrownIn (Some guarded)
                (TypeError "Cannot read property 'toString' of undefined") w
          end
      end
  end.

(** [async.series(queue, ...)]: each function of the queue runs in the
    callback of the one before it. *)
Fixpoint referenceLookups (turn : option bool) (self : Model) (query : doc)
    (referenceFieldQuery : list (string * value)) (w : World)
  : Lookup * World :=
  match referenceFieldQuery with
  | [] => (Continue query (default false turn), w)
  | (key, queryValue) :: rest =>
      match referenceLookup turn self query key queryValue w with
      | (Continue query guarded, w) =>
          referenceLookups (Some guarded) self query rest w
      | (stop, w) => (stop, w)
      end
  end.

(** The body of [find], for options without [includeHistory]. *)
Definition findBody (self : Model) (query : doc) (options : FindOptions)
    (w : World) : FindOutcome * Model * World :=
  let query := queryUtils_makeCaseInsensitive lib query (schema self) in
  (* override the model's settings with a value from the options object *)
  let self := overrideCompose options self in
  let validation := validate_query lib self query in
  if negb (success validation) then
    (Answers (inl (createValidationError (Some "Bad Query") validation))
       false, self, w)
  else
    match db w with
    | None => (Answers (inl createConnectionError) false, self, w)
    | Some _ =>
        if queryUtils_containsNestedReferenceFields lib query (schema self)
        then
          let '(query, referenceFieldQuery) :=
            queryUtils_processReferenceFieldQuery lib query (schema self) in
          match referenceLookups None self query referenceFieldQuery w with
          | (Continue query _, w) =>
              let '(outcome, w) := runFind self query options w in
              (outcome, self, w)
          | (Abort err, w) => (Answers (inl err) false, self, w)
          | (Stop, w) => (Silent, self, w)
          | (Raise e, w) => (Throws e, self, w)
          end
        else
          let '(outcome, w) := runFind self query options w in
          (outcome, self, w)
    end.

End Find.

(** [Model.prototype.find], as the code that calls it sees it end.
    [depth] bounds how many reference lookups may be nested in one
    another; a lookup beyond it is cut and nothing is called back. *)
Fixpoint findOutcome (lib : Library) (depth : nat) (self : Model)
    (query : doc) (options : FindOptions) (w : World)
  : FindOutcome * Model * World :=
  findBody lib
    (match depth with
     | O => fun referenceModel _ _ w => (Silent, referenceModel, w)
     | S depth => findOutcome lib depth
     end) self query options w.

(** [Model.prototype.find] called where nothing catches what it throws:
    what the callback receives, [None] when it is not called. *)
Definition find (lib : Library) (depth : nat) (self : Model) (query : doc)
    (options : FindOptions) (w : World) : FindReply * Model * World :=
  match findOutcome lib depth self query options w with
  | (Answers reply _, self, w) => (Some reply, self, w)
  | (Silent, self, w) => (None, self, w)
  | (Throws e, self, w) => (None, self, emit (Throw e) w)
  end.

(** ** The history tracker *)

(** Modelled from the spec: the history module ([lib/model/history.js]) is
    not part of the sources.  By section 4.5, [createEach], given the
    snapshots and the kind of mutation, inserts one revision record per
    document into the revision collection and appends the identifier of the
    new revision to the [_history] of the live document.  A revision record
    holds the kind and the snapshot of the field values, under an
    identifier of its own. *)
Definition revisionRecord (kind : string) (snapshot : doc) : doc :=
  <["kind" := VStr kind]> (<["snapshot" := VObj (map_to_list snapshot)]> ∅).

(** The snapshot that a revision record holds. *)
Definition snapshotOf (revision : doc) : option doc :=
  match revision !! "snapshot" with
  | Some (VObj fields) => Some (list_to_map fields)
  | _ => None
  end.

(** [this.history.createEach(objs, kind, model)]: [None] when the promise
    resolves, the error when it rejects. *)
Fixpoint History_createEach (objs : list doc) (kind : string) (model : Model)
    (w : World) : option Err * World :=
  match objs with
  | [] => (None, w)
  | obj :: rest =>
      match database_insert (default "" (revisionCollection model))
              [revisionRecord kind obj] w with
      | (inl message, w) => (Some (DatastoreError message), w)
      | (inr results, w) =>
          match head results ≫= idString with
          | None => (Some (TypeError "revision without identifier"), w)
          | Some revisionId =>
              match database_update (name model)
                      (<["_id" := default VNull (obj !! "_id")]> ∅)
                      {| u_set := ∅; u_inc := [];
                         u_push := [("_history", VStr revisionId)] |} w with
              | (inl message, w) => (Some (DatastoreError message), w)
              | (inr _, w) => History_createEach rest kind model w
              end
          end
      end
  end.

(** ** [create], [delete] and [update] *)

Section Operations.

Variable lib : Library.

(** Where an exception goes that is thrown in a callback of [find] that
    hands every error to [done]: when the callback is [guarded], the
    [.catch] of [find] calls it again, with the exception. *)
Definition thrownInCallback (guarded : bool) (e : Err) (w : World) : World :=
  if guarded then emit (Done (inl (handedBack e))) w else emit (Throw e) w.

(** The after-hooks of an operation: each is applied, what it returns is
    dropped. *)
Definition applyAfterHooks (hooks : option (list HookConfig)) (w : World)
  : World :=
  foldl (fun w hookConfig => emit (AfterHook hookConfig) w) w
        (default [] hooks).

(** [saveDocuments] of [create] *)
Definition create_saveDocuments (self : Model) (documents : list doc)
    (w : World) : World :=
  match database_insert (name self) documents w with
  | (inr results, w) =>
      let results := composer_compose lib self results w in
      (* asynchronous search index *)
      let w := emit (SearchIndex results) w in
      (* apply any existing afterCreate hooks *)
      let w :=
        foldl (fun w _ =>
                 applyAfterHooks (s_hooks (settings self) ≫= afterCreate) w)
              w results in
      (* prepare result set for output *)
      emit (Done (inr (Created
              (formatDocsForOutput (internalFieldsPrefix lib) results)))) w
  | (inl message, w) =>
      if String.eqb message "DB_DISCONNECTED"
      then emit (Done (inl createConnectionError)) w
      else emit (Done (inl (DatastoreError message))) w
  end.

(** [startInsert] of [create] *)
Definition create_startInsert (self : Model) (documents : list doc)
    (w : World) : World :=
  match s_hooks (settings self) ≫= beforeCreate with
  | Some hooks =>
      (* running beforeCreate hooks: one reduction per document; the
         callback that counts the last document decides *)
      let chains :=
        (fun doc =>
           ((async_reduce hooks doc
               (hookIteratee lib "beforeCreate" self [])).1.1,
            pipelineTurns lib "beforeCreate" self [] hooks doc))
          <$> documents in
      match lastToFinish chains with
      | None => w
      | Some (Some err) => emit (Done (inl (HookErrorResponse err))) w
      | Some None => create_saveDocuments self documents w
      end
  | None => create_saveDocuments self documents w
  end.

(** The loop over the documents that ends [create]: reference fields
    passed as sub-documents are processed, and the callback of the last
    document starts the insert.  The callbacks run in the order of the
    documents. *)
Fixpoint create_fromComposed (self : Model) (processed remaining : list doc)
    (w : World) : World :=
  match remaining with
  | [] => w
  | doc :: rest =>
      match createFromComposed lib self doc w with
      | (inl json, w) =>
          create_fromComposed self (processed ++ [doc]) rest
            (emit (Done (inl (ComposeError json))) w)
      | (inr doc, w) =>
          match rest with
          | [] => create_startInsert self (processed ++ [doc]) w
          | _ => create_fromComposed self (processed ++ [doc]) rest w
          end
      end
  end.

(** The loop that validates each document: the first failure stays. *)
Definition create_validate (self : Model) (documents : list doc)
  : option Validation :=
  foldl (fun validation doc =>
           match validation with
           | None => Some (validate_schema lib self doc false)
           | Some v =>
               if success v then Some (validate_schema lib self doc false)
               else validation
           end) None documents.

(** The documents as [create] prepares them for the insert: internals
    merged in, the history started, the first version number set, dates
    converted. *)
Definition create_prepare (self : Model) (documents : list doc)
    (internals : option doc) : list doc :=
  let documents :=
    match internals with
    | Some internals => (fun doc => internals ∪ doc) <$> documents
    | None => documents
    end in
  let documents :=
    if history self then (fun doc => <["_history" := VArr []]> doc) <$> documents
    else documents in
  (* add initial document revision number *)
  let documents := (fun doc => <["_version" := VNum 1]> doc) <$> documents in
  (* DateTime *)
  queryUtils_convertDateTimeForSave lib (schema self) <$> documents.

(** [Model.prototype.create].  [documents] is the array, or the one
    document wrapped; [internals] is [None] when the callback is passed in
    its place. *)
Definition create (self : Model) (documents : list doc)
    (internals : option doc) (w : World) : World :=
  match db w with
  | None => emit (Done (inl createConnectionError)) w
  | Some _ =>
      (* validate each doc *)
      match create_validate self documents with
      | None =>
          emit (Throw (TypeError "Cannot read property 'success' of undefined")) w
      | Some validation =>
          if negb (success validation) then
            emit (Done (inl (createValidationError
                               (Some "Validation Failed") validation))) w
          else
            create_fromComposed self []
              (create_prepare self documents internals) w
      end
  end.

(** [deleteDocuments] of [delete] *)
Definition delete_deleteDocuments (self : Model) (query : doc)
    (deletedDocs : list doc) (allDocs : Metadata) (w : World) : World :=
  match database_delete (name self) query w with
  | (inr deletedCount, w) =>
      let w :=
        if (0 <? deletedCount)%nat then
          (* clear documents from search index *)
          let w := emit (SearchDelete deletedDocs) w in
          applyAfterHooks (s_hooks (settings self) ≫= afterDelete) w
        else w in
      emit (Done (inr (Deleted deletedCount
              (Z.of_nat (totalCount allDocs) - Z.of_nat deletedCount)))) w
  | (inl message, w) => emit (Done (inl (DatastoreError message))) w
  end.

(** The callback of [wait.then] in [delete]: apply any existing
    beforeDelete hooks, otherwise delete the documents straight away. *)
Definition delete_beforeDelete (self : Model) (query : doc)
    (deletedDocs : list doc) (allDocs : Metadata) (w : World) : World :=
  match s_hooks (settings self) ≫= beforeDelete with
  | Some hooks =>
      match async_reduce hooks query
              (hookIteratee lib "beforeDelete" self deletedDocs) with
      | (Some err, _, _) => emit (Done (inl (HookError err))) w
      | (None, _, _) =>
          delete_deleteDocuments self query deletedDocs allDocs w
      end
  | None => delete_deleteDocuments self query deletedDocs allDocs w
  end.

(** [Model.prototype.delete].  The second [find] is called in the
    callback of the first. *)
Definition delete (depth : nat) (self : Model) (query : doc)
    (req : option Request) (w : World) : World :=
  let validation := validate_query lib self query in
  if negb (success validation) then
    emit (Done (inl (createValidationError (Some "Bad Query") validation))) w
  else
    match db w with
    | None => emit (Done (inl createConnectionError)) w
    | Some _ =>
        let query := formatQuery (internalFieldsPrefix lib) query in
        match findOutcome lib depth self ∅
                {| o_compose := Some false; o_fields := [] |} w with
        | (Throws e, _, w) => emit (Throw e) w
        | (Silent, _, w) => w
        | (Answers (inl err) _, _, w) => emit (Done (inl err)) w
        | (Answers (inr (_, allDocs)) guarded, self, w) =>
            match findOutcome lib depth self query
                    {| o_compose := Some false; o_fields := [] |} w with
            | (Throws e, _, w) => thrownInCallback guarded e w
            | (Silent, _, w) => w
            | (Answers (inl err) _, _, w) => emit (Done (inl err)) w
            | (Answers (inr (deletedDocs, _)) _, self, w) =>
                if isRestIDQuery req && (length deletedDocs =? 0)%nat then
                  emit (Done (inl (NotFoundError "Document not found"))) w
                else
                  (* for each of the about-to-be-deleted documents,
                     create a revision for it *)
                  let '(rejected, w) :=
                    if history self && (0 <? length deletedDocs)%nat
                    then History_createEach deletedDocs "delete" self w
                    else (None, w) in
                  match rejected with
                  | Some err => emit (Done (inl err)) (emit (Log err) w)
                  | None =>
                      delete_beforeDelete self query deletedDocs allDocs w
                  end
            end
        end
    end.

(** What follows the history revisions in [saveDocuments] of [update]:
    the updated documents are fetched again and handed over.  The
    function runs in the [.then] of the history promise, whose [.catch]
    logs what is thrown there; the callback of the [find] runs in the
    turn of that [find]. *)
Definition update_refetch (depth : nat) (self : Model)
    (updatedDocs : list doc) (matchedCount : nat)
    (bypassOutputFormatting : bool) (w : World) : World :=
  match pluckIds updatedDocs with
  | None => emit (Log (TypeError "Cannot read property 'toString' of undefined")) w
  | Some ids =>
      match findOutcome lib depth self
              (<["_id" := VObj [("$in", idValues ids)]]> ∅)
              {| o_compose := Some true; o_fields := [] |} w with
      | (Throws e, _, w) => emit (Log e) w
      | (Silent, _, w) => w
      | (Answers (inl err) _, _, w) => emit (Done (inl err)) w
      | (Answers (inr (results, metadata)) guarded, self, w) =>
          if (matchedCount =? 0)%nat then
            emit (Done (inr (Found results metadata))) w
          else
            (* apply any existing afterUpdate hooks *)
            let w := applyAfterHooks (s_hooks (settings self) ≫= afterUpdate) w in
            (* asynchronous search index: this.searcher.index(...) *)
            if searcher self then
              let w := emit (SearchIndex results) w in
              (* prepare result set for output *)
              let results :=
                if bypassOutputFormatting then results
                else formatDocsForOutput (internalFieldsPrefix lib) results in
              emit (Done (inr (Found results metadata))) w
            else
              thrownInCallback guarded
                (TypeError "Cannot read property 'index' of undefined") w
      end
  end.

(** [saveDocuments] of [update]; [update] is the object that [$set] of
    [setUpdate] refers to. *)
Definition update_saveDocuments (depth : nat) (self : Model) (query : doc)
    (update : doc) (updatedDocs : list doc) (req : option Request)
    (bypassOutputFormatting : bool) (w : World) : World :=
  let setUpdate :=
    {| u_set := update; u_inc := [("_version", 1%Z)]; u_push := [] |} in
  match database_update (name self) query setUpdate w with
  | (inl message, w) => emit (Done (inl (DatastoreError message))) w
  | (inr matchedCount, w) =>
      if isRestIDQuery req && (matchedCount =? 0)%nat then
        emit (Done (inl (NotFoundError "Not Found"))) w
      else
        (* for each of the updated documents, create a history revision *)
        let '(rejected, w) :=
          if history self
          then History_createEach updatedDocs "update" self w
          else (None, w) in
        match rejected with
        | Some err => emit (Log err) w
        | None =>
            update_refetch depth self updatedDocs matchedCount
              bypassOutputFormatting w
        end
  end.

(** The end of the callback in [startUpdate]: apply any existing
    beforeUpdate hooks, otherwise save the documents straight away.  The
    result of the hooks is assigned to the variable [update]; [setUpdate]
    keeps the object it was made with. *)
Definition update_beforeUpdate (depth : nat) (self : Model) (query : doc)
    (update : doc) (updatedDocs : list doc) (req : option Request)
    (bypassOutputFormatting : bool) (w : World) : World :=
  match s_hooks (settings self) ≫= beforeUpdate with
  | Some hooks =>
      match async_reduce hooks update
              (hookIteratee lib "beforeUpdate" self updatedDocs) with
      | (Some err, _, _) => emit (Done (inl (HookError err))) w
      | (None, _, _) =>
          update_saveDocuments depth self query update updatedDocs req
            bypassOutputFormatting w
      end
  | None =>
      update_saveDocuments depth self query update updatedDocs req
        bypassOutputFormatting w
  end.

(** [startUpdate] of [update], called in the callback of
    [createFromComposed]: [guarded] tells whether an exception thrown
    there is handed back to the callback of the first [find]. *)
Definition update_startUpdate (guarded : bool) (depth : nat) (self : Model)
    (query : doc) (update : doc) (updatedDocs : list doc)
    (req : option Request) (bypassOutputFormatting : bool) (w : World)
  : World :=
  match findOutcome lib depth self query
          {| o_compose := Some false; o_fields := [] |} w with
  | (Throws e, _, w) => thrownInCallback guarded e w
  | (Silent, _, w) => w
  | (Answers (inl err) _, _, w) => emit (Done (inl err)) w
  | (Answers (inr _) _, self, w) =>
      update_beforeUpdate depth self query update updatedDocs req
        bypassOutputFormatting w
  end.

(** [Model.prototype.update]; [internals] is [None] when the callback is
    passed in its place. *)
Definition update (depth : nat) (self : Model) (query : doc) (update : doc)
    (internals : option doc) (req : option Request)
    (bypassOutputFormatting : bool) (w : World) : World :=
  match db w with
  | None => emit (Done (inl createConnectionError)) w
  | Some _ =>
      let validation := validate_query lib self query in
      if negb (success validation) then
        emit (Done (inl (createValidationError (Some "Bad Query") validation))) w
      else
        let validation := validate_schema lib self update true in
        if negb (success validation) then
          emit (Done (inl (createValidationError None validation))) w
        else
          (* format query *)
          let query := formatQuery (internalFieldsPrefix lib) query in
          (* DateTimes *)
          let update :=
            queryUtils_convertDateTimeForSave lib (schema self) update in
          let update :=
            match internals with
            | Some internals => internals ∪ update
            | None => update
            end in
          (* get a reference to the documents that will be updated *)
          match findOutcome lib depth self query noOptions w with
          | (Throws e, _, w) => emit (Throw e) w
          | (Silent, _, w) => w
          | (Answers (inl err) _, _, w) => emit (Done (inl err)) w
          | (Answers (inr (results, _)) guarded, self, w) =>
              let updatedDocs := snapshot results in
              let immediate :=
                from_option
                  (composer_createFromComposed_immediate lib self update)
                  false (db w) in
              match createFromComposed lib self update w with
              | (inl json, w) => emit (Done (inl (ComposeError json))) w
              | (inr update, w) =>
                  update_startUpdate (immediate && guarded) depth self query
                    update updatedDocs req bypassOutputFormatting w
              end
          end
  end.

End Operations.

(** ** [dadi/lib/fields/reference.js] *)

Module Reference.

(** The model of the field modules: its name and [getField]. *)
Record FieldModel := {
  fm_name : string;
  fm_fields : gmap string FieldSchema
}.

(** [s.toLowerCase()] on the letters A to Z. *)
Definition lowerChar (c : ascii) : ascii :=
  let n := nat_of_ascii c in
  if (65 <=? n)%nat && (n <=? 90)%nat then ascii_of_nat (n + 32) else c.

Fixpoint toLowerCase (s : string) : string :=
  match s with
  | EmptyString => EmptyString
  | String c rest => String (lowerChar c) (toLowerCase rest)
  end.

(** [Object.keys(v)] with the values: the entries of an object, the
    elements of an array under their indices. *)
Definition entries (v : value) : list (string * value) :=
  match v with
  | VObj fields => fields
  | VArr xs => imap (fun i x => (pretty i, x)) xs
  | _ => []
  end.

(** [isOperatorQuery(tree)] *)
Definition isOperatorQuery (tree : option value) : bool :=
  truthy tree &&
  match tree with
  | Some (VStr s) => false
  | Some v =>
      forallb (fun kv => match kv.1 with
                         | String c _ => Ascii.eqb c "$"%char
                         | EmptyString => false
                         end) (entries v)
  | None => false
  end.

(** [Object.assign({}, query, {[key]: v})], and [o[key] = v]: as in
    [setField], the key [__proto__] makes no property. *)
Fixpoint assign (query : list (string * value)) (key : string) (v : value)
  : list (string * value) :=
  if String.eqb key "__proto__" then query else
  match query with
  | [] => [(key, v)]
  | (k, x) :: rest =>
      if String.eqb k key then (k, v) :: rest else (k, x) :: assign rest key v
  end.

(** [objectPath.set(tree, path, v)] (object-path 0.11) for the parts of
    a path, which are field names: objects are created on the way.  The
    tree is left as it is where the call throws, on a value on the way
    that is no object, and by a part [__proto__]; parts that are
    numbers and arrays on the way are not embedded and are treated as
    field names and as values that end the path. *)
Fixpoint setPath (path : list string) (v : value)
    (tree : list (string * value)) : list (string * value) :=
  match path with
  | [] => tree
  | [key] => assign tree key v
  | key :: rest =>
      match (list_to_map tree : doc) !! key with
      | None => assign tree key (VObj (setPath rest v []))
      | Some (VObj sub) => assign tree key (VObj (setPath rest v sub))
      | Some _ => tree
      end
  end.

(** Whether [objectPath.set(tree, path, v)] throws: the path leads
    through a value that is no object, on which no property can be
    created. *)
Fixpoint setPathThrows (path : list string)
    (tree : list (string * value)) : bool :=
  match path with
  | [] | [_] => false
  | key :: rest =>
      match (list_to_map tree : doc) !! key with
      | Some (VObj sub) => setPathThrows rest sub
      | Some (VArr _) | None => false
      | Some _ => true
      end
  end.

(** One step of the reduction that makes the tree: [objectPath.set]
    returns at once for the empty path. *)
Definition setInput (tree : list (string * value)) (kv : string * value)
  : list (string * value) :=
  if String.eqb kv.1 "" then tree
  else setPath (split "."%char kv.1) kv.2 tree.

(** The tree of the dot-notation paths of [input]. *)
Definition inputTree (input : list (string * value)) : list (string * value) :=
  foldl setInput [] input.

(** Whether one of the calls of [objectPath.set] throws. *)
Fixpoint inputTreeThrows (tree : list (string * value))
    (input : list (string * value)) : bool :=
  match input with
  | [] => false
  | kv :: rest =>
      (negb (String.eqb kv.1 "")
       && setPathThrows (split "."%char kv.1) tree)
      || inputTreeThrows (setInput tree kv) rest
  end.

(** How [createModelChain] or a promise of [processTree] ends. *)
Inductive Outcome (A : Type) :=
| Resolved (a : A)
| Rejected (e : Err).
Arguments Resolved {A} a.
Arguments Rejected {A} e.

Section BeforeQuery.

(** [rootModel.getForeignModel(collection)] *)
Variable getForeignModel : string -> option FieldModel.

(** One step of the reduction in [createModelChain].  A chain is a
    list of models, [undefined] where [getForeignModel] found none;
    [None] is the error state [null]. *)
Definition chainStep (rootModel : FieldModel) (fields : list string)
    (chain : Outcome (option (list (option FieldModel)))) (index : nat)
    (field : string) : Outcome (option (list (option FieldModel))) :=
  match chain with
  | Rejected e => Rejected e
  | Resolved None => Resolved None
  | Resolved (Some []) => Resolved (Some [Some rootModel])
  | Resolved (Some chain) =>
      match default None (last chain) with
      | None =>
          Rejected (TypeError "Cannot read property 'getField' of undefined")
      | Some nodeModel =>
          let previous := default "" (fields !! (index - 1)) in
          match fm_fields nodeModel
                  !! default "" (head (split "@"%char previous)) with
          | None =>
              Rejected (TypeError "Cannot read property 'type' of undefined")
          | Some referenceField =>
              if negb (String.eqb (toLowerCase (f_type referenceField))
                                  "reference")
              then Resolved None
              else
                let referenceCollection :=
                  if truthy (VStr <$> split "@"%char field !! 1)
                  then split "@"%char field !! 1
                  else f_settings referenceField ≫= fs_collection in
                if truthy (VStr <$> referenceCollection) then
                  Resolved (Some (chain ++
                    [getForeignModel (default "" referenceCollection)]))
                else
                  (* no settings.collection: a self-reference *)
                  Resolved (Some (chain ++ [Some nodeModel]))
          end
      end
  end.

(** [createModelChain(rootModel, fields)] *)
Definition createModelChain (rootModel : FieldModel) (fields : list string)
  : Outcome (option (list (option FieldModel))) :=
  (foldl (fun acc field => (chainStep rootModel fields acc.1 acc.2 field,
                            S acc.2))
         (Resolved (Some []), 0) fields).1.

(** Modelled from the spec: [model.find({query})] of the models that the
    field modules work with, whose code is not part of the sources.  It
    delegates to the storage [find] on the collection of the model and
    resolves with the documents found. *)
Definition model_find (model : FieldModel) (query : list (string * value))
    (w : World) : Outcome (list doc) * World :=
  match database_find (fm_name model) (list_to_map query) [] w with
  | (inr (results, _), w) => (Resolved results, w)
  | (inl message, w) => (Rejected (DatastoreError message), w)
  end.

(** The last part of [processTree], run when the queue has resolved
    with [query].  The loop over the fields of [query] that comes
    before [model.find] returns from its own callback only: it reads
    [query[field].$containsAny] and changes nothing. *)
Definition finish (model : option FieldModel) (path : list string)
    (query : list (string * value)) (w : World) : Outcome value * World :=
  match path with
  | [] => (Resolved (VObj query), w)
  | _ =>
      if existsb (fun kv => bool_decide (kv.2 = VNull)) query then
        (Rejected (TypeError "Cannot read property '$containsAny' of null"), w)
      else
        match model with
        | None => (Rejected (TypeError "Cannot read property 'find' of undefined"), w)
        | Some model =>
            match model_find model query w with
            | (Rejected e, w) => (Rejected e, w)
            | (Resolved results, w) =>
                match pluckIds results with
                | Some ids =>
                    (Resolved (VObj [("$containsAny", idValues ids)]), w)
                | None =>
                    (Rejected (TypeError "Cannot read property 'toString' of undefined"), w)
                end
            end
        end
  end.

(** One function of the queue of [processTree]: the key [key] of the
    tree, with value [v]; [subtree] is [processTree(tree[key],
    path.concat(key))]. *)
Definition processKey (key : string) (v : value)
    (subtree : World -> Outcome value * World)
    (query : list (string * value)) (w : World)
  : Outcome (list (string * value)) * World :=
  let canonicalKey := default "" (head (split "@"%char key)) in
  if truthy (Some v)
     && match v with VObj _ | VArr _ => true | _ => false end
     && negb (isOperatorQuery (Some v))
  then
    match subtree w with
    | (Rejected e, w) => (Rejected e, w)
    | (Resolved result, w) => (Resolved (assign query canonicalKey result), w)
    end
  else (Resolved (assign query canonicalKey v), w).

Section ProcessTree.

Variable rootModel : FieldModel.

(** [processTree(tree, path)], by recursion on the value that holds
    the tree.  The model chain is computed when the function is
    called; the functions queued for the keys run one after the
    other, also when the computation of the chain has thrown. *)
Fixpoint processTree (tree : value) (path : list string) (w : World)
    {struct tree} : Outcome value * World :=
  let firstKey := default "" (head (fst <$> entries tree)) in
  let modelChain := createModelChain rootModel (path ++ [firstKey]) in
  let queue :=
    match tree with
    | VObj fields =>
        (fix queue (kvs : list (string * value))
             (query : list (string * value)) (w : World) :=
           match kvs with
           | [] => (Resolved query, w)
           | (key, v) :: rest =>
               match processKey key v
                       (processTree v (path ++ [key])) query w with
               | (Rejected e, w) => (Rejected e, w)
               | (Resolved query, w) => queue rest query w
               end
           end) fields [] w
    | VArr xs =>
        (fix queue (xs : list value) (i : nat)
             (query : list (string * value)) (w : World) :=
           match xs with
           | [] => (Resolved query, w)
           | v :: rest =>
               match processKey (pretty i) v
                       (processTree v (path ++ [pretty i])) query w with
               | (Rejected e, w) => (Rejected e, w)
               | (Resolved query, w) => queue rest (S i) query w
               end
           end) xs 0 [] w
    | _ => (Resolved [], w)
    end in
  match modelChain with
  | Rejected e => (Rejected e, queue.2)
  | Resolved None =>
      (Rejected (TypeError "Cannot read property 'length' of null"),
       queue.2)
  | Resolved (Some modelChain) =>
      match queue with
      | (Rejected e, w) => (Rejected e, w)
      | (Resolved query, w) =>
          finish (default None (last modelChain)) path query w
      end
  end.

End ProcessTree.

(** [module.exports.beforeQuery], bound to [rootModel]; [input] is
    read for a property of its own. *)
Definition beforeQuery (rootModel : FieldModel) (field : string)
    (input : list (string * value)) (w : World) : Outcome value * World :=
  if isOperatorQuery ((list_to_map input : doc) !! field)
  then (Resolved (VObj input), w)
  else if inputTreeThrows [] input
  then (Rejected (TypeError "Cannot create property on a value that is not an object"), w)
  else processTree rootModel (VObj (inputTree input)) [] w.

End BeforeQuery.

End Reference.

(** ** The fields that the engine manages *)

(** [d'] has the version and the history of [d]. *)
Definition sameManaged (d d' : doc) : Prop :=
  d' !! "_version" = d !! "_version" /\ d' !! "_history" = d !! "_history".

(** What [create] sets in a document: the version is 1; with revisions
    the history is the empty array; without them no history is added to
    documents and internals that have none. *)
Definition initialised (self : Model) (documents : list doc)
    (internals : option doc) (d : doc) : Prop :=
  d !! "_version" = Some (VNum 1) /\
  (history self = true -> d !! "_history" = Some (VArr [])) /\
  (history self = false ->
   (forall original, original ∈ documents -> original !! "_history" = None) ->
   (forall i, internals = Some i -> i !! "_history" = None) ->
   d !! "_history" = None).

(** The documents of collection [c] that [query] selects. *)
Definition selected (ds : Datastore) (c : string) (query : doc) : list doc :=
  filter (fun d => matches query d = true) (map_to_list (collectionOf ds c)).*2.

(** The payload of an update as it reaches [createFromComposed]: dates
    converted, internals merged in. *)
Definition updatePayload (lib : Library) (self : Model) (payload : doc)
    (internals : option doc) : doc :=
  let converted := queryUtils_convertDateTimeForSave lib (schema self) payload in
  match internals with
  | Some internals => internals ∪ converted
  | None => converted
  end.

(** An update that goes through on the datastore [ds]: what a call needs
    for the update of the datastore to be made and to succeed. *)
Record GoesThrough (lib : Library) (self : Model) (query payload : doc)
    (internals : option doc) (ds : Datastore) : Prop := {
  (* the query and the payload are valid *)
  gt_query : success (validate_query lib self query) = true;
  gt_payload : success (validate_schema lib self payload true) = true;
  gt_find :
    forall c, success (validate_query lib (withCompose c self)
                         (formatQuery (internalFieldsPrefix lib) query)) = true;
  (* the query is on fields of the collection and is left as it is *)
  gt_plain :
    queryUtils_makeCaseInsensitive lib
      (formatQuery (internalFieldsPrefix lib) query) (schema self)
    = formatQuery (internalFieldsPrefix lib) query;
  gt_local :
    queryUtils_containsNestedReferenceFields lib
      (formatQuery (internalFieldsPrefix lib) query) (schema self) = false;
  (* the payload has no sub-document: the composer leaves it, and the
     datastore, as they are *)
  gt_composed :
    forall c, composer_createFromComposed lib (withCompose c self)
                (updatePayload lib self payload internals) ds
              = (inr (updatePayload lib self payload internals), ds, []);
  (* the payload does not assign the fields that the engine manages *)
  gt_id : updatePayload lib self payload internals !! "_id" = None;
  gt_version : updatePayload lib self payload internals !! "_version" = None;
  gt_history : updatePayload lib self payload internals !! "_history" = None;
  (* no hook fails *)
  gt_hooks :
    forall hooks docs,
      s_hooks (settings self) ≫= beforeUpdate = Some hooks ->
      (async_reduce hooks (updatePayload lib self payload internals)
         (hookIteratee lib "beforeUpdate" (withCompose (Some false) self) docs)).1.1
      = None;
  (* the datastore takes the reads and the writes of the collection *)
  gt_collection : faults ds !! name self = None;
  (* a stored document carries the identifier it is stored under *)
  gt_stored :
    forall id d, collectionOf ds (name self) !! id = Some d ->
                 d !! "_id" = Some (VStr id);
  (* the composer keeps the identifiers *)
  gt_compose :
    forall c docs w,
      Forall2 (fun d d' => d' !! "_id" = d !! "_id") docs
              (composer_compose lib (withCompose c self) docs w)
}.

(** Every result set that [create] handed to the callback is among those
    of [old], or has documents that satisfy [P]. *)
Definition createdAll (old : list (Err + Result)) (P : doc -> Prop)
    (replies : list (Err + Result)) : Prop :=
  forall results,
    inr (Created results) ∈ replies ->
    inr (Created results) ∈ old \/ Forall P results.

(** The pipeline [hooks] hands [document] from handler to handler up to
    the last one, which rejects it: [err] is the error that the final
    callback of the pipeline receives. *)
Definition rejectedByLast (lib : Library) (type : string) (self : Model)
    (docs : list doc) (hooks : list HookConfig) (document : doc)
    (err : value) : Prop :=
  exists pre h current n e,
    hooks = pre ++ [h] /\
    async_reduce pre document (hookIteratee lib type self docs)
    = (None, current, n) /\
    hook_apply lib h type self current docs = HThrows e /\
    err = hook_formatError lib h e.

(** ** Instances on which the operations are run *)

Module Fixtures.

Definition accepted : Validation := {| success := true; errors := [] |}.

Definition refused (field : string) : Validation :=
  {| success := false; errors := [VStr field] |}.

(** A schema that requires [name]. *)
Definition requireName (d : doc) : Validation :=
  match d !! "name" with
  | Some _ => accepted
  | None => refused "name"
  end.

(** Three handlers: [veto] returns null, [fail] throws, any other one
    returns the value it is given with a mark of its own. *)
Definition handlers (hookConfig : HookConfig) (current : doc) : HookReturn :=
  if String.eqb hookConfig "veto" then HNull
  else if String.eqb hookConfig "fail" then HThrows (VStr "failed")
  else HValue (<[hookConfig := VBool true]> current).

Definition isDotted (key : string) : bool :=
  bool_decide (length (split "."%char key) ≠ 1).

(** A library: every connection has the datastore, queries are
    accepted, a document to create needs a [name], nothing is composed
    and the composer calls back at once, a dot in a key makes a
    reference path. *)
Definition library (prefix : string) : Library :=
  {| internalFieldsPrefix := prefix;
     Connection_db := fun _ _ _ => true;
     validate_query := fun _ _ => accepted;
     validate_schema := fun _ d update =>
       if update then accepted else requireName d;
     composer_compose := fun _ docs _ => docs;
     composer_compose_immediate := fun _ _ _ => true;
     composer_createFromComposed := fun _ d ds => (inr d, ds, []);
     composer_createFromComposed_immediate := fun _ _ _ => true;
     hook_apply := fun hookConfig _ _ current _ => handlers hookConfig current;
     hook_formatError := fun _ err => err;
     queryUtils_makeCaseInsensitive := fun query _ => query;
     queryUtils_containsNestedReferenceFields := fun query _ =>
       bool_decide (filter (fun kv => isDotted kv.1 = true) query ≠ ∅);
     queryUtils_processReferenceFieldQuery := fun query _ =>
       (filter (fun kv => isDotted kv.1 = false) query,
        map_to_list (filter (fun kv => isDotted kv.1 = true) query));
     queryUtils_getSchemaOrParent := fun key schema => sc_fields schema !! key;
     queryUtils_convertDateTimeForSave := fun _ d => d;
     regExp_test := fun queryValue v => bool_decide (v = Some queryValue) |}.

Definition settingsWith (storeRevisions : option bool)
    (hooks : option Hooks) : Settings :=
  {| s_database := None; s_compose := None;
     s_storeRevisions := storeRevisions; s_revisionCollection := None;
     s_hooks := hooks; s_index := None |}.

Definition hooksBefore (pipeline : list HookConfig) : Hooks :=
  {| beforeCreate := Some pipeline; afterCreate := None;
     beforeUpdate := Some pipeline; afterUpdate := None;
     beforeDelete := Some pipeline; afterDelete := None |}.

Definition reference (collection : string) (multiple : bool) : FieldSchema :=
  {| f_type := "Reference";
     f_settings := Some {| fs_collection := Some collection;
                           fs_database := None; fs_fields := None;
                           fs_multiple := multiple |} |}.

(** The schema of [books]: [authorId] refers to [authors]. *)
Definition booksSchema (multiple : bool) : Schema :=
  {| sc_fields := <["authorId" := reference "authors" multiple]> ∅;
     sc_settings := None |}.

Definition store (collections : list (string * list (string * doc)))
  : Datastore :=
  {| collections := list_to_map ((fun cd => (cd.1, list_to_map cd.2)) <$> collections);
     faults := ∅ |}.

Definition broken (ds : Datastore) (collection message : string) : Datastore :=
  {| collections := collections ds;
     faults := <[collection := message]> (faults ds) |}.

Definition world (ds : option Datastore) : World :=
  {| db := ds; models := ∅; events := [] |}.

(** The model of [books] as the constructor makes it. *)
Definition books (multiple : bool) (settings : Settings) : Model :=
  (Model_new "books" (booksSchema multiple) settings (world None)).1.

(** The same instance with a [searcher] attached to it. *)
Definition withSearcher (self : Model) : Model :=
  {| name := name self; schema := schema self; settings := settings self;
     compose := compose self; storeRevisions := storeRevisions self;
     history := history self; revisionCollection := revisionCollection self;
     searchHandler := searchHandler self; searcher := true |}.

Definition book (id title : string) (version : Z) : doc :=
  <["_id" := VStr id]>
    (<["_version" := VNum version]>
       (<["_history" := VArr []]> (<["name" := VStr title]> ∅))).

Definition withId (id : string) : option Request :=
  Some {| params_id := Some id |}.

End Fixtures.


(** ** The other operations of [dadi/lib/model/index.js] *)

(** What [find] adds to the events: calls of the datastore's [find], the
    calls of [index] that the constructor of a reference model makes, and
    what is thrown and not caught. *)
Definition findEvent (e : Event) : Prop :=
  match e with
  | Call (DbFind _ _ _) | Call (DbIndex _ _) | Throw _ => True
  | _ => False
  end.

(** From [w] to [w'] the datastore is the same, the models registered
    keep their schemas, and the events added are those of finds. *)
Definition onlyFinds (w w' : World) : Prop :=
  db w' = db w /\
  models w ⊆ models w' /\
  exists es, events w' = events w ++ es /\ Forall findEvent es.

(** [Model.prototype.count]: what [done] receives, [None] when it is not
    called.  A query is an object, so [_.isObject(query)] holds. *)
Definition count (lib : Library) (depth : nat) (self : Model) (query : doc)
    (options : FindOptions) (w : World)
  : option (Err + Metadata) * Model * World :=
  let validation := validate_query lib self query in
  if negb (success validation) then
    (Some (inl (createValidationError (Some "Bad Query") validation)), self, w)
  else
    match find lib depth self query options w with
    | (None, self, w) => (None, self, w)
    | (Some (inl err), self, w) => (Some (inl err), self, w)
    | (Some (inr (_, metadata)), self, w) => (Some (inr metadata), self, w)
    end.

(** [_.map(history, id => id.toString())] on the [_history] of a
    document: [_.map] takes the elements of an array, the values of an
    object, the characters of a string, and nothing from anything else;
    [None] where [toString] is called on null. *)
Definition historyIds (history : option value) : option (list string) :=
  match history with
  | Some (VArr xs) => mapM toString xs
  | Some (VObj fields) => mapM toString fields.*2
  | Some (VStr s) => Some ((fun c => String c "") <$> String.list_ascii_of_string s)
  | _ => Some []
  end.

(** [Model.prototype.revisions], for options without [fields]:
    [historyFilters] is the object that [options.historyFilters] parses
    to, [None] when there is none or it does not parse.  The reply is what
    [done] receives, [None] when it is not called: without a connection
    the lookup waits for one.  Of the document looked for, the first
    result is read. *)
Definition revisions (self : Model) (id : value) (historyFilters : option doc)
    (w : World) : option (Err + list doc) * World :=
  match db w with
  | None => (None, w)
  | Some _ =>
      match database_find (name self) (<["_id" := id]> ∅) [] w with
      | (inl message, w) => (Some (inl (DatastoreError message)), w)
      | (inr (results, _), w) =>
          match results with
          | first :: _ =>
              if history self then
                match historyIds (first !! "_history") with
                | None =>
                    (Some (inl (TypeError
                       "Cannot read property 'toString' of null")), w)
                | Some ids =>
                    let historyQuery :=
                      <["_id" := VObj [("$in", idValues ids)]]>
                        (default ∅ historyFilters) in
                    match database_find (default "" (revisionCollection self))
                            historyQuery [] w with
                    | (inl message, w) =>
                        (Some (inl (DatastoreError message)), w)
                    | (inr (results, _), w) => (Some (inr results), w)
                    end
                end
              else (Some (inr []), w)
          | [] => (Some (inr []), w)
          end
      end
  end.

(** [s.indexOf(c)] for a character. *)
Fixpoint indexOf (c : ascii) (s : string) : option nat :=
  match s with
  | EmptyString => None
  | String a rest => if Ascii.eqb a c then Some 0 else S <$> indexOf c rest
  end.

(** [s.indexOf(p) >= 0]: [p] occurs in [s]. *)
Fixpoint includes (p s : string) : bool :=
  String.prefix p s ||
  match s with
  | EmptyString => false
  | String _ rest => includes p rest
  end.

(** The names of the properties that an object inherits from
    [Object.prototype]. *)
Definition inheritedProperties : list string :=
  ["constructor"; "__defineGetter__"; "__defineSetter__"; "hasOwnProperty";
   "__lookupGetter__"; "__lookupSetter__"; "isPrototypeOf";
   "propertyIsEnumerable"; "toString"; "valueOf"; "__proto__";
   "toLocaleString"].

(** [this.schema[key]]: [None] when it is undefined, else the [type] of
    the property.  The settings of the schema have no [type]; neither have
    the properties that the schema, an object made from JSON, inherits. *)
Definition schemaProperty (schema : Schema) (key : string)
  : option (option string) :=
  match sc_fields schema !! key with
  | Some fieldSchema => Some (Some (f_type fieldSchema))
  | None =>
      if String.eqb key "settings" && bool_decide (is_Some (sc_settings schema))
      then Some None
      else if bool_decide (key ∈ inheritedProperties) then Some None
      else None
  end.

(** [/Mixed|Object|Reference/.test(type)]; an undefined type is tested as
    the string [undefined]. *)
Definition compositeType (type : option string) : bool :=
  let type := default "undefined" type in
  includes "Mixed" type || includes "Object" type || includes "Reference" type.

(** [Model.prototype.isKeyValid]: [true], or [false] for the undefined
    that the function returns otherwise. *)
Definition isKeyValid (self : Model) (key : string) : bool :=
  if String.eqb key "_id"
     || match schemaProperty (schema self) key with
        | Some _ => true
        | None => false
        end
  then true
  else
    (* check for dot notation, to determine the datatype of the first
       part of the key *)
    match indexOf "."%char key with
    | Some (S _) =>
        match schemaProperty (schema self)
                (default "" (head (split "."%char key))) with
        | Some type => compositeType type
        | None => false
        end
    | _ => false
    end.

(** The object that [get] hands on, [{results, metadata}]; a handler may
    return one without [results]. *)
Record GetResults := {
  g_results : option ResultSet;
  g_metadata : option Metadata
}.

(** What a [beforeGet] handler answers with: the new query, [None] for
    null, or a rejection. *)
Inductive BeforeGetReturn :=
| BValue (newQuery : option doc)
| BThrows (err : value).

(** What an [afterGet] handler answers with. *)
Inductive AfterGetReturn :=
| AValue (newResults : GetResults)
| ANull
| AThrows (err : value).

(** The value that the final callback of the [afterGet] pipeline
    receives. *)
Inductive Memo :=
| MResults (finalResult : GetResults)
| MNull
| MUndefined.

(** How [get] ends. *)
Inductive GetOutcome :=
| GCalled (r : Err + GetResults)  (* done(err, null) or done(null, results) *)
| GNotCalled                      (* done is not called *)
| GNullQuery.                     (* [find] is called with null for a query,
                                     in utilities that are not part of the
                                     sources *)

Section Get.

Variable lib : Library.

(** [this.settings.hooks.beforeGet] and [this.settings.hooks.afterGet],
  [None] when [this.settings.hooks] or the property is not there. *)
Variables (beforeGet afterGet : option (list HookConfig)).

(** [new Hook(hookConfig, 'beforeGet').apply(current, schema, name, req)];
  a null is no error in this pipeline, and is handed to the handlers
  that follow. *)
Variable beforeGet_apply : HookConfig -> Model -> option doc -> BeforeGetReturn.

(** [new Hook(hookConfig, 'afterGet').apply(current, schema, name, req)] *)
Variable afterGet_apply : HookConfig -> Model -> GetResults -> AfterGetReturn.

(** [async.reduce] over the [beforeGet] handlers: the error or the final
  query, [None] for null. *)
Fixpoint beforeGetPipeline (self : Model) (hooks : list HookConfig)
  (current : option doc) : value + option doc :=
match hooks with
| [] => inr current
| hookConfig :: rest =>
    match beforeGet_apply hookConfig self current with
    | BValue newQuery => beforeGetPipeline self rest newQuery
    | BThrows err => inl (hook_formatError lib hookConfig err)
    end
end.

(** [async.reduce] over the [afterGet] handlers: the error and the value
  that the final callback receives.  [async.reduce] keeps as its value
  what goes with an error: null from a handler that returned null,
  undefined from one that rejected. *)
Fixpoint afterGetPipeline (self : Model) (hooks : list HookConfig)
  (current : GetResults) : option value * Memo :=
match hooks with
| [] => (None, MResults current)
| hookConfig :: rest =>
    match afterGet_apply hookConfig self current with
    | AValue newResults => afterGetPipeline self rest newResults
    | ANull => (Some (VObj []), MNull)
    | AThrows err => (Some (hook_formatError lib hookConfig err), MUndefined)
    end
end.

(** What [async.reduce] throws when the callback of an iteratee is called
  a second time. *)
Definition calledTwice : Err := PlainError "Callback was already called.".

(** [databaseGet] of [get]; [inPipeline] when it is called from the final
  callback of a [beforeGet] pipeline that has called a handler, in the
  [.then] of that handler.  The final callback of the [afterGet]
  pipeline formats [finalResult.results] before it looks at the error.
  What a final callback throws in the [.then] of a handler is caught by
  the [.catch] of the handler, which calls the callback of
  [async.reduce] a second time; that call throws, and nothing catches
  it. *)
Definition databaseGetIn (inPipeline : bool) (depth : nat) (self : Model)
  (query : doc) (options : FindOptions) (w : World)
: GetOutcome * Model * World :=
match findOutcome lib depth self query options w with
| (Throws e, self, w) =>
    (GNotCalled, self, emit (Throw (if inPipeline then calledTwice else e)) w)
| (Silent, self, w) => (GNotCalled, self, w)
| (Answers (inl err) _, self, w) => (GCalled (inl err), self, w)
| (Answers (inr (results, metadata)) _, self, w) =>
    let found :=
      {| g_results := Some (Multiple results);
         g_metadata := Some metadata |} in
    let finalResult :=
      match afterGet with
      | Some hooks => afterGetPipeline self hooks found
      | None => (None, MResults found)
      end in
    let inThen := bool_decide (default [] afterGet ≠ []) in
    (* prepare result set for output *)
    match finalResult with
    | (err, MResults finalResult) =>
        match g_results finalResult with
        | Some results =>
            let formatted :=
              {| g_results :=
                   Some (formatResultSetForOutput
                           (internalFieldsPrefix lib) results);
                 g_metadata := g_metadata finalResult |} in
            match err with
            | Some err => (GCalled (inl (HookError err)), self, w)
            | None => (GCalled (inr formatted), self, w)
            end
        | None =>
            (GNotCalled, self,
             emit (Throw (if inThen then calledTwice
                          else TypeError
                            "Cannot convert undefined or null to object")) w)
        end
    | (_, MNull) => (GNotCalled, self, emit (Throw calledTwice) w)
    | (_, MUndefined) =>
        (GNotCalled, self,
         emit (Throw (TypeError
           "Cannot read property 'results' of undefined")) w)
    end
end.

Definition databaseGet (depth : nat) (self : Model) (query : doc)
  (options : FindOptions) (w : World) : GetOutcome * Model * World :=
databaseGetIn false depth self query options w.

(** [Model.prototype.get] *)
Definition get (depth : nat) (self : Model) (query : doc)
  (options : FindOptions) (w : World) : GetOutcome * Model * World :=
(* run any beforeGet hooks *)
match beforeGet with
| Some hooks =>
    match beforeGetPipeline self hooks (Some query) with
    | inl err => (GCalled (inl (HookError err)), self, w)
    | inr None => (GNullQuery, self, w)
    | inr (Some finalQuery) =>
        databaseGetIn (bool_decide (hooks ≠ [])) depth self finalQuery
          options w
    end
| None => databaseGet depth self query options w
end.

End Get.

(** No field of the documents of a result set is null. *)
Definition withoutNull (results : ResultSet) : Prop :=
  match results with
  | Single document => forall k, document !! k <> Some VNull
  | Multiple documents =>
      Forall (fun document : doc => forall k, document !! k <> Some VNull)
             documents
  end.

(** The test of [processTree] on the value of a key: an object or an
    array that is not an operator query is processed as a tree of its
    own. *)
Definition isSubtree (v : value) : bool :=
  truthy (Some v)
  && match v with VObj _ | VArr _ => true | _ => false end
  && negb (Reference.isOperatorQuery (Some v)).

(** The callback of an operation that goes from [w] to [w'] was not
    called, or was called once. *)
Definition atMostOnce (w w' : World) : Prop :=
  dones (events w') = dones (events w) \/
  exists r, dones (events w') = dones (events w) ++ [r].

(** ** More instances *)

Module Samples.

(** A validator that refuses a query on [$where]. *)
Definition noWhere (query : doc) : Validation :=
  match query !! "$where" with
  | Some _ => Fixtures.refused "$where"
  | None => Fixtures.accepted
  end.

(** Handlers that reject a draft and return anything else as it is. *)
Definition noDrafts (current : doc) : HookReturn :=
  if bool_decide (current !! "draft" = Some (VBool true))
  then HThrows (VStr "draft") else HValue current.

(** A composer that fails on a document with the field [broken], and
    leaves any other document as it is. *)
Definition fragile (d : doc) (ds : Datastore)
  : (value + doc) * Datastore * list DbCall :=
  match d !! "broken" with
  | Some _ => (inl (VStr "broken"), ds, [])
  | None => (inr d, ds, [])
  end.

(** [Fixtures.library] with these three in the place of its own. *)
Definition library : Library :=
  let base := Fixtures.library "_" in
  {| internalFieldsPrefix := internalFieldsPrefix base;
     Connection_db := Connection_db base;
     validate_query := fun _ query => noWhere query;
     validate_schema := validate_schema base;
     composer_compose := composer_compose base;
     composer_compose_immediate := composer_compose_immediate base;
     composer_createFromComposed := fun _ d ds => fragile d ds;
     composer_createFromComposed_immediate :=
       composer_createFromComposed_immediate base;
     hook_apply := fun _ _ _ current _ => noDrafts current;
     hook_formatError := hook_formatError base;
     queryUtils_makeCaseInsensitive := queryUtils_makeCaseInsensitive base;
     queryUtils_containsNestedReferenceFields :=
       queryUtils_containsNestedReferenceFields base;
     queryUtils_processReferenceFieldQuery :=
       queryUtils_processReferenceFieldQuery base;
     queryUtils_getSchemaOrParent := queryUtils_getSchemaOrParent base;
     queryUtils_convertDateTimeForSave :=
       queryUtils_convertDateTimeForSave base;
     regExp_test := regExp_test base |}.

End Samples.

(** * Properties *)

(** ** Result-set formatting *)

Section FormattingFacts.

Implicit Types (document acc : doc) (from to field : string).

Lemma lookup_setField key v (o : doc) p :
  setField key v o !! p
  = if decide (key = p /\ key <> "__proto__") then Some v else o !! p.
Proof.
  unfold setField. destruct (String.eqb_spec key "__proto__") as [->|Hne].
  - rewrite decide_False; [done|]. by intros [_ H].
  - destruct (decide (key = p)) as [->|Hp].
    + rewrite decide_True; [|done]. by rewrite lookup_insert_eq.
    + rewrite decide_False; [|by intros [H _]]. by rewrite lookup_insert_ne.
Qed.

Lemma lookup_setField_ne key v (o : doc) p :
  key <> p -> setField key v o !! p = o !! p.
Proof.
  intros Hne. rewrite lookup_setField, decide_False; [done|]. by intros [H _].
Qed.

Lemma lookup_setField_proto key v (o : doc) :
  o !! "__proto__" = None -> setField key v o !! "__proto__" = None.
Proof.
  intros Ho. rewrite lookup_setField, decide_False; [done|].
  by intros [-> H].
Qed.

(** A field that no key of [l] is renamed to is left alone by the loop. *)
Lemma formatField_fold_other from to document (l : list string) acc p :
  (forall k, k ∈ l -> property from to k <> p) ->
  foldl (formatField from to document) acc l !! p = acc !! p.
Proof.
  revert acc. induction l as [|k l IH]; intros acc Hout; [done|].
  simpl. rewrite IH; [|intros k' Hk'; apply Hout; by right].
  unfold formatField. destruct (document !! k) as [[]|]; try done.
  all: rewrite lookup_setField_ne; [done|]; apply Hout; by left.
Qed.

(** No field [__proto__] is made by the loop. *)
Lemma formatField_fold_proto from to document (l : list string) acc :
  acc !! "__proto__" = None ->
  foldl (formatField from to document) acc l !! "__proto__" = None.
Proof.
  revert acc. induction l as [|k l IH]; intros acc Hacc; [done|].
  simpl. apply IH. unfold formatField.
  destruct (document !! k) as [[]|]; try done.
  all: by apply lookup_setField_proto.
Qed.

(** A key of [l] whose new name is not shared is copied under that name,
    unless its value is null. *)
Lemma formatField_fold_key from to document (l : list string) acc k :
  NoDup l -> k ∈ l ->
  property from to k <> "__proto__" ->
  (forall k', k' ∈ l -> property from to k' = property from to k -> k' = k) ->
  foldl (formatField from to document) acc l !! property from to k
  = match document !! k ≫= nonNull with
    | Some v => Some v
    | None => acc !! property from to k
    end.
Proof.
  revert acc. induction l as [|a l IH]; intros acc Hnd Hin Hproto Hinj.
  { by apply elem_of_nil in Hin. }
  apply NoDup_cons in Hnd as [Hna Hnd]. simpl.
  destruct (decide (a = k)) as [->|Hne].
  - rewrite formatField_fold_other.
    + unfold formatField, nonNull.
      destruct (document !! k) as [[]|]; simpl; try done.
      all: by rewrite lookup_setField, decide_True.
    + intros k' Hk' Heq. apply Hinj in Heq; [by subst|by right].
  - apply elem_of_cons in Hin as [->|Hin]; [done|].
    rewrite IH; [|done|done|done|intros; apply Hinj; [by right|done]].
    destruct (document !! k ≫= nonNull); [done|].
    unfold formatField. destruct (document !! a) as [[]|]; try done.
    all: rewrite lookup_setField_ne; [done|].
    all: intros Heq; apply Hne, Hinj; [by left|done].
Qed.

Lemma formatField_fold_dom from to document (l : list string) acc k :
  k ∈ dom (foldl (formatField from to document) acc l) ->
  k ∈ dom acc \/
  exists k0, k0 ∈ l /\ k0 ∈ dom document /\ property from to k0 = k.
Proof.
  revert acc. induction l as [|a l IH]; intros acc; simpl; [by left|].
  intros [Hk|(k0 & Hk0 & Hd & Hp)]%IH.
  - unfold formatField in Hk.
    destruct (document !! a) as [v|] eqn:Ha; [|by left].
    assert (a ∈ dom document) by (apply elem_of_dom; eauto).
    assert (forall v, k ∈ dom (setField (property from to a) v acc) ->
              k ∈ dom acc \/ property from to a = k) as Hset.
    { intros v' [x Hx]%elem_of_dom. rewrite lookup_setField in Hx.
      destruct (decide _) as [[Heq _]|_]; [by right|].
      left. apply elem_of_dom. eauto. }
    destruct v; [by left|..].
    all: apply Hset in Hk as [Hk|Hk]; [by left|].
    all: right; exists a; split_and!; [by left|done|done].
  - right. exists k0. split_and!; [by right|done|done].
Qed.

Lemma sortedKeys_elem_of document k : k ∈ sortedKeys document <-> k ∈ dom document.
Proof.
  unfold sortedKeys. rewrite merge_sort_Permutation. apply elem_of_elements.
Qed.

Lemma sortedKeys_NoDup document : NoDup (sortedKeys document).
Proof.
  unfold sortedKeys. rewrite merge_sort_Permutation. apply NoDup_elements.
Qed.

Lemma formatDocument_lookup from to document k :
  property from to k <> "__proto__" ->
  (forall k', k' ∈ dom document ->
              property from to k' = property from to k -> k' = k) ->
  formatDocument from to document !! property from to k
  = document !! k ≫= nonNull.
Proof.
  intros Hproto Hinj. unfold formatDocument.
  destruct (decide (k ∈ dom document)) as [Hk|Hk].
  - rewrite formatField_fold_key.
    + by destruct (document !! k ≫= nonNull).
    + apply sortedKeys_NoDup.
    + by apply sortedKeys_elem_of.
    + done.
    + intros k' Hk'%sortedKeys_elem_of. by apply Hinj.
  - rewrite formatField_fold_other.
    + apply not_elem_of_dom in Hk. by rewrite Hk.
    + intros k' Hk'%sortedKeys_elem_of Heq.
      apply Hinj in Heq; [by subst|done].
Qed.

Lemma formatDocument_lookup_None from to document p :
  (forall k, k ∈ dom document -> property from to k <> p) ->
  formatDocument from to document !! p = None.
Proof.
  intros Hout. unfold formatDocument.
  rewrite formatField_fold_other; [done|].
  intros k Hk%sortedKeys_elem_of. by apply Hout.
Qed.

(** A formatted document has no field [__proto__]. *)
Lemma formatDocument_proto from to document :
  formatDocument from to document !! "__proto__" = None.
Proof. by apply formatField_fold_proto. Qed.

Lemma formatDocument_dom from to document k :
  k ∈ dom (formatDocument from to document) ->
  exists k0, k0 ∈ dom document /\ property from to k0 = k.
Proof.
  intros [Hk|(k0 & _ & Hd & Hp)]%formatField_fold_dom; [|by exists k0].
  by rewrite dom_empty in Hk.
Qed.

Lemma startsWith_char c k :
  startsWith (String c "") k = true <-> exists r, k = String c r.
Proof.
  unfold startsWith. destruct k as [|a r]; simpl.
  - split; [done|]. by intros [r Hr].
  - destruct (Ascii.ascii_dec c a) as [->|Hne].
    + split; [by exists r|]. by destruct r.
    + split; [done|]. intros [r' Hr']. congruence.
Qed.

Lemma property_prefixed c d r :
  property (String c "") (String d "") (String c r) = String d r.
Proof.
  unfold property.
  by rewrite (proj2 (startsWith_char c (String c r))); [|exists r].
Qed.

Lemma nonNull_idemp (o : option value) :
  (o ≫= nonNull) ≫= nonNull = o ≫= nonNull.
Proof.
  destruct o as [v|]; [|done]. simpl. unfold nonNull.
  destruct (decide (v = VNull)) as [|Hv]; simpl; [done|].
  by destruct (decide (v = VNull)).
Qed.

(** The round trip on one document, for a prefix of one character. *)
Lemma roundtrip_document c (x : doc) :
  (forall k, k ∈ dom x -> startsWith (String c "") k = true) ->
  x !! String c "_proto__" = None ->
  formatDocument "_" (String c "") (formatDocument (String c "") "_" x)
  = stripNulls x.
Proof.
  intros Hpre Hproto. apply map_eq; intros q.
  unfold stripNulls. rewrite lookup_omap.
  destruct (startsWith (String c "") q) eqn:Hq.
  - apply startsWith_char in Hq as [r ->].
    destruct (decide (r = "_proto__")) as [->|Hr].
    { rewrite Hproto. simpl. apply formatDocument_lookup_None.
      intros k (k0 & Hk0 & <-)%formatDocument_dom.
      pose proof Hk0 as [r0 ->]%Hpre%startsWith_char.
      rewrite !property_prefixed. intros [= ->].
      apply elem_of_dom in Hk0 as [v Hv]. congruence. }
    pose proof (formatDocument_lookup "_" (String c "")
                  (formatDocument (String c "") "_" x)
                  (String "_"%char r)) as Hout.
    rewrite property_prefixed in Hout. rewrite Hout.
    + pose proof (formatDocument_lookup (String c "") "_" x (String c r))
        as Hin.
      rewrite property_prefixed in Hin.
      rewrite Hin; [apply nonNull_idemp|congruence|].
      intros k' [r' ->]%Hpre%startsWith_char.
      rewrite !property_prefixed. congruence.
    + intros [= Hc Hr']. by subst.
    + intros k' (k0 & [r0 ->]%Hpre%startsWith_char & <-)%formatDocument_dom.
      rewrite !property_prefixed. congruence.
  - rewrite formatDocument_lookup_None.
    + destruct (x !! q) eqn:Hx; [|done].
      assert (q ∈ dom x) as Hd by (apply elem_of_dom; eauto).
      apply Hpre in Hd. congruence.
    + intros k (k0 & [r0 ->]%Hpre%startsWith_char & <-)%formatDocument_dom.
      rewrite !property_prefixed. intros <-.
      rewrite (proj2 (startsWith_char c (String c r0))) in Hq;
        [done|by exists r0].
Qed.

(** C9, as the code has it.  For a prefix of one character, as
    [formatResultSet] takes one character off a field name, and a result
    set whose fields all carry that prefix, none of them being the one
    that the formatting for input renames to [__proto__]: formatting for
    input and then for output gives back the result set without its
    null-valued fields. *)
Theorem formatResultSet_roundtrip (c : ascii) (x : ResultSet) :
  allPrefixed (String c "") x ->
  withoutField (String c "_proto__") x ->
  formatResultSetForOutput (String c "")
    (formatResultSetForInput (String c "") x) = stripNullsSet x.
Proof.
  destruct x as [d|ds]; simpl; intros Hpre Hproto.
  - f_equal. by apply roundtrip_document.
  - f_equal. rewrite map_map.
    induction Hpre as [|d ds Hd _ IH]; simpl; [done|].
    apply Forall_cons in Hproto as [Hp Hps].
    f_equal; [by apply roundtrip_document|by apply IH].
Qed.

Lemma formatResultSet_roundtrip_witness :
  let x := Multiple [ <["$id" := VStr "a"]> (<["$note" := VNull]> ∅);
                      <["$version" := VNum 3]> ∅ ] in
  allPrefixed "$" x /\
  withoutField "$_proto__" x /\
  formatResultSetForOutput "$" (formatResultSetForInput "$" x)
  = stripNullsSet x.
Proof.
  assert (Hx : allPrefixed "$"
                 (Multiple [ <["$id" := VStr "a"]> (<["$note" := VNull]> ∅);
                             <["$version" := VNum 3]> ∅ ])).
  { repeat constructor; intros k Hk; rewrite ?dom_insert_L, dom_empty_L in Hk;
      repeat (apply elem_of_union in Hk as [Hk|Hk]);
      try (apply elem_of_singleton in Hk as ->; reflexivity);
      by apply elem_of_empty in Hk. }
  assert (Hp : withoutField "$_proto__"
                 (Multiple [ <["$id" := VStr "a"]> (<["$note" := VNull]> ∅);
                             <["$version" := VNum 3]> ∅ ]))
    by (repeat constructor).
  intros x. split_and!; [exact Hx|exact Hp|].
  exact (formatResultSet_roundtrip "$"%char x Hx Hp).
Defined.

(** C9, as the claim has it, fails.  With a prefix of two characters the
    round trip gives every field a character more; and with the prefix
    of one character a field that the formatting renames to [__proto__]
    is lost. *)
Lemma formatResultSet_roundtrip_counterexample :
  let x : doc := <["__id" := VStr "a"]> ∅ in
  let y : doc := <["__proto__" := VStr "a"]> (<["_id" := VStr "b"]> ∅) in
  allPrefixed "__" (Single x) /\
  formatResultSetForOutput "__" (formatResultSetForInput "__" (Single x))
  = Single (<["___id" := VStr "a"]> ∅) /\
  allPrefixed "_" (Single y) /\
  formatResultSetForOutput "_" (formatResultSetForInput "_" (Single y))
  = Single (<["_id" := VStr "b"]> ∅).
Proof.
  intros x y. split_and!; [|by vm_compute| |by vm_compute].
  - intros k Hk. unfold x in Hk. rewrite dom_insert_L, dom_empty_L in Hk.
    apply elem_of_union in Hk as [Hk|Hk]; [|by apply elem_of_empty in Hk].
    by apply elem_of_singleton in Hk as ->.
  - intros k Hk. unfold y in Hk. rewrite !dom_insert_L, dom_empty_L in Hk.
    repeat (apply elem_of_union in Hk as [Hk|Hk]);
      try (by apply elem_of_singleton in Hk as ->).
    by apply elem_of_empty in Hk.
Qed.

End FormattingFacts.

(** ** [find] *)

Section FindFacts.

Variable lib : Library.

Lemma runFind_found (self : Model) query options w results metadata guarded
    w' :
  runFind lib self query options w
  = (Answers (inr (results, metadata)) guarded, w') ->
  exists stored,
    database_find (name self) query (o_fields options) w
    = (inr (stored, metadata), w') /\
    results = if default false (compose self)
              then composer_compose lib self stored w' else stored.
Proof.
  unfold runFind.
  destruct (database_find _ _ _ _) as [[message|[stored md]] w0].
  - intros; simplify_eq.
  - destruct (default false (compose self)) eqn:Hc; intros H;
      inversion H; subst; by eexists.
Qed.

Lemma findBody_model rf (self : Model) query options w :
  (findBody lib rf self query options w).1.2 = overrideCompose options self.
Proof.
  unfold findBody.
  repeat (case_match; simpl; try done).
Qed.

Lemma findOutcome_model depth (self : Model) query options w :
  (findOutcome lib depth self query options w).1.2
  = overrideCompose options self.
Proof. destruct depth; apply findBody_model. Qed.

(** [find] is [findOutcome] for a caller that catches nothing. *)
Lemma find_answers depth (self : Model) query options w reply self' w' :
  find lib depth self query options w = (Some reply, self', w') <->
  exists guarded,
    findOutcome lib depth self query options w
    = (Answers reply guarded, self', w').
Proof.
  unfold find.
  destruct (findOutcome lib depth self query options w)
    as [[[r g| |e] m] w0]; split.
  all: try (intros [g' H]; by simplify_eq).
  all: intros H; simplify_eq; eauto.
Qed.

Lemma find_model depth (self : Model) query options w :
  (find lib depth self query options w).1.2 = overrideCompose options self.
Proof.
  pose proof (findOutcome_model depth self query options w) as H.
  unfold find.
  by destruct (findOutcome lib depth self query options w)
    as [[[r g| |e] m] w0].
Qed.

Lemma findBody_found rf (self : Model) query options w results metadata
    guarded self' w' :
  findBody lib rf self query options w
  = (Answers (inr (results, metadata)) guarded, self', w') ->
  exists query' w0,
    runFind lib self' query' options w0
    = (Answers (inr (results, metadata)) guarded, w').
Proof.
  unfold findBody. intros H.
  repeat (case_match; simplify_eq; try done); eauto.
Qed.

End FindFacts.

Section ComposeOverride.

Variable lib : Library.

(** C10. A [find] whose options carry [compose] leaves that value in the
    [compose] property of the instance; a later [find] on the instance
    without the option keeps it and composes its results, or not, by that
    value, whatever the settings of the collection say. *)
Theorem find_compose_override_persists depth (self : Model) query options c w :
  o_compose options = Some c ->
  let '(_, self1, _) := find lib depth self query options w in
  compose self1 = Some c /\
  forall depth2 query2 options2 w2,
    o_compose options2 = None ->
    let '(reply2, self2, w3) := find lib depth2 self1 query2 options2 w2 in
    compose self2 = Some c /\
    forall results metadata,
      reply2 = Some (inr (results, metadata)) ->
      exists query' w0 stored,
        database_find (name self) query' (o_fields options2) w0
        = (inr (stored, metadata), w3) /\
        results = if c then composer_compose lib self2 stored w3 else stored.
Proof.
  intros Hc.
  pose proof (find_model lib depth self query options w) as Hm.
  destruct (find lib depth self query options w) as [[reply1 self1] w1].
  simpl in Hm. subst self1. unfold overrideCompose at 1. rewrite Hc.
  split; [done|]. intros depth2 query2 options2 w2 Hc2.
  pose proof (find_model lib depth2 (overrideCompose options self)
                query2 options2 w2) as Hm2.
  destruct (find lib depth2 _ query2 options2 w2) as [[reply2 self2] w3] eqn:Hf.
  simpl in Hm2. subst self2.
  unfold overrideCompose in *. rewrite Hc, Hc2 in *.
  split; [done|]. intros results metadata ->.
  apply find_answers in Hf as [guarded Hf].
  destruct depth2; simpl in Hf; apply findBody_found in Hf as (q' & w0 & Hf).
  all: apply runFind_found in Hf as (stored & Hdb & ->).
  all: exists q', w0, stored; by destruct c.
Qed.

End ComposeOverride.

Lemma find_compose_override_persists_witness :
  let configured :=
    {| s_database := None; s_compose := Some true; s_storeRevisions := None;
       s_revisionCollection := None; s_hooks := None; s_index := None |} in
  let options := {| o_compose := Some false; o_fields := [] |} in
  o_compose options = Some false /\
  (let '(_, self1, _) :=
     find (Fixtures.library "_") 1 (Fixtures.books true configured) ∅ options
       (Fixtures.world (Some (Fixtures.store []))) in
   compose self1 = Some false /\
   forall depth2 query2 options2 w2,
     o_compose options2 = None ->
     let '(reply2, self2, w3) :=
       find (Fixtures.library "_") depth2 self1 query2 options2 w2 in
     compose self2 = Some false /\
     forall results metadata,
       reply2 = Some (inr (results, metadata)) ->
       exists query' w0 stored,
         database_find (name (Fixtures.books true configured)) query'
           (o_fields options2) w0
         = (inr (stored, metadata), w3) /\
         results = if false
                   then composer_compose (Fixtures.library "_") self2 stored w3
                   else stored).
Proof.
  split; [reflexivity|].
  exact (find_compose_override_persists (Fixtures.library "_") 1
           (Fixtures.books true
              {| s_database := None; s_compose := Some true;
                 s_storeRevisions := None; s_revisionCollection := None;
                 s_hooks := None |})
           ∅ {| o_compose := Some false; o_fields := [] |} false
           (Fixtures.world (Some (Fixtures.store []))) eq_refl).
Defined.

(** ** Hook pipelines *)

Section HookFacts.

Variable lib : Library.

(** A pipeline whose first handlers hand values on stops at the handler
    that returns null, with an empty object as its error. *)
Lemma async_reduce_null type (self : Model) docs pre h post current current' n :
  async_reduce pre current (hookIteratee lib type self docs)
  = (None, current', n) ->
  hook_apply lib h type self current' docs = HNull ->
  async_reduce (pre ++ h :: post) current (hookIteratee lib type self docs)
  = (Some (VObj []), current', S n).
Proof.
  revert current n. induction pre as [|p pre IH]; intros current n; simpl.
  - intros [= <- <-] Hnull. unfold hookIteratee at 1. by rewrite Hnull.
  - destruct (hookIteratee lib type self docs current p) as [[err|] v];
      [done|].
    destruct (async_reduce pre v _) as [[err r] m] eqn:Hpre.
    intros [= -> -> <-] Hnull. by rewrite (IH _ _ Hpre Hnull).
Qed.

(** Of pipelines that all end with the same result, the one that ends
    last has that result. *)
Lemma lastToFinish_all {A} (chains : list (A * nat)) (a : A) :
  chains <> [] ->
  Forall (fun chain => chain.1 = a) chains ->
  lastToFinish chains = Some a.
Proof.
  intros Hne Hall. unfold lastToFinish.
  assert (forall best : option (A * nat),
            (best <> None \/ chains <> []) ->
            (forall c, best = Some c -> c.1 = a) ->
            fst <$> foldl (fun best chain =>
                             match best with
                             | Some (_, m) =>
                                 if (m <=? chain.2)%nat then Some chain else best
                             | None => Some chain
                             end) best chains = Some a) as Hgen.
  { clear Hne. induction Hall as [|chain chains Hchain _ IH]; intros best Hsome Hbest.
    - destruct Hsome as [Hsome|]; [|done].
      destruct best as [c|]; [|done]. simpl. f_equal. by apply Hbest.
    - simpl. apply IH.
      + left. destruct best as [[x m]|]; [|done].
        by destruct (m <=? chain.2)%nat.
      + intros c. destruct best as [[x m]|].
        * destruct (m <=? chain.2)%nat.
          -- by intros [= <-].
          -- apply Hbest.
        * by intros [= <-]. }
  apply Hgen; [by right|done].
Qed.

(** C5, as the code has it.  In the pipelines that run before a create,
    an update or a delete, a handler that returns null ends the pipeline
    with the empty object as its error: the handlers after it are not
    called, the insert, the update or the delete of the datastore is not
    issued, and the callback receives the error.  A create runs the
    pipeline for each document of the batch on its own: this is so when
    the handler returns null for every document of the batch. *)
Theorem hook_null_aborts (self : Model) pre h post n w :
  (forall documents,
      documents <> [] ->
      s_hooks (settings self) ≫= beforeCreate = Some (pre ++ h :: post) ->
      (forall document,
          document ∈ documents ->
          exists current,
            async_reduce pre document (hookIteratee lib "beforeCreate" self [])
            = (None, current, n) /\
            hook_apply lib h "beforeCreate" self current [] = HNull) ->
      (forall document,
          document ∈ documents ->
          exists current,
            async_reduce (pre ++ h :: post) document
              (hookIteratee lib "beforeCreate" self [])
            = (Some (VObj []), current, S n)) /\
      create_startInsert lib self documents w
      = emit (Done (inl (HookErrorResponse (VObj [])))) w) /\
  (forall depth query update current updatedDocs req bypass,
      s_hooks (settings self) ≫= beforeUpdate = Some (pre ++ h :: post) ->
      async_reduce pre update
        (hookIteratee lib "beforeUpdate" self updatedDocs)
      = (None, current, n) ->
      hook_apply lib h "beforeUpdate" self current updatedDocs = HNull ->
      async_reduce (pre ++ h :: post) update
        (hookIteratee lib "beforeUpdate" self updatedDocs)
      = (Some (VObj []), current, S n) /\
      update_beforeUpdate lib depth self query update updatedDocs req bypass w
      = emit (Done (inl (HookError (VObj [])))) w) /\
  (forall query current deletedDocs allDocs,
      s_hooks (settings self) ≫= beforeDelete = Some (pre ++ h :: post) ->
      async_reduce pre query
        (hookIteratee lib "beforeDelete" self deletedDocs)
      = (None, current, n) ->
      hook_apply lib h "beforeDelete" self current deletedDocs = HNull ->
      async_reduce (pre ++ h :: post) query
        (hookIteratee lib "beforeDelete" self deletedDocs)
      = (Some (VObj []), current, S n) /\
      delete_beforeDelete lib self query deletedDocs allDocs w
      = emit (Done (inl (HookError (VObj [])))) w).
Proof.
  split_and!.
  - intros documents Hne Hhooks Hnull.
    assert (forall document,
               document ∈ documents ->
               exists current,
                 async_reduce (pre ++ h :: post) document
                   (hookIteratee lib "beforeCreate" self [])
                 = (Some (VObj []), current, S n)) as Hred.
    { intros document Hin. destruct (Hnull document Hin) as (current & Hpre & Hh).
      exists current. by apply async_reduce_null. }
    split; [done|].
    unfold create_startInsert. rewrite Hhooks. cbv zeta.
    rewrite (lastToFinish_all _ (Some (VObj []))); [done| |].
    + by destruct documents.
    + apply Forall_fmap, Forall_forall. intros document Hin.
      destruct (Hred document Hin) as [current Heq].
      cbv beta delta [Basics.compose]. cbn [fst]. by rewrite Heq.
  - intros depth query update current updatedDocs req bypass Hhooks Hpre Hnull.
    pose proof (async_reduce_null _ _ _ _ _ post _ _ _ Hpre Hnull) as Hred.
    split; [done|].
    unfold update_beforeUpdate. by rewrite Hhooks, Hred.
  - intros query current deletedDocs allDocs Hhooks Hpre Hnull.
    pose proof (async_reduce_null _ _ _ _ _ post _ _ _ Hpre Hnull) as Hred.
    split; [done|].
    unfold delete_beforeDelete. by rewrite Hhooks, Hred.
Qed.

End HookFacts.

Lemma hook_null_aborts_witness :
  let lib := Fixtures.library "_" in
  let self :=
    Fixtures.books true
      (Fixtures.settingsWith None
         (Some (Fixtures.hooksBefore ["mark"; "veto"; "stamp"]))) in
  let w := Fixtures.world (Some (Fixtures.store [])) in
  let d : doc := <["name" := VStr "1984"]> ∅ in
  let d' : doc := <["name" := VStr "Animal Farm"]> ∅ in
  create_startInsert lib self [d; d'] w
  = emit (Done (inl (HookErrorResponse (VObj [])))) w /\
  update_beforeUpdate lib 1 self ∅ d [] None false w
  = emit (Done (inl (HookError (VObj [])))) w /\
  delete_beforeDelete lib self d [] {| totalCount := 0 |} w
  = emit (Done (inl (HookError (VObj [])))) w.
Proof.
  intros lib self w d d'.
  destruct (hook_null_aborts lib self ["mark"] "veto" ["stamp"] 1 w)
    as (Hcreate & Hupdate & Hdelete).
  split_and!.
  - refine (proj2 (Hcreate [d; d'] _ eq_refl _)).
    + intros Hnil. discriminate Hnil.
    + intros document Hin. exists (<["mark" := VBool true]> document).
      apply elem_of_cons in Hin as [->|Hin];
        [|apply elem_of_cons in Hin as [->|Hin]].
      * split; reflexivity.
      * split; reflexivity.
      * apply elem_of_nil in Hin. destruct Hin.
  - exact (proj2 (Hupdate 1 ∅ d (<["mark" := VBool true]> d) [] None false
                    eq_refl eq_refl eq_refl)).
  - exact (proj2 (Hdelete d (<["mark" := VBool true]> d) []
                    {| totalCount := 0 |} eq_refl eq_refl eq_refl)).
Defined.

(** C5, as the claim has it, fails: with the pipeline [veto; stamp] before a
    create, the handler after the one that returns null is not called
    (the reduction makes one call), no insert is issued and the callback
    receives an error. *)
Lemma hook_null_continues_counterexample :
  let lib := Fixtures.library "_" in
  let self :=
    Fixtures.books true
      (Fixtures.settingsWith None (Some (Fixtures.hooksBefore ["veto"; "stamp"]))) in
  let d : doc := <["name" := VStr "1984"]> ∅ in
  let w := create lib self [d] (Some ∅) (Fixtures.world (Some (Fixtures.store []))) in
  (async_reduce ["veto"; "stamp"]
     (<["_version" := VNum 1]> (<["_history" := VArr []]> d))
     (hookIteratee lib "beforeCreate" self [])).1.1 = Some (VObj []) /\
  (async_reduce ["veto"; "stamp"]
     (<["_version" := VNum 1]> (<["_history" := VArr []]> d))
     (hookIteratee lib "beforeCreate" self [])).2 = 1 /\
  calls (events w) = [] /\
  dones (events w) = [inl (HookErrorResponse (VObj []))].
Proof. vm_compute. done. Qed.

(** ** [create] *)

Section CreateFacts.

Variable lib : Library.

Implicit Types (self : Model) (documents : list doc).

Lemma create_validate_stays self documents v :
  success v = false ->
  foldl (fun validation doc =>
           match validation with
           | None => Some (validate_schema lib self doc false)
           | Some v =>
               if success v then Some (validate_schema lib self doc false)
               else validation
           end) (Some v) documents = Some v.
Proof.
  intros Hv. induction documents as [|doc documents IH]; simpl; [done|].
  by rewrite Hv.
Qed.

(** The validation that the loop ends with is the one of the first
    document that fails. *)
Lemma create_validate_fails self documents :
  Exists (fun doc => success (validate_schema lib self doc false) = false)
         documents ->
  exists doc, doc ∈ documents /\
    create_validate lib self documents
    = Some (validate_schema lib self doc false) /\
    success (validate_schema lib self doc false) = false.
Proof.
  unfold create_validate.
  assert (forall acc,
    (forall v, acc = Some v -> success v = true) ->
    Exists (fun doc => success (validate_schema lib self doc false) = false)
           documents ->
    exists doc, doc ∈ documents /\
      foldl (fun validation doc =>
           match validation with
           | None => Some (validate_schema lib self doc false)
           | Some v =>
               if success v then Some (validate_schema lib self doc false)
               else validation
           end) acc documents
      = Some (validate_schema lib self doc false) /\
      success (validate_schema lib self doc false) = false) as Hgen.
  { induction documents as [|doc documents IH]; intros acc Hacc Hex.
    { by apply Exists_nil in Hex. }
    simpl.
    assert (match acc with
            | None => Some (validate_schema lib self doc false)
            | Some v =>
                if success v then Some (validate_schema lib self doc false)
                else acc
            end = Some (validate_schema lib self doc false)) as ->.
    { destruct acc as [v|]; [|done]. by rewrite (Hacc v eq_refl). }
    destruct (success (validate_schema lib self doc false)) eqn:Hdoc.
    - apply Exists_cons in Hex as [Hex|Hex]; [congruence|].
      destruct (IH (Some (validate_schema lib self doc false))) as (d & Hd & Hf & Hs).
      { by intros v [= <-]. }
      { done. }
      exists d. split_and!; [by right|done|done].
    - exists doc. split_and!; [by left| |done].
      by apply create_validate_stays. }
  intros Hex. apply Hgen; [done|done].
Qed.

(** C3, as the code has it. With the datastore connected, a batch that
    has a document failing validation makes [create] hand a validation
    error with status 400 to the callback and do nothing else: no call of
    the datastore is made, so no document of the batch is inserted. *)
Theorem create_validation_failure self documents internals w ds :
  db w = Some ds ->
  Exists (fun doc => success (validate_schema lib self doc false) = false)
         documents ->
  exists doc,
    doc ∈ documents /\
    success (validate_schema lib self doc false) = false /\
    let err := ValidationError "Validation Failed"
                 (validate_schema lib self doc false) in
    create lib self documents internals w = emit (Done (inl err)) w /\
    statusCode err = Some 400%Z /\
    calls (events (create lib self documents internals w)) = calls (events w) /\
    db (create lib self documents internals w) = Some ds.
Proof.
  intros Hdb (doc & Hin & Hval & Hfail)%create_validate_fails.
  exists doc. split; [done|]. split; [done|]. cbv zeta.
  assert (create lib self documents internals w
          = emit (Done (inl (ValidationError "Validation Failed"
                               (validate_schema lib self doc false)))) w)
    as ->.
  { unfold create. by rewrite Hdb, Hval, Hfail. }
  split_and!; [done|done| |done].
  simpl. unfold calls. rewrite omap_app. simpl. by rewrite app_nil_r.
Qed.

End CreateFacts.

Lemma create_validation_failure_witness :
  let lib := Fixtures.library "_" in
  let self := Fixtures.books true (Fixtures.settingsWith None None) in
  let valid : doc := <["name" := VStr "1984"]> ∅ in
  let w := Fixtures.world (Some (Fixtures.store [])) in
  db w = Some (Fixtures.store []) /\
  success (validate_schema lib self ∅ false) = false /\
  exists doc,
    doc ∈ [valid; ∅; valid] /\
    success (validate_schema lib self doc false) = false /\
    let err := ValidationError "Validation Failed"
                 (validate_schema lib self doc false) in
    create lib self [valid; ∅; valid] (Some ∅) w = emit (Done (inl err)) w /\
    statusCode err = Some 400%Z /\
    calls (events (create lib self [valid; ∅; valid] (Some ∅) w))
    = calls (events w) /\
    db (create lib self [valid; ∅; valid] (Some ∅) w)
    = Some (Fixtures.store []).
Proof.
  intros lib self valid w.
  split; [reflexivity|]. split; [reflexivity|].
  apply (create_validation_failure lib self [valid; ∅; valid] (Some ∅) w
           (Fixtures.store [])).
  - reflexivity.
  - apply Exists_cons_tl, Exists_cons_hd. reflexivity.
Defined.

(** C3, as the claim has it, fails: without a connection to the datastore
    [create] answers a batch with a document that fails validation by the
    connection error, of status 503. *)
Lemma create_validation_failure_counterexample :
  let lib := Fixtures.library "_" in
  let self := Fixtures.books true (Fixtures.settingsWith None None) in
  success (validate_schema lib self ∅ false) = false /\
  dones (events (create lib self [∅] (Some ∅) (Fixtures.world None)))
  = [inl ConnectionError] /\
  statusCode ConnectionError = Some 503%Z.
Proof. vm_compute. done. Qed.

(** ** Reads and writes of the datastore *)

Section ReadonlyFacts.

Variable lib : Library.

Lemma readonly_refl w : readonly w w.
Proof. done. Qed.

Lemma readonly_trans w1 w2 w3 : readonly w1 w2 -> readonly w2 w3 -> readonly w1 w3.
Proof. intros [? ?] [? ?]. split; congruence. Qed.

Lemma mutations_emit e w :
  mutations (events (emit e w))
  = mutations (events w)
    ++ match e with
       | Call c => if mutating c then [c] else []
       | _ => []
       end.
Proof.
  unfold mutations, calls. simpl. rewrite omap_app, filter_app. f_equal.
  destruct e as [c| | | | | |]; simpl; try done.
  rewrite filter_cons, filter_nil. by destruct (mutating c).
Qed.

Lemma readonly_emit e w :
  match e with Call c => mutating c = false | _ => True end ->
  readonly w (emit e w).
Proof.
  intros He. split; [done|]. rewrite mutations_emit.
  destruct e as [c| | | | | |]; rewrite ?app_nil_r; try done.
  by rewrite He, app_nil_r.
Qed.

Lemma readonly_register m w : readonly w (register m w).
Proof. done. Qed.

Lemma database_find_readonly c query fields w :
  readonly w (database_find c query fields w).2.
Proof.
  unfold database_find.
  assert (readonly w (emit (Call (DbFind c query fields)) w)) as Hr
    by by apply readonly_emit.
  simpl. destruct (db w); [|done].
  by destruct (ds_find _ _ _ _).
Qed.

Lemma onlyFinds_refl w : onlyFinds w w.
Proof.
  split_and!; [done|done|]. exists []. by rewrite app_nil_r.
Qed.

Lemma onlyFinds_trans w1 w2 w3 :
  onlyFinds w1 w2 -> onlyFinds w2 w3 -> onlyFinds w1 w3.
Proof.
  intros (Hdb1 & Hm1 & es1 & He1 & Hf1) (Hdb2 & Hm2 & es2 & He2 & Hf2).
  split_and!; [congruence|by etrans|].
  exists (es1 ++ es2). rewrite He2, He1, <-app_assoc.
  split; [done|]. by apply Forall_app.
Qed.

Lemma onlyFinds_emit e w : findEvent e -> onlyFinds w (emit e w).
Proof.
  intros He. split_and!; [done|done|]. exists [e]. split; [done|].
  by constructor.
Qed.

Lemma onlyFinds_dones w w' :
  onlyFinds w w' -> dones (events w') = dones (events w).
Proof.
  intros (_ & _ & es & -> & Hes). unfold dones. rewrite omap_app.
  assert (omap (fun e => match e with Done r => Some r | _ => None end) es
          = []) as ->; [|by rewrite app_nil_r].
  induction Hes as [|e es He _ IH]; [done|].
  by destruct e as [[]| | | | | |].
Qed.

Lemma onlyFinds_mutations w w' :
  onlyFinds w w' -> mutations (events w') = mutations (events w).
Proof.
  intros (_ & _ & es & -> & Hes). unfold mutations, calls.
  rewrite omap_app, filter_app.
  assert (filter (fun c => mutating c = true)
            (omap (fun e => match e with Call c => Some c | _ => None end) es)
          = []) as ->; [|by rewrite app_nil_r].
  induction Hes as [|e es He _ IH]; [done|].
  by destruct e as [[]| | | | | |].
Qed.

Lemma onlyFinds_readonly w w' : onlyFinds w w' -> readonly w w'.
Proof.
  intros H. split; [apply H|by apply onlyFinds_mutations].
Qed.

Lemma onlyFinds_database_find c query fields w :
  onlyFinds w (database_find c query fields w).2.
Proof.
  unfold database_find.
  assert (onlyFinds w (emit (Call (DbFind c query fields)) w)) as Hr
    by by apply onlyFinds_emit.
  simpl. destruct (db w); [|done].
  by destruct (ds_find _ _ _ _).
Qed.

Lemma onlyFinds_runFind (self : Model) query options w :
  onlyFinds w (runFind lib self query options w).2.
Proof.
  unfold runFind.
  pose proof (onlyFinds_database_find (name self) query (o_fields options) w).
  destruct (database_find _ _ _ _) as [[message|[results md]] w0]; [done|].
  by destruct (default false _).
Qed.

Lemma onlyFinds_createIndex (self : Model) w :
  onlyFinds w (createIndex self w).
Proof.
  unfold createIndex, database_index.
  destruct (db w) as [ds|] eqn:Hdb; [|apply onlyFinds_refl].
  cbn [emit db]. rewrite Hdb. cbn [mbind option_bind].
  destruct (faults ds !! name self).
  - eapply onlyFinds_trans; by apply onlyFinds_emit.
  - by apply onlyFinds_emit.
Qed.

(** The constructor, called without a schema, keeps what the registry
    has under the name. *)
Lemma onlyFinds_Model_new collection given w :
  onlyFinds w (Model_new collection emptySchema given w).2.
Proof.
  unfold Model_new.
  match goal with
  | |- context [register ?m w] =>
      assert (onlyFinds w (register m w)) as Hregister; [|set (self := m) in *]
  end.
  { split_and!; [done| |exists []; by rewrite app_nil_r].
    simpl. destruct (models w !! collection) as [registered|] eqn:Hr.
    - by rewrite insert_id.
    - by apply insert_subseteq. }
  destruct (s_index _); [|done]. cbn [snd].
  eapply onlyFinds_trans; [done|].
  eapply onlyFinds_trans; apply onlyFinds_createIndex.
Qed.

(** What is found through a connection without its datastore. *)
Lemma onlyFinds_reconnected w w' :
  onlyFinds (disconnected w) w' -> onlyFinds w (reconnected (db w) w').
Proof. intros (_ & Hm & He). by split_and!. Qed.

Lemma onlyFinds_thrownIn turn e w : onlyFinds w (thrownIn turn e w).2.
Proof.
  destruct turn as [[]|]; simpl; try apply onlyFinds_refl.
  by apply onlyFinds_emit.
Qed.

Section Body.

Variable rf :
  Model -> doc -> FindOptions -> World -> FindOutcome * Model * World.
Hypothesis rf_onlyFinds : forall m q o w, onlyFinds w (rf m q o w).2.

Lemma onlyFinds_referenceLookup turn (self : Model) query key queryValue w :
  onlyFinds w (referenceLookup lib rf turn self query key queryValue w).2.
Proof.
  unfold referenceLookup.
  destruct (queryUtils_getSchemaOrParent _ _ _);
    [|apply onlyFinds_thrownIn].
  destruct (if bool_decide _ then _ else _) as [[linkKey queryKey] cq].
  match goal with
  | |- context [Connection_db lib ?d ?c w] =>
      destruct (Connection_db lib d c w)
  end.
  all: match goal with
       | |- context [Model_new ?c emptySchema ?s ?w0] =>
           pose proof (onlyFinds_Model_new c s w0) as H1;
           destruct (Model_new c emptySchema s w0) as [rm w1]
       end.
  all: simpl in H1.
  all: match goal with
       | |- context [rf ?m0 ?q ?o ?w0] =>
           pose proof (rf_onlyFinds m0 q o w0) as H2;
           destruct (rf m0 q o w0) as [[outcome m] w2]
       end.
  all: simpl in H2.
  1: assert (onlyFinds w w2) as H3 by by eapply onlyFinds_trans.
  2: assert (onlyFinds w (reconnected (db w) w2)) as H3
       by (apply onlyFinds_reconnected; by eapply onlyFinds_trans).
  all: destruct outcome as [[err|[results md]] guarded| |e];
    cbv beta iota.
  all: try done.
  all: try (eapply onlyFinds_trans; [done|]; apply onlyFinds_thrownIn).
  all: destruct (referenceCriteria _ _ _ _ _ _); [done|].
  all: eapply onlyFinds_trans; [done|]; apply onlyFinds_thrownIn.
Qed.

Lemma onlyFinds_referenceLookups turn (self : Model) query entries w :
  onlyFinds w (referenceLookups lib rf turn self query entries w).2.
Proof.
  revert turn query w.
  induction entries as [|[key v] entries IH]; intros turn query w.
  { apply onlyFinds_refl. }
  simpl.
  pose proof (onlyFinds_referenceLookup turn self query key v w) as H1.
  destruct (referenceLookup _ _ _ _ _ _ _ _) as [[q' g| | |] w1];
    simpl in *; try done.
  eapply onlyFinds_trans; [done|]. apply IH.
Qed.

Lemma onlyFinds_findBody (self : Model) query options w :
  onlyFinds w (findBody lib rf self query options w).2.
Proof.
  unfold findBody.
  destruct (negb _); [apply onlyFinds_refl|].
  destruct (db w) eqn:Hdb; [|apply onlyFinds_refl].
  destruct (queryUtils_containsNestedReferenceFields _ _ _).
  - destruct (queryUtils_processReferenceFieldQuery _ _ _) as [q0 entries].
    pose proof (onlyFinds_referenceLookups None
                  (overrideCompose options self) q0 entries w) as H1.
    destruct (referenceLookups _ _ _ _ _ _ _) as [[q' g|err| |e] w1];
      simpl in *; try done.
    pose proof (onlyFinds_runFind (overrideCompose options self) q'
                  options w1) as H2.
    destruct (runFind _ _ _ _ _) as [reply w2]. simpl in *.
    by eapply onlyFinds_trans.
  - pose proof (onlyFinds_runFind (overrideCompose options self)
                  (queryUtils_makeCaseInsensitive lib query (schema self))
                  options w) as H2.
    by destruct (runFind _ _ _ _ _) as [reply w2].
Qed.

End Body.

Lemma onlyFinds_findOutcome depth (self : Model) query options w :
  onlyFinds w (findOutcome lib depth self query options w).2.
Proof.
  revert self query options w.
  induction depth as [|depth IH]; intros self query options w; simpl.
  - apply onlyFinds_findBody. intros. apply onlyFinds_refl.
  - by apply onlyFinds_findBody.
Qed.

Lemma onlyFinds_find depth (self : Model) query options w :
  onlyFinds w (find lib depth self query options w).2.
Proof.
  pose proof (onlyFinds_findOutcome depth self query options w) as H.
  unfold find.
  destruct (findOutcome lib depth self query options w)
    as [[[r g| |e] m] w0]; simpl in *; try done.
  eapply onlyFinds_trans; [done|]. by apply onlyFinds_emit.
Qed.

(** [find] asks the datastore for nothing that changes a document. *)
Lemma find_readonly depth (self : Model) query options w :
  readonly w (find lib depth self query options w).2.
Proof. apply onlyFinds_readonly, onlyFinds_find. Qed.

Lemma findOutcome_readonly depth (self : Model) query options w :
  readonly w (findOutcome lib depth self query options w).2.
Proof. apply onlyFinds_readonly, onlyFinds_findOutcome. Qed.

End ReadonlyFacts.

(** ** The datastore *)

Section DatastoreFacts.

Lemma collectionOf_setCollection ds c docs c' :
  collectionOf (setCollection ds c docs) c'
  = if decide (c = c') then docs else collectionOf ds c'.
Proof.
  unfold collectionOf, setCollection. simpl.
  destruct (decide (c = c')) as [->|Hne].
  - by rewrite lookup_insert_eq.
  - by rewrite lookup_insert_ne.
Qed.

(** The documents that a query selects in a collection. *)
Lemma elem_of_selected query (docs : gmap string doc) d :
  d ∈ filter (fun d => matches query d = true) (map_to_list docs).*2
  <-> matches query d = true /\ exists id, docs !! id = Some d.
Proof.
  rewrite list_elem_of_filter, list_elem_of_fmap. split.
  - intros [Hm [[id d'] [-> Hin%elem_of_map_to_list]]]. eauto.
  - intros [Hm [id Hid]]. split; [done|]. exists (id, d).
    split; [done|]. by apply elem_of_map_to_list.
Qed.

(** An update that matches no document leaves every collection as it is. *)
Lemma ds_update_unmatched ds c query u ds' :
  ds_update ds c query u = inr (0, ds') ->
  forall c', collectionOf ds' c' = collectionOf ds c'.
Proof.
  unfold ds_update. destruct (faults ds !! c); [done|].
  intros [= Hlen <-] c'. rewrite collectionOf_setCollection.
  destruct (decide (c = c')) as [<-|]; [|done].
  apply length_zero_iff_nil in Hlen.
  apply map_eq; intros id. rewrite lookup_fmap.
  destruct (collectionOf ds c !! id) as [d|] eqn:Hd; [|done]. simpl.
  destruct (matches query d) eqn:Hm; [|done].
  assert (d ∈ filter (fun d => matches query d = true)
                (map_to_list (collectionOf ds c)).*2) as Hin
    by (apply elem_of_selected; eauto).
  rewrite Hlen in Hin. by apply elem_of_nil in Hin.
Qed.

Lemma database_update_unmatched c query u w w' :
  database_update c query u w = (inr 0, w') ->
  events w' = events w ++ [Call (DbUpdate c query u)] /\
  models w' = models w /\
  forall c', documentsOf w' c' = documentsOf w c'.
Proof.
  unfold database_update. simpl.
  destruct (db w) as [ds|] eqn:Hdb; [|done].
  destruct (ds_update ds c query u) as [message|[n ds']] eqn:Hu; [done|].
  intros [= -> <-]. split_and!; [done|done|].
  intros c'. unfold documentsOf. simpl. rewrite Hdb. simpl.
  by eapply ds_update_unmatched.
Qed.

End DatastoreFacts.

(** ** Failures of the history write *)

Section HistoryFailureFacts.

Variable lib : Library.

(** In [update], a rejected history write is logged and nothing else
    happens: the callback is not called. *)
Lemma update_history_failure depth (self : Model) query payload updatedDocs
    req bypass w matchedCount w1 err w2 :
  history self = true ->
  database_update (name self) query
    {| u_set := payload; u_inc := [("_version", 1%Z)]; u_push := [] |} w
  = (inr matchedCount, w1) ->
  isRestIDQuery req && (matchedCount =? 0)%nat = false ->
  History_createEach updatedDocs "update" self w1 = (Some err, w2) ->
  update_saveDocuments lib depth self query payload updatedDocs req bypass w
  = emit (Log err) w2.
Proof.
  intros Hh Hu Hrest Hc. unfold update_saveDocuments.
  by rewrite Hu, Hrest, Hh, Hc.
Qed.

(** In [delete], it is logged and handed to the callback. *)
Lemma delete_history_failure depth (self : Model) query req w ds
    allDocs total self1 w1 deletedDocs matched self2 w2 err w3 :
  success (validate_query lib self query) = true ->
  db w = Some ds ->
  find lib depth self ∅ {| o_compose := Some false; o_fields := [] |} w
  = (Some (inr (allDocs, total)), self1, w1) ->
  find lib depth self1 (formatQuery (internalFieldsPrefix lib) query)
    {| o_compose := Some false; o_fields := [] |} w1
  = (Some (inr (deletedDocs, matched)), self2, w2) ->
  deletedDocs <> [] ->
  history self2 = true ->
  History_createEach deletedDocs "delete" self2 w2 = (Some err, w3) ->
  delete lib depth self query req w
  = emit (Done (inl err)) (emit (Log err) w3).
Proof.
  intros Hq Hdb Hall Hfind Hne Hh Hc. unfold delete.
  apply find_answers in Hall as [g1 Hall].
  apply find_answers in Hfind as [g2 Hfind].
  rewrite Hq, Hdb. simpl. rewrite Hall, Hfind, Hh.
  destruct deletedDocs as [|d rest]; [done|].
  rewrite andb_false_r. simpl (0 <? _)%nat. simpl andb. by rewrite Hc.
Qed.

End HistoryFailureFacts.

(** C6. The code does not do for [update] what the claim says. On a
    collection with revisions, whose revision collection rejects writes,
    an update of the book [id] changes the stored book, logs the rejection
    and never calls the callback; the delete of the same book logs the
    rejection and hands it to the callback. *)
Theorem update_history_failure_unreported :
  let lib := Fixtures.library "_" in
  let self :=
    Fixtures.withSearcher (Fixtures.books true (Fixtures.settingsWith None None)) in
  let ds :=
    Fixtures.broken
      (Fixtures.store [("books", [("id", Fixtures.book "id" "1984" 1)])])
      "booksHistory" "write failed" in
  let query : doc := <["_id" := VStr "id"]> ∅ in
  let payload : doc := <["name" := VStr "Animal Farm"]> ∅ in
  let updated :=
    update lib 1 self query payload (Some ∅) (Fixtures.withId "id") false
      (Fixtures.world (Some ds)) in
  let deleted :=
    delete lib 1 self query (Fixtures.withId "id") (Fixtures.world (Some ds)) in
  history self = true /\
  logged (events updated) = [DatastoreError "write failed"] /\
  dones (events updated) = [] /\
  documentsOf updated "books" !! "id"
  = Some (Fixtures.book "id" "Animal Farm" 2) /\
  logged (events deleted) = [DatastoreError "write failed"] /\
  dones (events deleted) = [inl (DatastoreError "write failed")].
Proof. intros. split_and!; vm_compute; reflexivity. Qed.

(** ** The query hook of reference fields *)

(** The models of [books], [authors] and [countries]: a book refers to an
    author, an author to a country. *)
Lemma chain_of_three_models :
  let root :=
    {| Reference.fm_name := "books";
       Reference.fm_fields := <["author" := Fixtures.reference "authors" true]> ∅ |} in
  let authors :=
    {| Reference.fm_name := "authors";
       Reference.fm_fields := <["country" := Fixtures.reference "countries" true]> ∅ |} in
  let countries :=
    {| Reference.fm_name := "countries"; Reference.fm_fields := ∅ |} in
  let foreign (collection : string) :=
    if String.eqb collection "authors" then Some authors
    else if String.eqb collection "countries" then Some countries
    else None in
  Reference.createModelChain foreign root ["author"; "country"; "name"]
  = Reference.Resolved (Some [Some root; Some authors; Some countries]).
Proof. intros. vm_compute. reflexivity. Qed.

(** C8. The code does not do what the claim says. For the query
    [author.country.name = Atlantis] on books, with no such country, the
    find on [countries] returns nothing; the find on [authors], one level
    up the path, is issued all the same, with a [$containsAny] over no
    identifier. *)
Theorem empty_lookup_not_short_circuited :
  let root :=
    {| Reference.fm_name := "books";
       Reference.fm_fields := <["author" := Fixtures.reference "authors" true]> ∅ |} in
  let authors :=
    {| Reference.fm_name := "authors";
       Reference.fm_fields := <["country" := Fixtures.reference "countries" true]> ∅ |} in
  let countries :=
    {| Reference.fm_name := "countries"; Reference.fm_fields := ∅ |} in
  let foreign (collection : string) :=
    if String.eqb collection "authors" then Some authors
    else if String.eqb collection "countries" then Some countries
    else None in
  let ds :=
    Fixtures.store
      [("countries", [("c1", <["_id" := VStr "c1"]> (<["name" := VStr "Russia"]> ∅))]);
       ("authors", [("a1", <["_id" := VStr "a1"]>
                             (<["country" := VArr [VStr "c1"]]> ∅))])] in
  let input := [("author.country.name", VStr "Atlantis")] in
  let '(outcome, w) :=
    Reference.beforeQuery foreign root "author.country.name" input
      (Fixtures.world (Some ds)) in
  Reference.inputTree input
  = [("author", VObj [("country", VObj [("name", VStr "Atlantis")])])] /\
  ds_find ds "countries" (<["name" := VStr "Atlantis"]> ∅) [] = inr [] /\
  calls (events w)
  = [DbFind "countries" (<["name" := VStr "Atlantis"]> ∅) [];
     DbFind "authors"
       (<["country" := VObj [("$containsAny", VArr [])]]> ∅) []] /\
  outcome
  = Reference.Resolved (VObj [("author", VObj [("$containsAny", VArr [])])]).
Proof. intros. vm_compute. split_and!; reflexivity. Qed.


(** ** The documents that [create] returns *)

Section CreateResultFacts.

Variable lib : Library.

Implicit Types (self : Model) (documents : list doc) (d : doc).

Lemma property_default k : property "_" "_" k = k.
Proof.
  unfold property. destruct (startsWith "_" k) eqn:Hk; [|done].
  by apply startsWith_char in Hk as [r ->].
Qed.

(** With the default prefix the formatting for output strips the null
    values, and a field [__proto__], which the document that it makes
    does not get; it does nothing else. *)
Lemma formatDocument_default d :
  formatDocument "_" "_" d = base.delete "__proto__" (stripNulls d).
Proof.
  apply map_eq; intros k.
  destruct (decide (k = "__proto__")) as [->|Hk].
  { by rewrite formatDocument_proto, lookup_delete_eq. }
  rewrite lookup_delete_ne; [|done].
  unfold stripNulls. rewrite lookup_omap.
  rewrite <-(property_default k) at 1. apply formatDocument_lookup.
  - by rewrite property_default.
  - intros k' _. by rewrite !property_default.
Qed.

Lemma sameManaged_refl d : sameManaged d d.
Proof. done. Qed.

Lemma initialised_sameManaged self documents internals d d' :
  sameManaged d d' ->
  initialised self documents internals d ->
  initialised self documents internals d'.
Proof. intros [Hv Hh]. unfold initialised. by rewrite Hv, Hh. Qed.

Lemma initialised_id self documents internals d id :
  initialised self documents internals d ->
  initialised self documents internals (<["_id" := VStr id]> d).
Proof.
  apply initialised_sameManaged. by split; rewrite lookup_insert_ne.
Qed.

Lemma initialised_stripNulls self documents internals d :
  initialised self documents internals d ->
  initialised self documents internals
    (base.delete "__proto__" (stripNulls d)).
Proof.
  intros (Hv & Hh & Hn). unfold initialised, stripNulls.
  rewrite !lookup_delete_ne by done.
  rewrite !lookup_omap, Hv. split_and!; [done| |].
  - intros H. by rewrite (Hh H).
  - intros H1 H2 H3. by rewrite (Hn H1 H2 H3).
Qed.

(** The documents that [create] hands to the insert. *)
Lemma create_prepare_initialised self documents internals :
  (forall d, sameManaged d
               (queryUtils_convertDateTimeForSave lib (schema self) d)) ->
  Forall (initialised self documents internals)
         (create_prepare lib self documents internals).
Proof.
  intros Hdates. unfold create_prepare.
  rewrite Forall_fmap, Forall_fmap.
  apply Forall_forall. intros d Hd. simpl.
  apply (initialised_sameManaged _ _ _ _ _ (Hdates _)).
  unfold initialised. rewrite lookup_insert_eq, lookup_insert_ne; [|done].
  split; [done|].
  destruct (history self) eqn:Hh.
  - apply list_elem_of_fmap in Hd as [d0 [-> _]].
    rewrite lookup_insert_eq. by split.
  - split; [done|]. intros _ Hdocs Hint.
    destruct internals as [i|].
    + apply list_elem_of_fmap in Hd as [d0 [-> Hd0]].
      rewrite lookup_union, (Hint i eq_refl), (Hdocs d0 Hd0). done.
    + by apply Hdocs.
Qed.

Lemma insertOne_fold (data : list doc) acc (docs : gmap string doc) :
  exists new,
    (foldl (fun '(results, docs) d =>
              let '(stored, docs') := insertOne docs d in
              (results ++ [stored], docs'))
           (acc, docs) data).1 = acc ++ new /\
    Forall2 (fun d r => exists id, r = <["_id" := VStr id]> d) data new.
Proof.
  revert acc docs. induction data as [|d data IH]; intros acc docs.
  - exists []. simpl. by rewrite app_nil_r.
  - cbn [foldl]. unfold insertOne at 2. cbv zeta.
    destruct (IH (acc ++ [<["_id" := VStr (fresh_string "id" docs)]> d])
                (<[fresh_string "id" docs :=
                     <["_id" := VStr (fresh_string "id" docs)]> d]> docs))
      as (new & Hnew & Hall).
    exists (<["_id" := VStr (fresh_string "id" docs)]> d :: new).
    split; [by rewrite Hnew, <-app_assoc|].
    constructor; [by eexists|done].
Qed.

Lemma database_insert_results c data w results w' :
  database_insert c data w = (inr results, w') ->
  Forall2 (fun d r => exists id, r = <["_id" := VStr id]> d) data results.
Proof.
  unfold database_insert. simpl.
  destruct (db w) as [ds|]; [|done].
  unfold ds_insert. destruct (faults ds !! c); [done|].
  destruct (insertOne_fold data [] (collectionOf ds c)) as (new & Hnew & Hall).
  destruct (foldl _ _ data) as [res docs]. simpl in Hnew. subst res.
  by intros [= <- <-].
Qed.

Lemma Forall_transfer {A} (P : A -> Prop) (R : A -> A -> Prop) l l' :
  (forall x y, P x -> R x y -> P y) ->
  Forall P l -> Forall2 R l l' -> Forall P l'.
Proof.
  intros Hstep Hl Hll. induction Hll as [|x y l l' Hxy _ IH]; [done|].
  apply Forall_cons in Hl as [Hx Hl]. constructor; eauto.
Qed.

Lemma dones_emit e w :
  dones (events (emit e w))
  = dones (events w) ++ match e with Done r => [r] | _ => [] end.
Proof.
  unfold dones. simpl. rewrite omap_app. f_equal. by destruct e.
Qed.

Lemma dones_applyAfterHooks hooks w :
  dones (events (applyAfterHooks hooks w)) = dones (events w).
Proof.
  unfold applyAfterHooks. revert w.
  induction (default [] hooks) as [|h hs IH]; intros w; simpl; [done|].
  by rewrite IH, dones_emit, app_nil_r.
Qed.

Lemma database_insert_dones c data w :
  dones (events (database_insert c data w).2) = dones (events w).
Proof.
  unfold database_insert.
  pose proof (dones_emit (Call (DbInsert c data)) w) as He.
  rewrite app_nil_r in He. simpl.
  destruct (db w) as [ds|]; [|done].
  by destruct (ds_insert ds c data) as [message|[results ds']].
Qed.

Lemma createdAll_error old P replies err :
  createdAll old P replies -> createdAll old P (replies ++ [inl err]).
Proof.
  intros H results [Hin|Hin]%elem_of_app; [by apply H|].
  by apply list_elem_of_singleton in Hin.
Qed.

Lemma createFromComposed_dones self d w r w' :
  createFromComposed lib self d w = (r, w') ->
  dones (events w') = dones (events w).
Proof.
  unfold createFromComposed. destruct (db w) as [ds|]; [|by intros [= _ <-]].
  destruct (composer_createFromComposed lib self d ds) as [[result ds'] made].
  intros [= _ <-]. simpl. unfold dones. rewrite omap_app.
  rewrite <-(app_nil_r (omap _ (events w))) at 2. f_equal.
  by induction made.
Qed.

Lemma createFromComposed_sameManaged self d w d' w' :
  (forall d ds d' ds' made,
      composer_createFromComposed lib self d ds = (inr d', ds', made) ->
      sameManaged d d') ->
  createFromComposed lib self d w = (inr d', w') ->
  sameManaged d d'.
Proof.
  intros Hc. unfold createFromComposed. destruct (db w) as [ds|]; [|done].
  destruct (composer_createFromComposed lib self d ds)
    as [[result ds'] made] eqn:Heq.
  intros [= -> _]. by eapply Hc.
Qed.

Section Stages.

Variables (self : Model) (batch : list doc) (internals : option doc).

Hypothesis default_prefix : internalFieldsPrefix lib = "_".
Hypothesis composed_same :
  forall d ds d' ds' made,
    composer_createFromComposed lib self d ds = (inr d', ds', made) ->
    sameManaged d d'.
Hypothesis compose_same :
  forall docs w, Forall2 sameManaged docs (composer_compose lib self docs w).

Variable old : list (Err + Result).

Local Abbreviation P := (initialised self batch internals).

Lemma afterCreate_dones (results : list doc) w :
  dones (events
           (foldl (fun w _ =>
                     applyAfterHooks (s_hooks (settings self) ≫= afterCreate) w)
                  w results))
  = dones (events w).
Proof.
  revert w. induction results as [|d results IH]; intros w; simpl; [done|].
  by rewrite IH, dones_applyAfterHooks.
Qed.

Lemma create_saveDocuments_created documents w :
  Forall P documents ->
  createdAll old P (dones (events w)) ->
  createdAll old P (dones (events (create_saveDocuments lib self documents w))).
Proof.
  intros Hdocs Hw. unfold create_saveDocuments.
  pose proof (database_insert_dones (name self) documents w) as Hsame.
  destruct (database_insert (name self) documents w)
    as [[message|results] w1] eqn:Hinsert; simpl in Hsame.
  - destruct (String.eqb message "DB_DISCONNECTED");
      rewrite dones_emit, Hsame; by apply createdAll_error.
  - apply database_insert_results in Hinsert.
    rewrite dones_emit, afterCreate_dones, dones_emit, app_nil_r, Hsame.
    intros rs [Hin|Hin]%elem_of_app; [by apply Hw|].
    apply list_elem_of_singleton in Hin. injection Hin as ->. right.
    rewrite default_prefix. unfold formatDocsForOutput.
    rewrite Forall_fmap. eapply Forall_impl.
    + eapply Forall_transfer; [|eapply Forall_transfer; [|exact Hdocs|exact Hinsert]|
                                exact (compose_same results w1)].
      * intros x y Hx Hxy. exact (initialised_sameManaged _ _ _ _ _ Hxy Hx).
      * intros x y Hx [id ->]. by apply initialised_id.
    + intros d Hd. simpl. rewrite formatDocument_default.
      by apply initialised_stripNulls.
Qed.

Lemma create_startInsert_created documents w :
  Forall P documents ->
  createdAll old P (dones (events w)) ->
  createdAll old P (dones (events (create_startInsert lib self documents w))).
Proof.
  intros Hdocs Hw. unfold create_startInsert.
  destruct (s_hooks (settings self) ≫= beforeCreate) as [hooks|].
  - destruct (lastToFinish _) as [[err|]|].
    + rewrite dones_emit. by apply createdAll_error.
    + by apply create_saveDocuments_created.
    + done.
  - by apply create_saveDocuments_created.
Qed.

Lemma create_fromComposed_created processed remaining w :
  Forall P processed ->
  Forall P remaining ->
  createdAll old P (dones (events w)) ->
  createdAll old P
    (dones (events (create_fromComposed lib self processed remaining w))).
Proof.
  revert processed w.
  induction remaining as [|d remaining IH]; intros processed w Hp Hr Hw;
    simpl; [done|].
  apply Forall_cons in Hr as [Hd Hr].
  destruct (createFromComposed lib self d w) as [[json|d'] w1] eqn:Hc.
  - apply IH; [apply Forall_app; by split; [|constructor]|done|].
    rewrite dones_emit, (createFromComposed_dones _ _ _ _ _ Hc).
    by apply createdAll_error.
  - assert (P d') as Hd'.
    { eapply initialised_sameManaged; [|exact Hd].
      by eapply createFromComposed_sameManaged. }
    assert (Forall P (processed ++ [d'])) as Hp'.
    { apply Forall_app. by split; [|constructor]. }
    assert (createdAll old P (dones (events w1))) as Hw1.
    { by rewrite (createFromComposed_dones _ _ _ _ _ Hc). }
    destruct remaining as [|d2 remaining].
    + by apply create_startInsert_created.
    + by apply IH.
Qed.

End Stages.


End CreateResultFacts.




(** ** Versions and revisions *)

Section DatastoreWrites.

Implicit Types (ds : Datastore) (d : doc) (w : World).

Lemma matches_id (v : value) d :
  matches (<["_id" := v]> ∅) d = condMatches v (d !! "_id").
Proof.
  unfold matches.
  destruct (condMatches v (d !! "_id")) eqn:Hc.
  - apply bool_decide_eq_true. apply map_Forall_insert; [done|].
    split; [done|]. apply map_Forall_empty.
  - apply bool_decide_eq_false. intros H.
    apply map_Forall_insert in H as [H _]; [|done]. congruence.
Qed.

Lemma matches_id_string id d :
  matches (<["_id" := VStr id]> ∅) d = bool_decide (d !! "_id" = Some (VStr id)).
Proof. by rewrite matches_id. Qed.

(** The update that [saveDocuments] asks for, on a document. *)
Lemma applyUpdate_version payload d :
  applyUpdate {| u_set := payload; u_inc := [("_version", 1%Z)]; u_push := [] |} d
  = <["_version" := VNum (numberOf ((payload ∪ d) !! "_version") + 1)]> (payload ∪ d).
Proof. done. Qed.

(** The update that the history asks for, on a document. *)
Lemma applyUpdate_history (revisionId : string) d :
  applyUpdate {| u_set := ∅; u_inc := [];
                 u_push := [("_history", VStr revisionId)] |} d
  = <["_history" := VArr (arrayOf (d !! "_history") ++ [VStr revisionId])]> d.
Proof. unfold applyUpdate. simpl. by rewrite (left_id_L ∅ (∪)). Qed.

Lemma database_update_ok c query u w ds :
  db w = Some ds ->
  faults ds !! c = None ->
  database_update c query u w
  = (inr (length (selected ds c query)),
     setDb (setCollection ds c
              ((fun d => if matches query d then applyUpdate u d else d)
                 <$> collectionOf ds c))
           (emit (Call (DbUpdate c query u)) w)).
Proof.
  intros Hdb Hf. unfold database_update, ds_update. simpl.
  by rewrite Hdb, Hf.
Qed.

Lemma database_insert_one c d w ds :
  db w = Some ds ->
  faults ds !! c = None ->
  let id := fresh_string "id" (collectionOf ds c) in
  database_insert c [d] w
  = (inr [<["_id" := VStr id]> d],
     setDb (setCollection ds c
              (<[id := <["_id" := VStr id]> d]> (collectionOf ds c)))
           (emit (Call (DbInsert c [d])) w)).
Proof.
  intros Hdb Hf. unfold database_insert, ds_insert. simpl.
  by rewrite Hdb, Hf.
Qed.

Lemma snapshotOf_revision kind (id : string) d :
  snapshotOf (<["_id" := VStr id]> (revisionRecord kind d)) = Some d.
Proof.
  unfold snapshotOf, revisionRecord.
  rewrite lookup_insert_ne, lookup_insert_ne, lookup_insert_eq; [|done|done].
  by rewrite list_to_map_to_list.
Qed.

End DatastoreWrites.

Section HistoryFacts.

Variables (kind : string) (model : Model) (rc : string).

Hypothesis model_revisions : revisionCollection model = Some rc.
Hypothesis model_distinct : rc <> name model.

Implicit Types (ds : Datastore) (d : doc) (w : World) (objs : list doc).

(** The history write of [objs], snapshots with identifiers of their own,
    on a datastore that takes the writes: each live document gets the
    identifier of a new revision at the end of its history, and that
    revision holds the snapshot. *)
Lemma History_createEach_ok objs : forall w ds,
  db w = Some ds ->
  faults ds !! name model = None ->
  faults ds !! rc = None ->
  (forall id d, collectionOf ds (name model) !! id = Some d ->
                d !! "_id" = Some (VStr id)) ->
  NoDup ((fun o : doc => o !! "_id") <$> objs) ->
  Forall (fun o : doc => exists id, o !! "_id" = Some (VStr id)) objs ->
  exists w' ds',
    History_createEach objs kind model w = (None, w') /\
    db w' = Some ds' /\
    faults ds' = faults ds /\
    (forall rid rev, collectionOf ds rc !! rid = Some rev ->
                     collectionOf ds' rc !! rid = Some rev) /\
    (forall id d,
        collectionOf ds (name model) !! id = Some d ->
        (Some (VStr id) ∉ (fun o : doc => o !! "_id") <$> objs ->
         collectionOf ds' (name model) !! id = Some d) /\
        (forall s, s ∈ objs -> s !! "_id" = Some (VStr id) ->
           exists rid rev,
             collectionOf ds' (name model) !! id
             = Some (<["_history" :=
                         VArr (arrayOf (d !! "_history") ++ [VStr rid])]> d) /\
             collectionOf ds rc !! rid = None /\
             collectionOf ds' rc !! rid = Some rev /\
             snapshotOf rev = Some s)).
Proof.
  induction objs as [|o objs IH]; intros w ds Hdb Hlive Hrev Hstored Hnd Hids.
  { exists w, ds. split_and!; try done.
    intros id d Hd. split; [done|]. intros s Hs. by apply elem_of_nil in Hs. }
  apply Forall_cons in Hids as [[ido Hido] Hids].
  rewrite fmap_cons in Hnd. apply NoDup_cons in Hnd as [Hfirst Hnd].
  remember (fresh_string "id" (collectionOf ds rc)) as rid eqn:Hrid.
  assert (collectionOf ds rc !! rid = None) as Hfresh
    by (subst rid; apply fresh_string_fresh).
  set (stored := <["_id" := VStr rid]> (revisionRecord kind o)).
  set (ds1 := setCollection ds rc (<[rid := stored]> (collectionOf ds rc))).
  set (w1 := setDb ds1 (emit (Call (DbInsert rc [revisionRecord kind o])) w)).
  set (push := {| u_set := ∅; u_inc := [];
                  u_push := [("_history", VStr rid)] |}).
  set (step := fun d : doc =>
                 if matches (<["_id" := VStr ido]> ∅) d
                 then applyUpdate push d else d).
  set (ds2 := setCollection ds1 (name model)
                (step <$> collectionOf ds1 (name model))).
  set (w2 := setDb ds2
               (emit (Call (DbUpdate (name model) (<["_id" := VStr ido]> ∅) push))
                  w1)).
  assert (collectionOf ds1 (name model) = collectionOf ds (name model)) as Hlive1.
  { unfold ds1. rewrite collectionOf_setCollection. by rewrite decide_False. }
  assert (History_createEach (o :: objs) kind model w
          = History_createEach objs kind model w2) as Hstep.
  { cbn [History_createEach]. rewrite model_revisions.
    change (default "" (Some rc)) with rc.
    rewrite (database_insert_one rc (revisionRecord kind o) w ds Hdb Hrev).
    cbv zeta. rewrite <-Hrid. fold stored ds1 w1.
    change (head [stored] ≫= idString) with (stored !! "_id" ≫= toString).
    unfold stored at 1. rewrite lookup_insert_eq.
    change (Some (VStr rid) ≫= toString) with (Some rid).
    rewrite Hido. change (default VNull (Some (VStr ido))) with (VStr ido).
    rewrite (database_update_ok (name model) (<["_id" := VStr ido]> ∅)
               push w1 ds1 eq_refl Hlive).
    done. }
  assert (forall id d, collectionOf ds (name model) !! id = Some d ->
            step d = if decide (id = ido)
                     then <["_history" :=
                              VArr (arrayOf (d !! "_history") ++ [VStr rid])]> d
                     else d) as Hstepd.
  { intros id d Hd. unfold step. rewrite matches_id_string.
    rewrite (Hstored id d Hd). destruct (decide (id = ido)) as [->|Hneq].
    - rewrite bool_decide_eq_true_2; [|done]. apply applyUpdate_history.
    - rewrite bool_decide_eq_false_2; [done|]. congruence. }
  assert (forall id, collectionOf ds2 (name model) !! id
                     = step <$> collectionOf ds (name model) !! id) as Hlive2.
  { intros id. unfold ds2. rewrite collectionOf_setCollection.
    rewrite decide_True; [|done]. by rewrite lookup_fmap, Hlive1. }
  assert (collectionOf ds2 rc = <[rid := stored]> (collectionOf ds rc)) as Hrev2.
  { unfold ds2. rewrite collectionOf_setCollection, decide_False; [|done].
    unfold ds1. by rewrite collectionOf_setCollection, decide_True. }
  assert (db w2 = Some ds2) as Hdb2 by reflexivity.
  assert (faults ds2 = faults ds) as Hfaults2 by reflexivity.
  assert (snapshotOf stored = Some o) as Hsnap
    by apply snapshotOf_revision.
  clearbody w2 ds2 stored step. clear w1 ds1 push Hlive1.
  assert (forall id d, collectionOf ds2 (name model) !! id = Some d ->
                       d !! "_id" = Some (VStr id)) as Hstored2.
  { intros id d. rewrite Hlive2.
    destruct (collectionOf ds (name model) !! id) as [d0|] eqn:Hd0;
      [|discriminate].
    intros [= <-]. rewrite (Hstepd id d0 Hd0).
    destruct (decide (id = ido)); [|by eapply Hstored].
    rewrite lookup_insert_ne; [|discriminate]. by eapply Hstored. }
  rewrite <-Hfaults2 in Hlive, Hrev.
  destruct (IH w2 ds2 Hdb2 Hlive Hrev Hstored2 Hnd Hids)
    as (w' & ds' & Heq & Hdb' & Hf' & Hgrow & Hdocs).
  exists w', ds'. split_and!.
  - by rewrite Hstep.
  - done.
  - by rewrite Hf'.
  - intros x rev Hx. apply Hgrow. rewrite Hrev2.
    rewrite lookup_insert_ne; [done|]. intros <-. congruence.
  - intros id d Hd.
    assert (collectionOf ds2 (name model) !! id = Some (step d)) as Hd2
      by by rewrite Hlive2, Hd.
    destruct (Hdocs id (step d) Hd2) as [Hout Hin].
    rewrite (Hstepd id d Hd) in Hout, Hin. split.
    + intros Hnone. rewrite fmap_cons, not_elem_of_cons in Hnone.
      destruct Hnone as [Hneq Hnone].
      rewrite decide_False in Hout; [by apply Hout|].
      intros ->. by rewrite Hido in Hneq.
    + intros s [->|Hs]%elem_of_cons Hsid.
      * assert (id = ido) as -> by congruence.
        rewrite decide_True in Hout; [|done].
        exists rid, stored. split_and!.
        -- apply Hout. by rewrite <-Hido.
        -- done.
        -- apply Hgrow. by rewrite Hrev2, lookup_insert_eq.
        -- done.
      * assert (id <> ido) as Hneq.
        { intros ->. apply Hfirst. rewrite Hido, <-Hsid.
          apply list_elem_of_fmap. by exists s. }
        rewrite decide_False in Hin; [|done].
        destruct (Hin s Hs Hsid) as (rid' & rev & H1 & H2 & H3 & H4).
        exists rid', rev. split_and!; try done.
        rewrite Hrev2 in H2. by apply lookup_insert_None in H2 as [H2 _].
Qed.

End HistoryFacts.

Section UpdateFacts.

Variable lib : Library.

Implicit Types (self : Model) (ds : Datastore) (d : doc) (w : World).

Lemma withCompose_self self : withCompose (compose self) self = self.
Proof. by destruct self. Qed.

Lemma overrideCompose_noOptions self : overrideCompose noOptions self = self.
Proof. done. Qed.

(** A [find] with a query on fields of the collection, on a datastore
    that answers: the documents that the query selects, composed when
    the instance says so. *)
Lemma findOutcome_plain depth self query options w ds :
  db w = Some ds ->
  success (validate_query lib (overrideCompose options self) query) = true ->
  queryUtils_makeCaseInsensitive lib query (schema self) = query ->
  queryUtils_containsNestedReferenceFields lib query (schema self) = false ->
  faults ds !! name self = None ->
  let self' := overrideCompose options self in
  let w' := emit (Call (DbFind (name self) query (o_fields options))) w in
  let stored := project (o_fields options) <$> selected ds (name self) query in
  findOutcome lib depth self query options w
  = (Answers
       (inr (if default false (compose self')
             then composer_compose lib self' stored w' else stored,
             {| totalCount := length stored |}))
       (if default false (compose self')
        then composer_compose_immediate lib self' stored w' else true),
     self', w').
Proof.
  intros Hdb Hvalid Hplain Hlocal Hfault self' w' stored.
  fold self' in Hvalid.
  assert (schema self' = schema self /\ name self' = name self) as [Hs Hn].
  { unfold self', overrideCompose. by destruct (o_compose options). }
  assert (forall rf, findBody lib rf self query options w
                     = (Answers
                          (inr (if default false (compose self')
                                then composer_compose lib self' stored w'
                                else stored,
                                {| totalCount := length stored |}))
                          (if default false (compose self')
                           then composer_compose_immediate lib self' stored w'
                           else true),
                        self', w')) as Hbody.
  { intros rf. unfold findBody. cbv zeta. rewrite Hplain. fold self'.
    rewrite Hvalid, Hdb, Hs, Hlocal. cbn [negb].
    unfold runFind, database_find. cbn [db emit]. rewrite Hdb.
    unfold ds_find. rewrite Hn, Hfault. fold stored. fold w'.
    by destruct (default false (compose self')). }
  destruct depth; apply Hbody.
Qed.

Lemma find_plain depth self query options w ds :
  db w = Some ds ->
  success (validate_query lib (overrideCompose options self) query) = true ->
  queryUtils_makeCaseInsensitive lib query (schema self) = query ->
  queryUtils_containsNestedReferenceFields lib query (schema self) = false ->
  faults ds !! name self = None ->
  let self' := overrideCompose options self in
  let w' := emit (Call (DbFind (name self) query (o_fields options))) w in
  let stored := project (o_fields options) <$> selected ds (name self) query in
  find lib depth self query options w
  = (Some (inr (if default false (compose self')
                then composer_compose lib self' stored w' else stored,
                {| totalCount := length stored |})),
     self', w').
Proof.
  intros Hdb Hvalid Hplain Hlocal Hfault self' w' stored. unfold find.
  by rewrite (findOutcome_plain depth self query options w ds).
Qed.

Lemma project_all (l : list doc) : project [] <$> l = l.
Proof. apply list_fmap_id. Qed.

Lemma NoDup_fmap_filter {A B} (f : A -> B) (P : A -> Prop)
    `{forall x, Decision (P x)} (l : list A) :
  NoDup (f <$> l) -> NoDup (f <$> filter P l).
Proof.
  induction l as [|x l IH]; [done|]. rewrite fmap_cons.
  intros [Hx Hl]%NoDup_cons. rewrite filter_cons.
  destruct (decide (P x)); [|by apply IH].
  rewrite fmap_cons. apply NoDup_cons. split; [|by apply IH].
  intros (y & Hy & Hin%list_elem_of_filter)%list_elem_of_fmap.
  apply Hx. apply list_elem_of_fmap. exists y. by destruct Hin.
Qed.

(** The documents that a query selects have identifiers of their own. *)
Lemma selected_ids ds c query :
  (forall id d, collectionOf ds c !! id = Some d -> d !! "_id" = Some (VStr id)) ->
  NoDup ((fun o : doc => o !! "_id") <$> selected ds c query) /\
  Forall (fun o : doc => exists id, o !! "_id" = Some (VStr id) /\
                                    collectionOf ds c !! id = Some o)
         (selected ds c query).
Proof.
  intros Hstored. unfold selected. split.
  - apply NoDup_fmap_filter.
    assert ((fun o : doc => o !! "_id") <$> (map_to_list (collectionOf ds c)).*2
            = (fun id => Some (VStr id)) <$> (map_to_list (collectionOf ds c)).*1)
      as ->.
    { rewrite <-!list_fmap_compose. apply Forall_fmap_ext_1, Forall_forall.
      intros [id d] Hin%elem_of_map_to_list. simpl. by eapply Hstored. }
    apply NoDup_fmap_2; [|apply NoDup_fst_map_to_list].
    by intros x y [= ->].
  - apply Forall_forall. intros d (Hm & id & Hd)%elem_of_selected.
    exists id. split; [by eapply Hstored|done].
Qed.

Lemma update_refetch_db depth self updatedDocs matchedCount bypass w :
  db (update_refetch lib depth self updatedDocs matchedCount bypass w) = db w.
Proof.
  unfold update_refetch. destruct (pluckIds updatedDocs) as [ids|]; [|done].
  pose proof (findOutcome_readonly lib depth self
                (<["_id" := VObj [("$in", idValues ids)]]> ∅)
                {| o_compose := Some true; o_fields := [] |} w) as [Hdb _].
  destruct (findOutcome lib depth self _ _ w)
    as [[[[err|[results md]] guarded| |e] m] w1];
    simpl in Hdb; try done.
  destruct (matchedCount =? 0)%nat; [done|].
  rewrite <-Hdb. clear Hdb.
  assert (db (applyAfterHooks (s_hooks (settings m) ≫= afterUpdate) w1) = db w1)
    as Hhooks.
  { unfold applyAfterHooks. generalize w1.
    induction (default [] _) as [|h hs IH]; intros w0; simpl; [done|].
    by rewrite IH. }
  destruct (searcher m); [done|]. by destruct guarded.
Qed.

(** Every selected document has its snapshot among the documents that
    [find] hands over, composed or not. *)
Lemma captured_snapshot self (stored : list doc) w d :
  (forall c docs w,
      Forall2 (fun d d' : doc => d' !! "_id" = d !! "_id") docs
              (composer_compose lib (withCompose c self) docs w)) ->
  d ∈ stored ->
  let captured :=
    if default false (compose self)
    then composer_compose lib self stored w else stored in
  (fun o : doc => o !! "_id") <$> captured
  = (fun o : doc => o !! "_id") <$> stored /\
  exists snap, snap ∈ captured /\ snap !! "_id" = d !! "_id" /\
               (default false (compose self) = false -> snap = d).
Proof.
  intros Hcompose Hd captured. unfold captured.
  destruct (default false (compose self)) eqn:Hc.
  - specialize (Hcompose (compose self) stored w).
    rewrite withCompose_self in Hcompose. split.
    + clear Hd. induction Hcompose as [|x y l l' Hxy _ IH]; [done|].
      rewrite !fmap_cons. by f_equal.
    + apply list_elem_of_lookup_1 in Hd as [i Hi].
      destruct (Forall2_lookup_l _ _ _ _ _ Hcompose Hi) as (snap & Hsnap & Hid).
      exists snap. split_and!; [by eapply list_elem_of_lookup_2|done|done].
  - split; [done|]. by exists d.
Qed.

(** [saveDocuments] of [update] with revisions, on a datastore that takes
    the writes: the version of every selected document goes up by one,
    and the snapshot that was captured for it is stored as a new
    revision, whose identifier ends the history of the document. *)
Lemma update_saveDocuments_revisions depth self query payload captured req
    bypass w ds rc :
  history self = true ->
  db w = Some ds ->
  faults ds !! name self = None ->
  revisionCollection self = Some rc ->
  rc <> name self ->
  faults ds !! rc = None ->
  (forall id d, collectionOf ds (name self) !! id = Some d ->
                d !! "_id" = Some (VStr id)) ->
  payload !! "_id" = None ->
  payload !! "_version" = None ->
  payload !! "_history" = None ->
  (fun o : doc => o !! "_id") <$> captured
  = (fun o : doc => o !! "_id") <$> selected ds (name self) query ->
  forall id d snap,
    collectionOf ds (name self) !! id = Some d ->
    matches query d = true ->
    snap ∈ captured ->
    snap !! "_id" = Some (VStr id) ->
    exists d' rid rev,
      documentsOf (update_saveDocuments lib depth self query payload captured
                     req bypass w) (name self) !! id = Some d' /\
      numberOf (d' !! "_version") = (numberOf (d !! "_version") + 1)%Z /\
      arrayOf (d' !! "_history") = arrayOf (d !! "_history") ++ [VStr rid] /\
      documentsOf w rc !! rid = None /\
      documentsOf (update_saveDocuments lib depth self query payload captured
                     req bypass w) rc !! rid = Some rev /\
      snapshotOf rev = Some snap.
Proof.
  intros Hhistory Hdb Hfault Hrc Hdistinct Hrcfault Hstored Hpid Hpv Hph Hids
         id d snap Hd Hm Hsnap Hsnapid.
  unfold update_saveDocuments. cbv zeta.
  rewrite (database_update_ok _ _ _ _ ds Hdb Hfault).
  assert (d ∈ selected ds (name self) query) as Hin.
  { apply elem_of_selected. split; [done|]. by exists id. }
  assert ((length (selected ds (name self) query) =? 0)%nat = false) as ->.
  { destruct (selected ds (name self) query); [by apply elem_of_nil in Hin|done]. }
  rewrite andb_false_r, Hhistory.
  remember {| u_set := payload; u_inc := [("_version", 1%Z)]; u_push := [] |}
    as setUpdate eqn:HsetUpdate.
  remember (fun d0 : doc => if matches query d0 then applyUpdate setUpdate d0 else d0)
    as step eqn:Hstep.
  remember (setCollection ds (name self) (step <$> collectionOf ds (name self)))
    as ds1 eqn:Hds1.
  remember (setDb ds1 (emit (Call (DbUpdate (name self) query setUpdate)) w))
    as w1 eqn:Hw1.
  assert (db w1 = Some ds1) as Hdb1 by by rewrite Hw1.
  assert (faults ds1 = faults ds) as Hfaults1 by by rewrite Hds1.
  assert (collectionOf ds1 (name self) = step <$> collectionOf ds (name self))
    as Hlive1.
  { rewrite Hds1, collectionOf_setCollection. by rewrite decide_True. }
  assert (collectionOf ds1 rc = collectionOf ds rc) as Hrev1.
  { rewrite Hds1, collectionOf_setCollection. rewrite decide_False; [done|].
    intros Heq. by apply Hdistinct. }
  assert (forall d0, step d0 !! "_id" = d0 !! "_id") as Hstepid.
  { intros d0. rewrite Hstep. destruct (matches query d0); [|done].
    rewrite HsetUpdate, applyUpdate_version.
    rewrite lookup_insert_ne; [|done]. by apply lookup_union_r. }
  assert (step d = <["_version" := VNum (numberOf (d !! "_version") + 1)]>
                     (payload ∪ d)) as Hstepd.
  { rewrite Hstep, Hm, HsetUpdate, applyUpdate_version.
    by rewrite (lookup_union_r payload d "_version" Hpv). }
  destruct (selected_ids ds (name self) query Hstored) as [Hnd Hall].
  destruct (History_createEach_ok "update" self rc Hrc Hdistinct captured w1 ds1)
    as (w2 & ds2 & Heach & Hdb2 & Hfaults2 & Hgrow & Hdocs).
  { done. }
  { by rewrite Hfaults1. }
  { by rewrite Hfaults1. }
  { intros id0 d0. rewrite Hlive1, lookup_fmap.
    destruct (collectionOf ds (name self) !! id0) as [d1|] eqn:Hd1; [|done].
    intros [= <-]. rewrite Hstepid. by eapply Hstored. }
  { by rewrite Hids. }
  { apply Forall_forall. intros o Ho.
    assert (o !! "_id" ∈ (fun o : doc => o !! "_id") <$> captured) as Hoid.
    { apply list_elem_of_fmap. by exists o. }
    rewrite Hids in Hoid. apply list_elem_of_fmap in Hoid as (d0 & Heq & Hd0).
    rewrite Forall_forall in Hall. destruct (Hall d0 Hd0) as (id0 & Hid0 & _).
    exists id0. congruence. }
  rewrite Heach.
  assert (forall c, documentsOf (update_refetch lib depth self captured
                       (length (selected ds (name self) query)) bypass w2) c
                    = collectionOf ds2 c) as Hend.
  { intros c. unfold documentsOf. by rewrite update_refetch_db, Hdb2. }
  rewrite !Hend.
  assert (collectionOf ds1 (name self) !! id = Some (step d)) as Hd1
    by by rewrite Hlive1, lookup_fmap, Hd.
  destruct (Hdocs id (step d) Hd1) as [_ Hrevision].
  destruct (Hrevision snap Hsnap Hsnapid) as (rid & rev & H1 & H2 & H3 & H4).
  exists (<["_history" := VArr (arrayOf (step d !! "_history") ++ [VStr rid])]>
            (step d)), rid, rev.
  split_and!.
  - exact H1.
  - rewrite lookup_insert_ne; [|done]. by rewrite Hstepd, lookup_insert_eq.
  - rewrite lookup_insert_eq. cbn [arrayOf]. f_equal.
    rewrite Hstepd, lookup_insert_ne; [|done].
    by rewrite (lookup_union_r payload d "_history" Hph).
  - unfold documentsOf. rewrite Hdb. cbn [from_option]. by rewrite <-Hrev1.
  - exact H3.
  - exact H4.
Qed.

(** [saveDocuments] of [update] without revisions, on a datastore that
    takes the write: the version of every selected document goes up by
    one, its history stays as it was, and so do the other collections. *)
Lemma update_saveDocuments_plain depth self query payload captured req
    bypass w ds :
  history self = false ->
  db w = Some ds ->
  faults ds !! name self = None ->
  payload !! "_version" = None ->
  payload !! "_history" = None ->
  forall id d,
    collectionOf ds (name self) !! id = Some d ->
    matches query d = true ->
    exists d',
      documentsOf (update_saveDocuments lib depth self query payload captured
                     req bypass w) (name self) !! id = Some d' /\
      numberOf (d' !! "_version") = (numberOf (d !! "_version") + 1)%Z /\
      d' !! "_history" = d !! "_history" /\
      forall c, c <> name self ->
                documentsOf (update_saveDocuments lib depth self query payload
                               captured req bypass w) c
                = documentsOf w c.
Proof.
  intros Hhistory Hdb Hfault Hpv Hph id d Hd Hm.
  unfold update_saveDocuments. cbv zeta.
  rewrite (database_update_ok _ _ _ _ ds Hdb Hfault).
  assert (d ∈ selected ds (name self) query) as Hin.
  { apply elem_of_selected. split; [done|]. by exists id. }
  assert ((length (selected ds (name self) query) =? 0)%nat = false) as ->.
  { destruct (selected ds (name self) query); [by apply elem_of_nil in Hin|done]. }
  rewrite andb_false_r, Hhistory.
  remember {| u_set := payload; u_inc := [("_version", 1%Z)]; u_push := [] |}
    as setUpdate eqn:HsetUpdate.
  remember (fun d0 : doc => if matches query d0 then applyUpdate setUpdate d0 else d0)
    as step eqn:Hstep.
  remember (setCollection ds (name self) (step <$> collectionOf ds (name self)))
    as ds1 eqn:Hds1.
  remember (setDb ds1 (emit (Call (DbUpdate (name self) query setUpdate)) w))
    as w1 eqn:Hw1.
  assert (db w1 = Some ds1) as Hdb1 by by rewrite Hw1.
  assert (step d = <["_version" := VNum (numberOf (d !! "_version") + 1)]>
                     (payload ∪ d)) as Hstepd.
  { rewrite Hstep, Hm, HsetUpdate, applyUpdate_version.
    by rewrite (lookup_union_r payload d "_version" Hpv). }
  assert (forall c, documentsOf (update_refetch lib depth self captured
                       (length (selected ds (name self) query)) bypass w1) c
                    = collectionOf ds1 c) as Hend.
  { intros c. unfold documentsOf. by rewrite update_refetch_db, Hdb1. }
  exists (step d). split_and!.
  - rewrite Hend, Hds1, collectionOf_setCollection, decide_True; [|done].
    by rewrite lookup_fmap, Hd.
  - by rewrite Hstepd, lookup_insert_eq.
  - rewrite Hstepd, lookup_insert_ne; [|done].
    by apply lookup_union_r.
  - intros c Hc. rewrite Hend, Hds1, collectionOf_setCollection.
    rewrite decide_False; [|done]. unfold documentsOf. by rewrite Hdb.
Qed.

(** An update with a valid query and payload, on a datastore that
    answers, reaches [saveDocuments] with the documents that the first
    [find] handed over, after two finds. *)
Lemma update_reaches_save depth self query payload internals req bypass w ds :
  db w = Some ds ->
  success (validate_query lib self query) = true ->
  success (validate_schema lib self payload true) = true ->
  let query' := formatQuery (internalFieldsPrefix lib) query in
  let payload' := updatePayload lib self payload internals in
  (forall c, success (validate_query lib (withCompose c self) query') = true) ->
  queryUtils_makeCaseInsensitive lib query' (schema self) = query' ->
  queryUtils_containsNestedReferenceFields lib query' (schema self) = false ->
  (forall c, composer_createFromComposed lib (withCompose c self) payload' ds
             = (inr payload', ds, [])) ->
  (forall hooks docs,
     s_hooks (settings self) ≫= beforeUpdate = Some hooks ->
     (async_reduce hooks payload'
        (hookIteratee lib "beforeUpdate" (withCompose (Some false) self)
           docs)).1.1 = None) ->
  faults ds !! name self = None ->
  let stored := selected ds (name self) query' in
  let w1 := emit (Call (DbFind (name self) query' [])) w in
  let captured :=
    if default false (compose self)
    then composer_compose lib self stored w1 else stored in
  exists w3,
    db w3 = Some ds /\
    events w3
    = events w ++ [Call (DbFind (name self) query' []);
                   Call (DbFind (name self) query' [])] /\
    find lib depth self query' noOptions w
    = (Some (inr (captured, {| totalCount := length stored |})), self, w1) /\
    update lib depth self query payload internals req bypass w
    = update_saveDocuments lib depth (withCompose (Some false) self) query'
        payload' captured req bypass w3.
Proof.
  intros Hdb Gq Gp query' payload' Gfind Gplain Glocal Gcomposed Ghooks Gcoll
         stored w1 captured.
  (* the documents that will be updated *)
  pose proof (Gfind (compose self)) as Hvalid.
  rewrite withCompose_self in Hvalid.
  pose proof (findOutcome_plain depth self query' noOptions w ds Hdb Hvalid
                Gplain Glocal Gcoll) as Hfind1.
  cbv zeta in Hfind1. rewrite overrideCompose_noOptions in Hfind1.
  change (o_fields noOptions) with (@nil string) in Hfind1.
  rewrite project_all in Hfind1. fold stored w1 captured in Hfind1.
  (* the composer leaves the payload as it is *)
  set (w2 := {| db := Some ds; models := models w1; events := events w1 ++ [] |}).
  assert (createFromComposed lib self payload' w1 = (inr payload', w2)) as Hcomposed.
  { unfold createFromComposed.
    assert (db w1 = Some ds) as -> by done.
    pose proof (Gcomposed (compose self)) as Hc.
    rewrite withCompose_self in Hc. by rewrite Hc. }
  (* the second find, without composition *)
  set (self' := withCompose (Some false) self).
  set (w3 := emit (Call (DbFind (name self) query' [])) w2).
  pose proof (findOutcome_plain depth self query'
                {| o_compose := Some false; o_fields := [] |} w2 ds eq_refl
                (Gfind (Some false)) Gplain Glocal Gcoll) as Hfind2.
  cbv zeta in Hfind2. cbn [o_fields o_compose overrideCompose] in Hfind2.
  rewrite project_all in Hfind2.
  change (default false (compose (withCompose (Some false) self)))
    with false in Hfind2.
  fold stored self' w3 in Hfind2.
  exists w3. split_and!; [done| | |].
  { unfold w3, w2, w1. cbn [events emit]. by rewrite app_nil_r, <-app_assoc. }
  { unfold find. by rewrite Hfind1. }
  unfold update. rewrite Hdb, Gq, Gp. cbn [negb]. cbv zeta.
  fold query'. fold (updatePayload lib self payload internals). fold payload'.
  rewrite Hfind1, Hcomposed. unfold update_startUpdate. rewrite Hfind2.
  (* the hooks let the payload through *)
  unfold update_beforeUpdate, snapshot.
  change (settings self') with (settings self).
  destruct (s_hooks (settings self) ≫= beforeUpdate) as [hooks|] eqn:Hhooks;
    [|done].
  pose proof (Ghooks hooks captured eq_refl) as Hnone. fold self' in Hnone.
  by destruct (async_reduce hooks payload' _) as [[[err|] current] n].
Qed.


End UpdateFacts.



(** The instance that the constructor makes has [searchHandler] and no
    [searcher]: its update of a stored document is written, and the
    [TypeError] of [this.searcher.index], raised in the callback of the
    last [find], is handed to the callback of the update by that [find]. *)
Lemma update_without_searcher :
  let lib := Fixtures.library "_" in
  let self := Fixtures.books false (Fixtures.settingsWith None None) in
  let ds := Fixtures.store [("books", [("id", Fixtures.book "id" "1984" 3)])] in
  let query : doc := <["_id" := VStr "id"]> ∅ in
  let payload : doc := <["name" := VStr "Animal Farm"]> ∅ in
  let w :=
    update lib 1 self query payload None None false
      (Fixtures.world (Some ds)) in
  dones (events w)
  = [inl (TypeError "Cannot read property 'index' of undefined")] /\
  (fun d => d !! "_version") <$> documentsOf w "books" !! "id"
  = Some (Some (VNum 4)).
Proof.
  intros. split_and!; vm_compute; reflexivity.
Qed.

(** The scenario of the update of a book at version 3, on an instance
    with a [searcher]: the callback receives the book with version 4 and
    the new name, and the one revision that is written holds the book as
    it was, with the name it had. *)
Lemma update_scenario :
  let lib := Fixtures.library "_" in
  let self :=
    Fixtures.withSearcher (Fixtures.books false (Fixtures.settingsWith None None)) in
  let stored := Fixtures.book "b1" "1984" 3 in
  let updated :=
    <["_history" := VArr [VStr "id"]]> (Fixtures.book "b1" "Animal Farm" 4) in
  let revision := <["_id" := VStr "id"]> (revisionRecord "update" stored) in
  let ds := Fixtures.store [("books", [("b1", stored)])] in
  let query : doc := <["_id" := VStr "b1"]> ∅ in
  let payload : doc := <["name" := VStr "Animal Farm"]> ∅ in
  let w :=
    update lib 1 self query payload None None false
      (Fixtures.world (Some ds)) in
  dones (events w) = [inr (Found [updated] {| totalCount := 1 |})] /\
  documentsOf w "books" !! "b1" = Some updated /\
  map_to_list (documentsOf w "booksHistory") = [("id", revision)] /\
  snapshotOf revision = Some stored.
Proof.
  intros. split_and!; vm_compute; reflexivity.
Qed.


(** ** Requests addressed to one document *)

Section NotFoundFacts.

Variable lib : Library.

(** C4, as the code has it.  A request addressed by identifier, on a
    connected datastore that answers for the collection, with a valid
    query on fields of the collection that selects no document.  In
    [delete] the callback receives a not-found error of status 404 once
    the documents to delete have been looked for: two finds were asked
    of the datastore and nothing else, and the datastore is as it was,
    so no revision is written.  In [update], with a valid payload that
    the composer takes as it is and that no hook refuses, the callback
    receives the error from the count that the update of the datastore
    reports: that call has been issued after the two finds; it changes
    no document, and nothing is asked of the datastore after it, so no
    revision is written. *)
Theorem not_found_detection depth (self : Model) req w ds :
  isRestIDQuery req = true ->
  db w = Some ds ->
  faults ds !! name self = None ->
  (forall query,
      let query' := formatQuery (internalFieldsPrefix lib) query in
      success (validate_query lib self query) = true ->
      (forall q, q = ∅ \/ q = query' ->
         success (validate_query lib (withCompose (Some false) self) q) = true /\
         queryUtils_makeCaseInsensitive lib q (schema self) = q /\
         queryUtils_containsNestedReferenceFields lib q (schema self) = false) ->
      selected ds (name self) query' = [] ->
      let w' := delete lib depth self query req w in
      events w'
      = events w ++ [Call (DbFind (name self) ∅ []);
                     Call (DbFind (name self) query' []);
                     Done (inl (NotFoundError "Document not found"))] /\
      statusCode (NotFoundError "Document not found") = Some 404%Z /\
      db w' = db w) /\
  (forall query payload internals bypass,
      let query' := formatQuery (internalFieldsPrefix lib) query in
      let payload' := updatePayload lib self payload internals in
      success (validate_query lib self query) = true ->
      success (validate_schema lib self payload true) = true ->
      (forall c,
         success (validate_query lib (withCompose c self) query') = true) ->
      queryUtils_makeCaseInsensitive lib query' (schema self) = query' ->
      queryUtils_containsNestedReferenceFields lib query' (schema self)
      = false ->
      (forall c, composer_createFromComposed lib (withCompose c self)
                   payload' ds
                 = (inr payload', ds, [])) ->
      (forall hooks docs,
         s_hooks (settings self) ≫= beforeUpdate = Some hooks ->
         (async_reduce hooks payload'
            (hookIteratee lib "beforeUpdate" (withCompose (Some false) self)
               docs)).1.1 = None) ->
      selected ds (name self) query' = [] ->
      let w' := update lib depth self query payload internals req bypass w in
      events w'
      = events w ++ [Call (DbFind (name self) query' []);
                     Call (DbFind (name self) query' []);
                     Call (DbUpdate (name self) query'
                             {| u_set := payload';
                                u_inc := [("_version", 1%Z)];
                                u_push := [] |});
                     Done (inl (NotFoundError "Not Found"))] /\
      statusCode (NotFoundError "Not Found") = Some 404%Z /\
      forall c, documentsOf w' c = documentsOf w c).
Proof.
  intros Hrest Hdb Hfault. split.
  - intros query query' Hq Hplain Hnone w'.
    destruct (Hplain ∅ (or_introl eq_refl)) as (Hv0 & Hc0 & Hn0).
    destruct (Hplain query' (or_intror eq_refl)) as (Hv1 & Hc1 & Hn1).
    set (self1 := withCompose (Some false) self).
    set (w1 := emit (Call (DbFind (name self) ∅ [])) w).
    pose proof (findOutcome_plain lib depth self ∅
                  {| o_compose := Some false; o_fields := [] |} w ds Hdb
                  Hv0 Hc0 Hn0 Hfault) as Hfind1.
    cbv zeta in Hfind1. cbn [overrideCompose o_compose o_fields] in Hfind1.
    change (default false (compose (withCompose (Some false) self)))
      with false in Hfind1.
    fold self1 w1 in Hfind1.
    assert (db w1 = Some ds) as Hdb1 by done.
    pose proof (findOutcome_plain lib depth self1 query'
                  {| o_compose := Some false; o_fields := [] |} w1 ds Hdb1)
      as Hfind2.
    cbn [overrideCompose o_compose o_fields] in Hfind2.
    change (withCompose (Some false) self1) with self1 in Hfind2.
    change (schema self1) with (schema self) in Hfind2.
    change (name self1) with (name self) in Hfind2.
    specialize (Hfind2 Hv1 Hc1 Hn1 Hfault). cbv zeta in Hfind2.
    change (default false (compose self1)) with false in Hfind2.
    rewrite Hnone in Hfind2.
    assert (w' = emit (Done (inl (NotFoundError "Document not found")))
                   (emit (Call (DbFind (name self) query' [])) w1)) as ->.
    { unfold w', delete. rewrite Hq, Hdb. cbn [negb]. cbv zeta.
      fold query'. rewrite Hfind1, Hfind2. by rewrite Hrest. }
    split_and!; [|done|done].
    unfold w1. cbn [events emit]. by rewrite <-!app_assoc.
  - intros query payload internals bypass query' payload' Hq Hp Hvalid
      Hcase Hlocal Hcomposed Hhooks Hnone w'.
    destruct (update_reaches_save lib depth self query payload internals req
                bypass w ds Hdb Hq Hp Hvalid Hcase Hlocal Hcomposed Hhooks
                Hfault) as (w3 & Hdb3 & Hevents3 & _ & Hupdate).
    fold query' payload' in Hevents3, Hupdate.
    assert (w' = emit (Done (inl (NotFoundError "Not Found")))
                   (setDb (setCollection ds (name self)
                             ((fun d => if matches query' d
                                        then applyUpdate
                                               {| u_set := payload';
                                                  u_inc := [("_version", 1%Z)];
                                                  u_push := [] |} d
                                        else d)
                                <$> collectionOf ds (name self)))
                      (emit (Call (DbUpdate (name self) query'
                                     {| u_set := payload';
                                        u_inc := [("_version", 1%Z)];
                                        u_push := [] |})) w3))) as ->.
    { unfold w'. rewrite Hupdate. unfold update_saveDocuments. cbv zeta.
      change (name (withCompose (Some false) self)) with (name self).
      rewrite (database_update_ok _ _ _ _ ds Hdb3 Hfault).
      rewrite Hnone. cbn [length Nat.eqb]. by rewrite Hrest. }
    split_and!; [|done|].
    + cbn [events emit setDb]. rewrite Hevents3. by rewrite <-!app_assoc.
    + intros c. unfold documentsOf. cbn [db emit setDb from_option].
      rewrite Hdb. cbn [from_option].
      rewrite collectionOf_setCollection.
      destruct (decide (name self = c)) as [<-|]; [|done].
      apply map_eq. intros id. rewrite lookup_fmap.
      destruct (collectionOf ds (name self) !! id) as [d|] eqn:Hd; [|done].
      cbn [fmap option_fmap option_map].
      destruct (matches query' d) eqn:Hm; [|done].
      assert (d ∈ selected ds (name self) query') as Hin.
      { apply elem_of_selected. split; [done|]. by exists id. }
      rewrite Hnone in Hin. by apply elem_of_nil in Hin.
Qed.

End NotFoundFacts.

Lemma not_found_detection_witness :
  let lib := Fixtures.library "_" in
  let self := Fixtures.books true (Fixtures.settingsWith None None) in
  let req := Fixtures.withId "nope" in
  let ds := Fixtures.store [("books", [("id", Fixtures.book "id" "1984" 1)])] in
  let w := Fixtures.world (Some ds) in
  let query : doc := <["_id" := VStr "nope"]> ∅ in
  let payload : doc := <["name" := VStr "Animal Farm"]> ∅ in
  (events (delete lib 1 self query req w)
   = events w ++ [Call (DbFind "books" ∅ []);
                  Call (DbFind "books" query []);
                  Done (inl (NotFoundError "Document not found"))] /\
   db (delete lib 1 self query req w) = db w) /\
  (events (update lib 1 self query payload (Some ∅) req false w)
   = events w ++ [Call (DbFind "books" query []);
                  Call (DbFind "books" query []);
                  Call (DbUpdate "books" query
                          {| u_set := payload;
                             u_inc := [("_version", 1%Z)];
                             u_push := [] |});
                  Done (inl (NotFoundError "Not Found"))] /\
   forall c, documentsOf (update lib 1 self query payload (Some ∅) req false w) c
             = documentsOf w c).
Proof.
  intros lib self req ds w query payload.
  destruct (not_found_detection lib 1 self req w ds eq_refl eq_refl eq_refl)
    as [Hdelete Hupdate].
  split.
  - destruct (Hdelete query) as (He & _ & Hd).
    + reflexivity.
    + intros q [->| ->]; split_and!; reflexivity.
    + vm_compute. reflexivity.
    + split; [exact He|exact Hd].
  - destruct (Hupdate query payload (Some ∅) false) as (He & _ & Hd).
    + reflexivity.
    + reflexivity.
    + intros c. reflexivity.
    + reflexivity.
    + vm_compute. reflexivity.
    + intros c. reflexivity.
    + intros hooks docs Hhooks. vm_compute in Hhooks. discriminate Hhooks.
    + vm_compute. reflexivity.
    + split; [exact He|exact Hd].
Defined.

(** C4, as the claim has it, fails for [update]: on an empty collection, an
    update addressed by identifier has the update of the datastore issued
    before the callback receives the not-found error. *)
Lemma not_found_detection_counterexample :
  let lib := Fixtures.library "_" in
  let self := Fixtures.books true (Fixtures.settingsWith None None) in
  let query : doc := <["_id" := VStr "nope"]> ∅ in
  let payload : doc := <["name" := VStr "Animal Farm"]> ∅ in
  let w := update lib 1 self query payload (Some ∅) (Fixtures.withId "nope")
             false (Fixtures.world (Some (Fixtures.store []))) in
  mutations (events w)
  = [DbUpdate "books" query
       {| u_set := payload; u_inc := [("_version", 1%Z)]; u_push := [] |}] /\
  last (events w) = Some (Done (inl (NotFoundError "Not Found"))) /\
  dones (events w) = [inl (NotFoundError "Not Found")].
Proof. vm_compute. done. Qed.

(** ** Queries through reference fields *)

Section ReferenceQueryFacts.

Variable lib : Library.

Lemma runFind_events (self : Model) query options w :
  events (runFind lib self query options w).2
  = events w ++ [Call (DbFind (name self) query (o_fields options))].
Proof.
  unfold runFind, database_find. simpl.
  destruct (db w) as [ds|]; simpl.
  - destruct (ds_find ds _ _ _) as [message|results]; simpl.
    + done.
    + by destruct (default false _).
  - done.
Qed.

Lemma pluckIds_nil results : pluckIds results = Some [] -> results = [].
Proof.
  destruct results as [|r results]; [done|]. unfold pluckIds. simpl.
  destruct (idString r); [|done]. simpl.
  by destruct (mapM idString results).
Qed.

Lemma pluckIds_strings results (ids : list string) :
  (fun d : doc => d !! "_id") <$> results
  = (fun id => Some (VStr id)) <$> ids ->
  pluckIds results = Some ids.
Proof.
  revert ids. induction results as [|d results IH]; intros [|id ids] Heq;
    try done.
  rewrite !fmap_cons in Heq. injection Heq as Hd Hrest.
  specialize (IH ids Hrest). unfold pluckIds in IH |- *.
  assert (idString d = Some id) as Hid by (unfold idString; by rewrite Hd).
  simpl. by rewrite Hid, IH.
Qed.

Lemma pluckIds_cons results id ids :
  pluckIds results = Some (id :: ids) -> exists r rest, results = r :: rest.
Proof. destruct results as [|r rest]; [done|]. by exists r, rest. Qed.

(** C7, as the code has it.  A query with one path of two segments
    through a reference field, [collectionKey.queryKey], by a connected
    instance; the model of the referenced collection is constructed, its
    connection is ready, and its find answers with documents that carry
    strings as identifiers; [collectionKey] is not the name of a property that
    every object has.  That find is asked with the condition on [queryKey]
    and, when the rest of the query has a condition on [collectionKey]
    already, with that condition on [_id].  The path is then replaced by
    a condition on [collectionKey]: when documents were found, a
    [$containsAny] over their identifiers if the field holds several
    references and the first of the identifiers if it holds one; when
    none was found, a [$in] over no identifier if the field holds
    several references and the empty string if it holds one.  The
    datastore is asked for the documents of the collection with that
    query, after the find on the referenced collection. *)
Theorem reference_query_rewritten depth (self : Model) query options w ds
    query0 key collectionKey queryKey queryValue fieldSchema collection
    results total referenceModel' w1 ids :
  let query1 := queryUtils_makeCaseInsensitive lib query (schema self) in
  let self' := overrideCompose options self in
  let collectionSettings :=
    default emptyFieldSettings (f_settings fieldSchema) in
  let database :=
    if truthy (VStr <$> fs_database collectionSettings)
    then fs_database collectionSettings
    else s_database (settings self') in
  let created :=
    Model_new collection emptySchema
      {| s_database := database;
         s_compose := Some true; s_storeRevisions := None;
         s_revisionCollection := None; s_hooks := None;
         s_index := None |} w in
  let collectionQuery : doc :=
    if truthy (query0 !! collectionKey)
    then <["_id" := default VNull (query0 !! collectionKey)]>
           (<[queryKey := queryValue]> ∅)
    else <[queryKey := queryValue]> ∅ in
  let criteria :=
    match ids with
    | [] =>
        if fs_multiple collectionSettings
        then VObj [("$in", VArr [])] else VStr ""
    | id :: _ =>
        if fs_multiple collectionSettings
        then VObj [("$containsAny", idValues ids)] else VStr id
    end in
  success (validate_query lib self' query1) = true ->
  db w = Some ds ->
  queryUtils_containsNestedReferenceFields lib query1 (schema self') = true ->
  queryUtils_processReferenceFieldQuery lib query1 (schema self')
  = (query0, [(key, queryValue)]) ->
  split "."%char key = [collectionKey; queryKey] ->
  collectionKey ∉ inheritedProperties ->
  queryKey <> "__proto__" ->
  queryUtils_getSchemaOrParent lib collectionKey (schema self')
  = Some fieldSchema ->
  fs_collection collectionSettings = Some collection ->
  Connection_db lib database collection w = true ->
  find lib depth created.1 collectionQuery
    {| o_compose := None;
       o_fields := default [] (fs_fields collectionSettings) |} created.2
  = (Some (inr (results, total)), referenceModel', w1) ->
  (fun d : doc => d !! "_id") <$> results
  = (fun id => Some (VStr id)) <$> ids ->
  findOutcome lib (S depth) self query options w
  = (let '(outcome, w2) :=
       runFind lib self' (<[collectionKey := criteria]> query0) options w1 in
     (outcome, self', w2)) /\
  events (find lib (S depth) self query options w).2
  = events w1
    ++ [Call (DbFind (name self) (<[collectionKey := criteria]> query0)
               (o_fields options))].
Proof.
  intros query1 self' collectionSettings database created collectionQuery
    criteria Hq Hdb Hnested Hprocess Hsplit Hown HqueryKey Hfield
    Hcollection Hconnected Hfind Hstrings.
  pose proof (pluckIds_strings results ids Hstrings) as Hids.
  assert (collectionKey <> "__proto__") as HcollectionKey.
  { intros ->. apply Hown. unfold inheritedProperties.
    repeat (apply elem_of_cons; first [by left|right]). }
  apply find_answers in Hfind as [guarded Hfind].
  assert (forall (q : doc) k v, k <> "__proto__" -> setField k v q = <[k := v]> q)
    as Hset.
  { intros q k v Hk. unfold setField.
    destruct (String.eqb k "__proto__") eqn:Heq; [|done].
    by apply String.eqb_eq in Heq. }
  assert (findOutcome lib (S depth) self query options w
          = (let '(outcome, w2) :=
               runFind lib self' (<[collectionKey := criteria]> query0)
                 options w1 in
             (outcome, self', w2))) as Heq.
  { cbn [findOutcome]. unfold findBody. fold query1 self'.
    rewrite Hq, Hdb, Hnested, Hprocess. cbn [negb referenceLookups].
    unfold referenceLookup. cbv zeta. rewrite Hsplit.
    change (default "" (head [collectionKey; queryKey])) with collectionKey.
    change ([collectionKey; queryKey] !! 1) with (Some queryKey).
    change (default "undefined" (Some queryKey)) with queryKey.
    rewrite Hfield. fold collectionSettings. rewrite Hcollection.
    assert ((if bool_decide (Some collectionKey ≠ Some collection)
             then Some collection else Some collectionKey)
            = Some collection) as ->.
    { case_bool_decide as Hc; [done|].
      destruct (decide (collectionKey = collection)) as [->|Hne]; [done|].
      congruence. }
    rewrite bool_decide_eq_true_2 by done.
    change (default "undefined" (Some collection)) with collection.
    rewrite (Hset _ _ _ HqueryKey).
    fold collectionQuery. fold database. rewrite Hconnected.
    fold created. destruct created as [referenceModel w0] eqn:Hcreated.
    cbn [fst snd] in Hfind. rewrite Hfind.
    assert (referenceCriteria lib collectionSettings None (Some queryKey)
              queryValue results = Some criteria) as ->.
    { unfold referenceCriteria. destruct ids as [|id ids].
      - by rewrite (pluckIds_nil results Hids).
      - destruct (pluckIds_cons results id ids Hids) as (r & rest & ->).
        cbn [truthy fmap option_fmap option_map negb]. rewrite Hids.
        cbn [mbind option_bind head fmap option_fmap option_map default].
        done. }
    rewrite (Hset _ _ _ HcollectionKey). done. }
  split; [done|]. unfold find. rewrite Heq.
  pose proof (runFind_events self' (<[collectionKey := criteria]> query0)
                options w1) as He.
  assert (exists reply g w2,
            runFind lib self' (<[collectionKey := criteria]> query0) options w1
            = (Answers reply g, w2)) as (reply & g & w2 & Hrun).
  { unfold runFind. destruct (database_find _ _ _ w1) as [[message|[rs md]] w2].
    - by eexists _, _, _.
    - destruct (default false (compose self')); by eexists _, _, _. }
  rewrite Hrun in He |- *. cbn [snd] in He |- *. rewrite He.
  do 4 f_equal. unfold self', overrideCompose. by destruct (o_compose options).
Qed.

End ReferenceQueryFacts.

Lemma reference_query_rewritten_witness :
  let lib := Fixtures.library "_" in
  let tolstoy : doc := <["_id" := VStr "a1"]> (<["name" := VStr "Tolstoy"]> ∅) in
  let orwell : doc := <["_id" := VStr "a2"]> (<["name" := VStr "Orwell"]> ∅) in
  let ds :=
    Fixtures.store
      [("authors", [("a1", tolstoy); ("a2", orwell)]);
       ("books", [("b1", <["_id" := VStr "b1"]>
                           (<["authorId" := VArr [VStr "a1"]]> ∅))])] in
  let w := Fixtures.world (Some ds) in
  (let self := Fixtures.books true (Fixtures.settingsWith None None) in
   let query : doc := <["authorId.name" := VStr "Tolstoy"]> ∅ in
   events (find lib 1 self query noOptions w).2
   = [Call (DbFind "authors" (<["name" := VStr "Tolstoy"]> ∅) []);
      Call (DbFind "books"
              (<["authorId" := VObj [("$containsAny", VArr [VStr "a1"])]]> ∅)
              [])]) /\
  (let self := Fixtures.books false (Fixtures.settingsWith None None) in
   let query : doc := <["authorId.name" := VStr "Gogol"]> ∅ in
   events (find lib 1 self query noOptions w).2
   = [Call (DbFind "authors" (<["name" := VStr "Gogol"]> ∅) []);
      Call (DbFind "books" (<["authorId" := VStr ""]> ∅) [])]).
Proof.
  intros lib tolstoy orwell ds w.
  assert (forall k : string,
             bool_decide (k ∈ inheritedProperties) = false ->
             k ∉ inheritedProperties) as Hfresh.
  { intros k Hk Hin. by rewrite (bool_decide_eq_true_2 _ Hin) in Hk. }
  set (referenceSettings :=
         {| s_database := None; s_compose := Some true;
            s_storeRevisions := None; s_revisionCollection := None;
            s_hooks := None; s_index := None |}).
  set (created := Model_new "authors" emptySchema referenceSettings w).
  split.
  - intros self query.
    set (found := find lib 0 created.1 (<["name" := VStr "Tolstoy"]> ∅)
                    noOptions created.2).
    edestruct (reference_query_rewritten lib 0 self query noOptions w ds
                 ∅ "authorId.name" "authorId" "name" (VStr "Tolstoy")
                 (Fixtures.reference "authors" true) "authors"
                 [tolstoy] {| totalCount := 1 |} found.1.2 found.2 ["a1"])
      as [_ Hevents].
    + vm_compute. reflexivity.
    + vm_compute. reflexivity.
    + vm_compute. reflexivity.
    + vm_compute. reflexivity.
    + vm_compute. reflexivity.
    + apply Hfresh. reflexivity.
    + intros Hkey. discriminate Hkey.
    + vm_compute. reflexivity.
    + vm_compute. reflexivity.
    + vm_compute. reflexivity.
    + vm_compute. reflexivity.
    + vm_compute. reflexivity.
    + rewrite Hevents. vm_compute. reflexivity.
  - intros self query.
    set (found := find lib 0 created.1 (<["name" := VStr "Gogol"]> ∅)
                    noOptions created.2).
    edestruct (reference_query_rewritten lib 0 self query noOptions w ds
                 ∅ "authorId.name" "authorId" "name" (VStr "Gogol")
                 (Fixtures.reference "authors" false) "authors"
                 [] {| totalCount := 0 |} found.1.2 found.2 [])
      as [_ Hevents].
    + vm_compute. reflexivity.
    + vm_compute. reflexivity.
    + vm_compute. reflexivity.
    + vm_compute. reflexivity.
    + vm_compute. reflexivity.
    + apply Hfresh. reflexivity.
    + intros Hkey. discriminate Hkey.
    + vm_compute. reflexivity.
    + vm_compute. reflexivity.
    + vm_compute. reflexivity.
    + vm_compute. reflexivity.
    + vm_compute. reflexivity.
    + rewrite Hevents. vm_compute. reflexivity.
Defined.

(** C7, as the claim has it, fails: when the find on the referenced
    collection returns nothing, the path through a field that holds several
    references is replaced by a [$in] over no identifier, which is not a
    [$containsAny] condition. *)
Lemma reference_query_rewritten_counterexample :
  let lib := Fixtures.library "_" in
  let self := Fixtures.books true (Fixtures.settingsWith None None) in
  let ds :=
    Fixtures.store
      [("authors", [("a2", <["_id" := VStr "a2"]> (<["name" := VStr "Orwell"]> ∅))]);
       ("books", [("b1", <["_id" := VStr "b1"]>
                           (<["authorId" := VArr [VStr "a2"]]> ∅))])] in
  let query : doc := <["authorId.name" := VStr "Tolstoy"]> ∅ in
  calls (events (find lib 1 self query noOptions (Fixtures.world (Some ds))).2)
  = [DbFind "authors" (<["name" := VStr "Tolstoy"]> ∅) [];
     DbFind "books" (<["authorId" := VObj [("$in", VArr [])]]> ∅) []].
Proof. intros. vm_compute. reflexivity. Qed.


(** * Further properties of the operations *)

(** ** What [find] does to the world *)

Section OnlyFindsFacts.

Variable lib : Library.

(** X1. Whatever the query and the options, [find] leaves the datastore
    as it is and asks it for nothing that changes documents: the events
    it adds are calls of the datastore's [find], the calls of [index]
    that the constructor of a reference model makes when the schema
    registered for it configures indexes, and what is thrown and not
    caught.  It does not call the callback of an operation that runs
    it. *)
Theorem find_only_reads depth (self : Model) query options w :
  db (find lib depth self query options w).2 = db w /\
  (exists es,
      events (find lib depth self query options w).2 = events w ++ es /\
      Forall findEvent es) /\
  mutations (events (find lib depth self query options w).2)
  = mutations (events w) /\
  dones (events (find lib depth self query options w).2) = dones (events w).
Proof.
  pose proof (onlyFinds_find lib depth self query options w) as H.
  split_and!.
  - apply H.
  - apply H.
  - by apply onlyFinds_mutations.
  - by apply onlyFinds_dones.
Qed.

(** X2. The models that a reference lookup of [find] constructs are
    made without a schema, and so take the schema that the registry has
    under their name: whatever [find] constructs, every model that was
    registered is registered with the same schema afterwards. *)
Theorem find_keeps_registered_schemas depth (self : Model) query options w :
  models w ⊆ models (find lib depth self query options w).2.
Proof. apply (onlyFinds_find lib depth self query options w). Qed.

End OnlyFindsFacts.

(** ** The order of the checks, and the batch that is empty *)

Section CheckFacts.

Variable lib : Library.

(** X3. [create] and [update] look at the connection before they
    validate anything, [delete] and [count] validate the query before
    they look at the connection: without a connection and with a query
    that does not validate, the first two answer with the connection
    error, of status 503, and the other two with the validation error
    [Bad Query], of status 400. *)
Theorem checks_in_order depth (self : Model) documents query payload
    internals req bypass options w :
  db w = None ->
  success (validate_query lib self query) = false ->
  let refused := ValidationError "Bad Query" (validate_query lib self query) in
  create lib self documents internals w
  = emit (Done (inl ConnectionError)) w /\
  update lib depth self query payload internals req bypass w
  = emit (Done (inl ConnectionError)) w /\
  delete lib depth self query req w = emit (Done (inl refused)) w /\
  count lib depth self query options w = (Some (inl refused), self, w) /\
  statusCode ConnectionError = Some 503%Z /\
  statusCode refused = Some 400%Z.
Proof.
  intros Hdb Hq refused. split_and!.
  - unfold create. by rewrite Hdb.
  - unfold update. by rewrite Hdb.
  - unfold delete. by rewrite Hq.
  - unfold count. by rewrite Hq.
  - done.
  - done.
Qed.

(** X4. With a connection, [create] of an empty array of documents
    validates nothing and reads [success] of a validation that is
    undefined: a TypeError is thrown, nothing is asked of the
    datastore and the callback is not called. *)
Theorem create_empty_batch (self : Model) internals w ds :
  db w = Some ds ->
  create lib self [] internals w
  = emit (Throw (TypeError "Cannot read property 'success' of undefined")) w /\
  calls (events (create lib self [] internals w)) = calls (events w) /\
  dones (events (create lib self [] internals w)) = dones (events w).
Proof.
  intros Hdb.
  assert (create lib self [] internals w
          = emit (Throw (TypeError
              "Cannot read property 'success' of undefined")) w) as ->.
  { unfold create. by rewrite Hdb. }
  split_and!; [done| |].
  - unfold calls. simpl. by rewrite omap_app, app_nil_r.
  - by rewrite dones_emit, app_nil_r.
Qed.

End CheckFacts.

Lemma checks_in_order_witness :
  let lib := Samples.library in
  let self := Fixtures.books true (Fixtures.settingsWith None None) in
  let query : doc := <["$where" := VStr "1"]> ∅ in
  let w := Fixtures.world None in
  let refused := ValidationError "Bad Query" (validate_query lib self query) in
  create lib self [∅] None w = emit (Done (inl ConnectionError)) w /\
  update lib 1 self query ∅ None None false w
  = emit (Done (inl ConnectionError)) w /\
  delete lib 1 self query None w = emit (Done (inl refused)) w /\
  count lib 1 self query noOptions w = (Some (inl refused), self, w) /\
  statusCode ConnectionError = Some 503%Z /\
  statusCode refused = Some 400%Z.
Proof.
  intros lib self query w.
  apply (checks_in_order lib 1 self [∅] query ∅ None None false noOptions w).
  - reflexivity.
  - reflexivity.
Defined.

Lemma create_empty_batch_witness :
  let lib := Fixtures.library "_" in
  let self := Fixtures.books true (Fixtures.settingsWith None None) in
  let w := Fixtures.world (Some (Fixtures.store [])) in
  create lib self [] None w
  = emit (Throw (TypeError "Cannot read property 'success' of undefined")) w /\
  calls (events (create lib self [] None w)) = calls (events w) /\
  dones (events (create lib self [] None w)) = dones (events w).
Proof.
  intros lib self w.
  apply (create_empty_batch lib self None w (Fixtures.store [])).
  reflexivity.
Defined.

(** ** Batches: which document decides *)

Section BatchFacts.

Variable lib : Library.

Implicit Types (self : Model) (hooks : list HookConfig) (d : doc).

(** Of pipelines started together, the one that takes the most turns
    ends last; among those that take as many, the one started last. *)
Lemma lastToFinish_decides {A} (before after : list (A * nat)) (a : A) (n : nat) :
  Forall (fun chain => chain.2 <= n) before ->
  Forall (fun chain => chain.2 < n) after ->
  lastToFinish (before ++ (a, n) :: after) = Some a.
Proof.
  intros Hbefore Hafter. unfold lastToFinish. rewrite foldl_app.
  set (step := fun (best : option (A * nat)) (chain : A * nat) =>
                 match best with
                 | Some (_, m) => if (m <=? chain.2)%nat then Some chain else best
                 | None => Some chain
                 end).
  change (foldl step (foldl step None before) ((a, n) :: after))
    with (foldl step (step (foldl step None before) (a, n)) after).
  assert (forall init : option (A * nat),
            from_option (fun c => c.2 <= n) True init ->
            from_option (fun c => c.2 <= n) True (foldl step init before))
    as Hfold.
  { induction Hbefore as [|c chains Hc _ IH]; intros init Hinit; [done|].
    cbn [foldl]. apply IH. destruct init as [[b m]|]; [|done].
    unfold step. by destruct (m <=? c.2)%nat. }
  specialize (Hfold None I).
  assert (step (foldl step None before) (a, n) = Some (a, n)) as ->.
  { destruct (foldl step None before) as [[b m]|]; [|done].
    unfold step. cbn [from_option snd] in Hfold |- *.
    by rewrite (proj2 (Nat.leb_le m n) Hfold). }
  induction Hafter as [|c chains Hc _ IH]; [done|].
  change (foldl step (Some (a, n)) (c :: chains))
    with (foldl step (step (Some (a, n)) c) chains).
  assert (step (Some (a, n)) c = Some (a, n)) as ->; [|done].
  unfold step. by rewrite (proj2 (Nat.leb_gt n c.2) Hc).
Qed.

(** A pipeline that passes every handler takes one turn for each. *)
Lemma pipelineTurns_passes type self docs hooks d :
  (async_reduce hooks d (hookIteratee lib type self docs)).1.1 = None ->
  pipelineTurns lib type self docs hooks d = length hooks.
Proof.
  revert d. induction hooks as [|h hooks IH]; intros d; [done|].
  cbn [async_reduce pipelineTurns length]. unfold hookIteratee at 1.
  destruct (hook_apply lib h type self d docs) as [newDoc| |err]; [|done|done].
  specialize (IH newDoc).
  destruct (async_reduce hooks newDoc _) as [[err r] n]. cbn [fst] in *.
  intros Hnone. by rewrite IH.
Qed.

(** A pipeline takes one turn more than it has handlers at most, and
    does so only when its last handler rejects. *)
Lemma pipelineTurns_bound type self docs hooks d :
  pipelineTurns lib type self docs hooks d <= length hooks \/
  (pipelineTurns lib type self docs hooks d = S (length hooks) /\
   exists err, rejectedByLast lib type self docs hooks d err).
Proof.
  revert d. induction hooks as [|h hooks IH]; intros d; [by left|].
  cbn [pipelineTurns length].
  destruct (hook_apply lib h type self d docs) as [newDoc| |e] eqn:Hh.
  - destruct (IH newDoc)
      as [Hle|[Heq (err & pre & h' & current & n & e & -> & Hpre & Hlast & ->)]].
    + left. lia.
    + right. split; [lia|]. exists (hook_formatError lib h' e).
      exists (h :: pre), h', current, (S n), e. split_and!; try done.
      cbn [async_reduce]. unfold hookIteratee at 1. by rewrite Hh, Hpre.
  - left. lia.
  - destruct hooks as [|h' hooks]; [|left; simpl; lia].
    right. split; [done|]. exists (hook_formatError lib h e).
    by exists [], h, d, 0, e.
Qed.

(** A pipeline whose last handler rejects takes one turn more than it
    has handlers, and ends with the error of that handler. *)
Lemma pipelineTurns_rejected type self docs hooks d err :
  rejectedByLast lib type self docs hooks d err ->
  pipelineTurns lib type self docs hooks d = S (length hooks) /\
  (async_reduce hooks d (hookIteratee lib type self docs)).1.1 = Some err.
Proof.
  intros (pre & h & current & n & e & -> & Hpre & Hlast & ->).
  revert d n Hpre. induction pre as [|p pre IH]; intros d n Hpre.
  - injection Hpre as <- <-. cbn [app pipelineTurns async_reduce length].
    unfold hookIteratee. by rewrite Hlast.
  - cbn [app pipelineTurns async_reduce length] in Hpre |- *.
    unfold hookIteratee at 1 in Hpre. unfold hookIteratee at 1.
    destruct (hook_apply lib p type self d docs) as [newDoc| |e']; [|done|done].
    destruct (async_reduce pre newDoc _) as [[err r] m] eqn:Hrest.
    injection Hpre as -> -> <-.
    destruct (IH newDoc m Hrest) as [-> Herr].
    split; [done|].
    by destruct (async_reduce (pre ++ [h]) newDoc _) as [[err r] k].
Qed.

(** X5. In [create], each document has its own [beforeCreate] pipeline,
    and the callback that finds all pipelines ended looks at the error
    of its own pipeline only.  The answers of the handlers are settled
    when the handlers return: one that resolves reaches its callback in
    the next turn of the event loop, one that rejects a turn later.  So
    when the last document passes every handler and no document before
    it is rejected by the last handler of the pipeline, the whole batch
    is inserted, whatever the handlers made of the documents before it;
    and when a document is rejected by the last handler of the pipeline
    and none after it is, the callback receives the error of that
    document and nothing is inserted, although the documents after it
    may have passed every handler. *)
Theorem beforeCreate_last_pipeline_decides self hooks w :
  s_hooks (settings self) ≫= beforeCreate = Some hooks ->
  (forall documents last,
      (async_reduce hooks last (hookIteratee lib "beforeCreate" self [])).1.1
      = None ->
      (forall d err,
          d ∈ documents ->
          ~ rejectedByLast lib "beforeCreate" self [] hooks d err) ->
      create_startInsert lib self (documents ++ [last]) w
      = create_saveDocuments lib self (documents ++ [last]) w) /\
  (forall before document after err,
      rejectedByLast lib "beforeCreate" self [] hooks document err ->
      (forall d err,
          d ∈ after ->
          ~ rejectedByLast lib "beforeCreate" self [] hooks d err) ->
      create_startInsert lib self (before ++ document :: after) w
      = emit (Done (inl (HookErrorResponse err))) w).
Proof.
  intros Hhooks.
  assert (forall d,
             (forall err, ~ rejectedByLast lib "beforeCreate" self [] hooks d err) ->
             pipelineTurns lib "beforeCreate" self [] hooks d <= length hooks)
    as Hearly.
  { intros d Hnot.
    destruct (pipelineTurns_bound "beforeCreate" self [] hooks d)
      as [Hle|[_ [err Herr]]]; [done|]. by destruct (Hnot err). }
  split.
  - intros documents last Hlast Hnone.
    unfold create_startInsert. rewrite Hhooks. cbv zeta.
    rewrite fmap_app. cbn [fmap list_fmap].
    rewrite (pipelineTurns_passes _ _ _ _ _ Hlast), Hlast.
    rewrite lastToFinish_decides; [done| |done].
    apply Forall_fmap, Forall_forall. intros d Hd.
    cbv beta delta [Basics.compose]. cbn [snd].
    apply Hearly. intros err. by apply Hnone.
  - intros before document after err Hrejected Hnone.
    destruct (pipelineTurns_rejected _ _ _ _ _ _ Hrejected) as [Hturns Herr].
    unfold create_startInsert. rewrite Hhooks. cbv zeta.
    rewrite fmap_app. cbn [fmap list_fmap]. rewrite Hturns, Herr.
    rewrite lastToFinish_decides; [done| |].
    + apply Forall_fmap, Forall_forall. intros d Hd.
      cbv beta delta [Basics.compose]. cbn [snd].
      destruct (pipelineTurns_bound "beforeCreate" self [] hooks d)
        as [Hle|[-> _]]; lia.
    + apply Forall_fmap, Forall_forall. intros d Hd.
      cbv beta delta [Basics.compose]. cbn [snd].
      pose proof (Hearly d (fun err => Hnone d err Hd)). lia.
Qed.

(** The composer that answers without a call of the datastore leaves
    the world as it is. *)
Lemma createFromComposed_pure self (answer : doc -> value + doc) d w ds :
  db w = Some ds ->
  (forall d ds, composer_createFromComposed lib self d ds = (answer d, ds, [])) ->
  createFromComposed lib self d w = (answer d, w).
Proof.
  intros Hdb Hpure. unfold createFromComposed. rewrite Hdb, Hpure.
  f_equal. destruct w as [database registry trace]. simpl in *.
  by rewrite Hdb, app_nil_r.
Qed.

(** X6. The loop that ends [create] hands every document to the
    composer, in the order of the batch, and only the callback of the
    last document starts the insert.  With a composer that answers
    without a call of the datastore: each failure on a document before
    the last is handed to the callback of [create], in that order, and
    the loop goes on with the document as it was; then a failure on the
    last document is handed to the callback and nothing is inserted,
    and a success on it starts the insert of all the documents, those
    that failed as they were and the others as the composer made
    them. *)
Theorem create_last_composition_decides self (answer : doc -> value + doc)
    documents processed last w ds :
  db w = Some ds ->
  (forall d ds, composer_createFromComposed lib self d ds = (answer d, ds, [])) ->
  let failures :=
    omap (fun d => match answer d with
                   | inl json => Some (Done (inl (ComposeError json)))
                   | inr _ => None
                   end) documents in
  let composed :=
    (fun d => match answer d with inl _ => d | inr d' => d' end)
      <$> documents in
  let w1 :=
    {| db := db w; models := models w; events := events w ++ failures |} in
  create_fromComposed lib self processed (documents ++ [last]) w
  = match answer last with
    | inl json => emit (Done (inl (ComposeError json))) w1
    | inr last' =>
        create_startInsert lib self (processed ++ composed ++ [last']) w1
    end.
Proof.
  intros Hdb Hpure. revert processed w Hdb.
  induction documents as [|doc documents IH]; intros processed w Hdb.
  - cbn [app omap list_omap fmap list_fmap create_fromComposed].
    rewrite (createFromComposed_pure self answer last w ds Hdb Hpure).
    assert ({| db := db w; models := models w; events := events w ++ [] |} = w)
      as ->.
    { destruct w. simpl. by rewrite app_nil_r. }
    by destruct (answer last).
  - cbn [app create_fromComposed].
    rewrite (createFromComposed_pure self answer doc w ds Hdb Hpure).
    assert (forall processed' w',
               match documents ++ [last] with
               | [] => create_startInsert lib self processed' w'
               | _ :: _ =>
                   create_fromComposed lib self processed'
                     (documents ++ [last]) w'
               end
               = create_fromComposed lib self processed'
                   (documents ++ [last]) w') as Hrest
      by (intros; by destruct documents).
    cbn [omap list_omap fmap list_fmap].
    destruct (answer doc) as [json|doc'] eqn:Hdoc.
    + rewrite (IH (processed ++ [doc])
                 (emit (Done (inl (ComposeError json))) w) Hdb).
      cbn [db models events emit]. rewrite <-(app_assoc (events w)).
      destruct (answer last) as [json'|last']; [reflexivity|].
      by rewrite <-(app_assoc processed).
    + rewrite Hrest, (IH (processed ++ [doc']) w Hdb).
      destruct (answer last) as [json'|last']; [reflexivity|].
      by rewrite <-(app_assoc processed).
Qed.

End BatchFacts.

Lemma beforeCreate_last_pipeline_decides_witness :
  let lib := Samples.library in
  let draft : doc := <["name" := VStr "1984"]> (<["draft" := VBool true]> ∅) in
  let final : doc := <["name" := VStr "Animal Farm"]> ∅ in
  let w := Fixtures.world (Some (Fixtures.store [])) in
  (let self :=
     Fixtures.books true
       (Fixtures.settingsWith None
          (Some (Fixtures.hooksBefore ["review"; "approve"]))) in
   create_startInsert lib self ([draft] ++ [final]) w
   = create_saveDocuments lib self ([draft] ++ [final]) w) /\
  (let self :=
     Fixtures.books true
       (Fixtures.settingsWith None (Some (Fixtures.hooksBefore ["review"]))) in
   create_startInsert lib self ([] ++ draft :: [final]) w
   = emit (Done (inl (HookErrorResponse
                        (hook_formatError lib "review" (VStr "draft"))))) w).
Proof.
  intros lib draft final w. split.
  - intros self.
    refine (proj1 (beforeCreate_last_pipeline_decides lib self
                     ["review"; "approve"] w eq_refl) [draft] final eq_refl _).
    intros d err Hd (pre & h & current & n & e & Hsplit & Hpre & _).
    apply list_elem_of_singleton in Hd. subst d.
    destruct pre as [|p [|p' pre]].
    + discriminate Hsplit.
    + injection Hsplit as <- <-. vm_compute in Hpre. discriminate Hpre.
    + injection Hsplit as _ _ Hrest. destruct pre; discriminate Hrest.
  - intros self.
    refine (proj2 (beforeCreate_last_pipeline_decides lib self ["review"] w
                     eq_refl) [] draft [final] _ _ _).
    + exists [], "review", draft, 0, (VStr "draft").
      split_and!; reflexivity.
    + intros d err Hd (pre & h & current & n & e & Hsplit & Hpre & Hlast & _).
      apply list_elem_of_singleton in Hd. subst d.
      destruct pre as [|p pre].
      * injection Hsplit as <-. injection Hpre as <- _.
        vm_compute in Hlast. discriminate Hlast.
      * injection Hsplit as _ Hrest. destruct pre; discriminate Hrest.
Defined.

Lemma create_last_composition_decides_witness :
  let lib := Samples.library in
  let self := Fixtures.books true (Fixtures.settingsWith None None) in
  let broken : doc := <["name" := VStr "1984"]> (<["broken" := VBool true]> ∅) in
  let sound : doc := <["name" := VStr "Animal Farm"]> ∅ in
  let w := Fixtures.world (Some (Fixtures.store [])) in
  create_fromComposed lib self [] ([broken] ++ [sound]) w
  = create_startInsert lib self [broken; sound]
      {| db := db w; models := models w;
         events := events w ++ [Done (inl (ComposeError (VStr "broken")))] |}.
Proof.
  intros lib self broken sound w.
  rewrite (create_last_composition_decides lib self
             (fun d => match d !! "broken" with
                       | Some _ => inl (VStr "broken")
                       | None => inr d
                       end) [broken] [] sound w (Fixtures.store [])).
  - vm_compute. reflexivity.
  - reflexivity.
  - intros d ds.
    change (composer_createFromComposed lib self d ds)
      with (Samples.fragile d ds).
    unfold Samples.fragile. destruct (d !! "broken"); reflexivity.
Defined.

(** A batch of two documents, the first of which the composer fails on:
    the callback of [create] receives the failure, and then the two
    documents as they were inserted. *)
Lemma create_calls_back_twice :
  let lib := Samples.library in
  let self := Fixtures.books true (Fixtures.settingsWith None None) in
  let broken : doc := <["name" := VStr "1984"]> (<["broken" := VBool true]> ∅) in
  let sound : doc := <["name" := VStr "Animal Farm"]> ∅ in
  let w :=
    create lib self [broken; sound] None
      (Fixtures.world (Some (Fixtures.store []))) in
  (fun r : Err + Result =>
     match r with
     | inl err => inl err
     | inr (Created results) => inr (length results)
     | inr _ => inr 0
     end) <$> dones (events w)
  = [inl (ComposeError (VStr "broken")); inr 2] /\
  size (documentsOf w "books") = 2.
Proof.
  intros. split; vm_compute; reflexivity.
Qed.


(** ** How often the callback is called *)

Section CallbackFacts.

Variable lib : Library.

Lemma atMostOnce_refl w : atMostOnce w w.
Proof. by left. Qed.

Lemma atMostOnce_emit e w : atMostOnce w (emit e w).
Proof.
  unfold atMostOnce. rewrite dones_emit.
  destruct e; rewrite ?app_nil_r; eauto.
Qed.

(** Steps that do not call the callback, before one that calls it at
    most once. *)
Lemma atMostOnce_after w w1 w2 :
  dones (events w1) = dones (events w) -> atMostOnce w1 w2 -> atMostOnce w w2.
Proof. unfold atMostOnce. intros ->. done. Qed.

Lemma atMostOnce_before w w1 w2 :
  atMostOnce w w1 -> dones (events w2) = dones (events w1) -> atMostOnce w w2.
Proof. unfold atMostOnce. intros H ->. done. Qed.

Lemma database_update_dones c query u w :
  dones (events (database_update c query u w).2) = dones (events w).
Proof.
  unfold database_update.
  pose proof (dones_emit (Call (DbUpdate c query u)) w) as He.
  rewrite app_nil_r in He. simpl.
  destruct (db w) as [ds|]; [|done].
  by destruct (ds_update ds c query u) as [message|[matched ds']].
Qed.

Lemma database_delete_dones c query w :
  dones (events (database_delete c query w).2) = dones (events w).
Proof.
  unfold database_delete.
  pose proof (dones_emit (Call (DbDelete c query)) w) as He.
  rewrite app_nil_r in He. simpl.
  destruct (db w) as [ds|]; [|done].
  by destruct (ds_delete ds c query) as [message|[deleted ds']].
Qed.

Lemma History_createEach_dones objs kind (model : Model) w :
  dones (events (History_createEach objs kind model w).2) = dones (events w).
Proof.
  revert w. induction objs as [|obj objs IH]; intros w; [done|].
  cbn [History_createEach].
  pose proof (database_insert_dones (default "" (revisionCollection model))
                [revisionRecord kind obj] w) as H1.
  destruct (database_insert _ _ w) as [[message|results] w1]; [done|].
  simpl in H1. destruct (head results ≫= idString) as [revisionId|]; [|done].
  pose proof (database_update_dones (name model)
                (<["_id" := default VNull (obj !! "_id")]> ∅)
                {| u_set := ∅; u_inc := [];
                   u_push := [("_history", VStr revisionId)] |} w1) as H2.
  destruct (database_update _ _ _ w1) as [[message|matched] w2]; simpl in H2.
  - simpl. congruence.
  - rewrite IH. congruence.
Qed.

Lemma findOutcome_dones depth (self : Model) query options w :
  dones (events (findOutcome lib depth self query options w).2)
  = dones (events w).
Proof. apply onlyFinds_dones, onlyFinds_findOutcome. Qed.

Lemma thrownInCallback_once guarded e w :
  atMostOnce w (thrownInCallback guarded e w).
Proof. unfold thrownInCallback. destruct guarded; apply atMostOnce_emit. Qed.

Lemma delete_deleteDocuments_once (self : Model) query deletedDocs allDocs w :
  atMostOnce w (delete_deleteDocuments self query deletedDocs allDocs w).
Proof.
  unfold delete_deleteDocuments.
  pose proof (database_delete_dones (name self) query w) as H1.
  destruct (database_delete _ _ w) as [[message|deleted] w1]; simpl in H1.
  - eapply atMostOnce_after; [done|apply atMostOnce_emit].
  - eapply atMostOnce_after; [|apply atMostOnce_emit].
    destruct (0 <? deleted)%nat; [|done].
    by rewrite dones_applyAfterHooks, dones_emit, app_nil_r.
Qed.

Lemma delete_beforeDelete_once (self : Model) query deletedDocs allDocs w :
  atMostOnce w (delete_beforeDelete lib self query deletedDocs allDocs w).
Proof.
  unfold delete_beforeDelete.
  destruct (s_hooks (settings self) ≫= beforeDelete) as [hooks|];
    [|apply delete_deleteDocuments_once].
  destruct (async_reduce hooks query _) as [[[err|] r] n];
    [apply atMostOnce_emit|apply delete_deleteDocuments_once].
Qed.

Lemma update_refetch_once depth (self : Model) updatedDocs matched bypass w :
  atMostOnce w (update_refetch lib depth self updatedDocs matched bypass w).
Proof.
  unfold update_refetch.
  destruct (pluckIds updatedDocs) as [ids|]; [|apply atMostOnce_emit].
  pose proof (findOutcome_dones depth self
                (<["_id" := VObj [("$in", idValues ids)]]> ∅)
                {| o_compose := Some true; o_fields := [] |} w) as H1.
  destruct (findOutcome lib depth self _ _ w)
    as [[[[err|[results md]] guarded| |e] m] w1]; simpl in H1.
  - eapply atMostOnce_after; [done|apply atMostOnce_emit].
  - eapply atMostOnce_after; [done|].
    destruct (matched =? 0)%nat; [apply atMostOnce_emit|].
    eapply atMostOnce_after; [apply dones_applyAfterHooks|].
    destruct (searcher m); [|apply thrownInCallback_once].
    eapply atMostOnce_after; [|apply atMostOnce_emit].
    by rewrite dones_emit, app_nil_r.
  - by left.
  - eapply atMostOnce_after; [done|apply atMostOnce_emit].
Qed.

Lemma update_saveDocuments_once depth (self : Model) query payload
    updatedDocs req bypass w :
  atMostOnce w (update_saveDocuments lib depth self query payload updatedDocs
                  req bypass w).
Proof.
  unfold update_saveDocuments. cbv zeta.
  pose proof (database_update_dones (name self) query
                {| u_set := payload; u_inc := [("_version", 1%Z)];
                   u_push := [] |} w) as H1.
  destruct (database_update _ _ _ w) as [[message|matched] w1]; simpl in H1.
  - eapply atMostOnce_after; [done|apply atMostOnce_emit].
  - eapply atMostOnce_after; [done|].
    destruct (isRestIDQuery req && (matched =? 0)%nat);
      [apply atMostOnce_emit|].
    destruct (history self).
    + pose proof (History_createEach_dones updatedDocs "update" self w1) as H2.
      destruct (History_createEach _ _ _ w1) as [[err|] w2]; simpl in H2.
      * eapply atMostOnce_after; [done|apply atMostOnce_emit].
      * eapply atMostOnce_after; [done|apply update_refetch_once].
    + apply update_refetch_once.
Qed.

(** X7. [delete] and [update] call the callback at most once, whatever
    the datastore, the validator, the composer, the hooks and the
    history do, and whatever is thrown in the callbacks of their
    finds. *)
Theorem delete_update_call_back_once depth (self : Model) query payload
    internals req bypass w :
  atMostOnce w (delete lib depth self query req w) /\
  atMostOnce w (update lib depth self query payload internals req bypass w).
Proof.
  split.
  - unfold delete. cbv zeta.
    destruct (negb _); [apply atMostOnce_emit|].
    destruct (db w); [|apply atMostOnce_emit].
    pose proof (findOutcome_dones depth self ∅
                  {| o_compose := Some false; o_fields := [] |} w) as H1.
    destruct (findOutcome lib depth self ∅ _ w)
      as [[[[err|[all allDocs]] guarded| |e] m1] w1]; simpl in H1.
    + eapply atMostOnce_after; [done|apply atMostOnce_emit].
    + eapply atMostOnce_after; [done|].
      pose proof (findOutcome_dones depth m1
                    (formatQuery (internalFieldsPrefix lib) query)
                    {| o_compose := Some false; o_fields := [] |} w1) as H2.
      destruct (findOutcome lib depth m1 _ _ w1)
        as [[[[err|[deletedDocs md]] guarded'| |e] m2] w2]; simpl in H2.
      * eapply atMostOnce_after; [done|apply atMostOnce_emit].
      * eapply atMostOnce_after; [done|].
        destruct (isRestIDQuery req && (length deletedDocs =? 0)%nat);
          [apply atMostOnce_emit|].
        destruct (history m2 && (0 <? length deletedDocs)%nat).
        -- pose proof (History_createEach_dones deletedDocs "delete" m2 w2)
             as H3.
           destruct (History_createEach _ _ _ w2) as [[err|] w3]; simpl in H3.
           ++ eapply atMostOnce_after; [|apply atMostOnce_emit].
              by rewrite dones_emit, app_nil_r.
           ++ eapply atMostOnce_after; [done|apply delete_beforeDelete_once].
        -- apply delete_beforeDelete_once.
      * by left.
      * eapply atMostOnce_after; [done|apply thrownInCallback_once].
    + by left.
    + eapply atMostOnce_after; [done|apply atMostOnce_emit].
  - unfold update. cbv zeta.
    destruct (db w); [|apply atMostOnce_emit].
    destruct (negb _); [apply atMostOnce_emit|].
    destruct (negb _); [apply atMostOnce_emit|].
    pose proof (findOutcome_dones depth self
                  (formatQuery (internalFieldsPrefix lib) query)
                  noOptions w) as H1.
    destruct (findOutcome lib depth self _ noOptions w)
      as [[[[err|[results md]] guarded| |e] m1] w1]; simpl in H1.
    + eapply atMostOnce_after; [done|apply atMostOnce_emit].
    + eapply atMostOnce_after; [done|].
      destruct (createFromComposed lib m1 _ w1) as [[json|payload'] w2] eqn:Hc.
      * eapply atMostOnce_after;
          [by eapply createFromComposed_dones|apply atMostOnce_emit].
      * eapply atMostOnce_after; [by eapply createFromComposed_dones|].
        unfold update_startUpdate.
        pose proof (findOutcome_dones depth m1
                      (formatQuery (internalFieldsPrefix lib) query)
                      {| o_compose := Some false; o_fields := [] |} w2) as H2.
        destruct (findOutcome lib depth m1 _ _ w2)
          as [[[[err|found] guarded'| |e] m2] w3]; simpl in H2.
        -- eapply atMostOnce_after; [done|apply atMostOnce_emit].
        -- eapply atMostOnce_after; [done|].
           unfold update_beforeUpdate.
           destruct (s_hooks (settings m2) ≫= beforeUpdate) as [hooks|];
             [|apply update_saveDocuments_once].
           destruct (async_reduce hooks payload' _) as [[[err|] r] n];
             [apply atMostOnce_emit|apply update_saveDocuments_once].
        -- by left.
        -- eapply atMostOnce_after; [done|apply thrownInCallback_once].
    + by left.
    + eapply atMostOnce_after; [done|apply atMostOnce_emit].
Qed.

End CallbackFacts.


(** ** [formatQuery] and the null values of [formatResultSet] *)

Section QueryFormattingFacts.

Variable prefix : string.

Implicit Types (query acc : doc) (l : list string).

(** The callback of the loop of [formatQuery]. *)
Lemma formatQuery_fold query :
  formatQuery prefix query
  = foldl (fun newQuery key =>
             match query !! key with
             | Some v => setField (queryKey prefix key) v newQuery
             | None => newQuery
             end) ∅ (elements (dom query)).
Proof. done. Qed.

Lemma formatQuery_fold_other query l acc x :
  (x = "__proto__" \/ forall k, k ∈ l -> queryKey prefix k <> x) ->
  foldl (fun newQuery key =>
           match query !! key with
           | Some v => setField (queryKey prefix key) v newQuery
           | None => newQuery
           end) acc l !! x = acc !! x.
Proof.
  revert acc. induction l as [|k l IH]; intros acc Hout; [done|].
  simpl. rewrite IH.
  - destruct (query !! k); [|done].
    rewrite lookup_setField, decide_False; [done|].
    intros [Hk Hproto]. destruct Hout as [->|Hout]; [done|].
    apply (Hout k); [by left|done].
  - destruct Hout as [->|Hout]; [by left|].
    right. intros k' Hk'. apply Hout. by right.
Qed.

Lemma formatQuery_fold_key query l acc k :
  NoDup l -> k ∈ l ->
  queryKey prefix k <> "__proto__" ->
  (forall k', k' ∈ l -> queryKey prefix k' = queryKey prefix k -> k' = k) ->
  foldl (fun newQuery key =>
           match query !! key with
           | Some v => setField (queryKey prefix key) v newQuery
           | None => newQuery
           end) acc l !! queryKey prefix k
  = match query !! k with
    | Some v => Some v
    | None => acc !! queryKey prefix k
    end.
Proof.
  revert acc. induction l as [|a l IH]; intros acc Hnd Hin Hproto Hinj.
  { by apply elem_of_nil in Hin. }
  apply NoDup_cons in Hnd as [Hna Hnd]. simpl.
  destruct (decide (a = k)) as [->|Hne].
  - rewrite formatQuery_fold_other.
    + destruct (query !! k); [|done].
      by rewrite lookup_setField, decide_True.
    + right. intros k' Hk' Heq. apply Hinj in Heq; [by subst|by right].
  - apply elem_of_cons in Hin as [->|Hin]; [done|].
    rewrite IH; [|done|done|done|intros; apply Hinj; [by right|done]].
    destruct (query !! k); [done|].
    destruct (query !! a); [|done].
    rewrite lookup_setField_ne; [done|].
    intros Heq. apply Hne, Hinj; [by left|done].
Qed.

(** X8. [formatQuery] keeps the conditions of the query, each under the
    key that the prefix of the internal fields gives it: a key that
    starts with the prefix has its first character replaced by an
    underscore, any other key stays.  A condition whose key becomes
    [__proto__] is lost: the assignment to that key of the new query
    makes no field.  This holds when no two keys of the query are given
    the same key; nothing else is in the formatted query. *)
Theorem formatQuery_conditions query :
  (forall k1 k2, k1 ∈ dom query -> k2 ∈ dom query ->
                 queryKey prefix k1 = queryKey prefix k2 -> k1 = k2) ->
  (forall k, k ∈ dom query ->
             queryKey prefix k <> "__proto__" ->
             formatQuery prefix query !! queryKey prefix k = query !! k) /\
  formatQuery prefix query !! "__proto__" = None /\
  (forall x, (forall k, k ∈ dom query -> queryKey prefix k <> x) ->
             formatQuery prefix query !! x = None).
Proof.
  intros Hinj. rewrite formatQuery_fold. split_and!.
  - intros k Hk Hproto. rewrite formatQuery_fold_key.
    + apply elem_of_dom in Hk as [v Hv]. by rewrite Hv.
    + apply NoDup_elements.
    + by apply elem_of_elements.
    + done.
    + intros k' Hk'%elem_of_elements. by apply Hinj.
  - rewrite formatQuery_fold_other; [done|by left].
  - intros x Hout. rewrite formatQuery_fold_other; [done|].
    right. intros k Hk%elem_of_elements. by apply Hout.
Qed.

End QueryFormattingFacts.

Lemma formatQuery_conditions_witness :
  let query : doc :=
    <["$id" := VStr "b1"]> (<["name" := VStr "1984"]> ∅) in
  (forall k, k ∈ dom query ->
             queryKey "$" k <> "__proto__" ->
             formatQuery "$" query !! queryKey "$" k = query !! k) /\
  formatQuery "$" query !! "__proto__" = None /\
  (forall x, (forall k, k ∈ dom query -> queryKey "$" k <> x) ->
             formatQuery "$" query !! x = None).
Proof.
  intros query.
  apply (formatQuery_conditions "$" query).
  intros k1 k2 Hk1 Hk2.
  assert (forall k, k ∈ dom query -> k = "$id" \/ k = "name") as Hdom.
  { intros k Hk. unfold query in Hk. rewrite !dom_insert_L, dom_empty_L in Hk.
    repeat (apply elem_of_union in Hk as [Hk|Hk]).
    - left. by apply elem_of_singleton in Hk.
    - right. by apply elem_of_singleton in Hk.
    - by apply elem_of_empty in Hk. }
  destruct (Hdom k1 Hk1) as [->| ->], (Hdom k2 Hk2) as [->| ->];
    vm_compute; congruence.
Defined.

(** X9. With the default prefix of the internal fields, an underscore,
    [formatQuery] returns the query it is given, without the condition
    under the key [__proto__] when it has one. *)
Theorem formatQuery_default (query : doc) :
  formatQuery "_" query = base.delete "__proto__" query.
Proof.
  assert (forall k, queryKey "_" k = k) as Hkey by done.
  rewrite formatQuery_fold. apply map_eq. intros k.
  destruct (decide (k = "__proto__")) as [->|Hproto].
  { rewrite lookup_delete_eq. rewrite formatQuery_fold_other; [done|by left]. }
  rewrite lookup_delete_ne; [|done].
  destruct (decide (k ∈ dom query)) as [Hk|Hk].
  - rewrite <-(Hkey k) at 1. rewrite formatQuery_fold_key.
    + apply elem_of_dom in Hk as [v Hv]. by rewrite Hv.
    + apply NoDup_elements.
    + by apply elem_of_elements.
    + by rewrite Hkey.
    + intros k' _. by rewrite !Hkey.
  - rewrite formatQuery_fold_other.
    + rewrite lookup_empty. symmetry. by apply not_elem_of_dom.
    + right. intros k' Hk'%elem_of_elements. rewrite Hkey. by intros ->.
Qed.

Section NullFacts.

Implicit Types (document acc : doc) (from to field : string).

Lemma formatField_fold_no_null from to document (l : list string) acc :
  (forall k, acc !! k <> Some VNull) ->
  forall k, foldl (formatField from to document) acc l !! k <> Some VNull.
Proof.
  revert acc. induction l as [|a l IH]; intros acc Hacc; [done|].
  simpl. apply IH. intros k. unfold formatField.
  destruct (document !! a) as [v|] eqn:Ha; [|done].
  destruct v; try done.
  all: rewrite lookup_setField; by case_decide.
Qed.

Lemma formatDocument_no_null from to document k :
  formatDocument from to document !! k <> Some VNull.
Proof.
  apply formatField_fold_no_null. intros k'. by rewrite lookup_empty.
Qed.

Lemma formatResultSet_no_null prefix (results : ResultSet)
    (formatForInput : bool) :
  withoutNull (formatResultSet prefix results formatForInput).
Proof.
  destruct results as [document|documents]; simpl.
  - apply formatDocument_no_null.
  - induction documents as [|d documents IH]; constructor; [|done].
    apply formatDocument_no_null.
Qed.

(** X10. Whatever the prefix of the internal fields and the direction,
    [formatResultSet] returns documents without a null-valued field,
    one for each document it is given; with the default prefix, the
    formatting for output does nothing else to a document that has no
    field [__proto__]: it returns each document without its null-valued
    fields.  A field [__proto__] is lost as well. *)
Theorem formatResultSet_strips_nulls prefix (results : ResultSet)
    (formatForInput : bool) :
  withoutNull (formatResultSet prefix results formatForInput) /\
  (withoutField "__proto__" results ->
   formatResultSetForOutput "_" results = stripNullsSet results) /\
  withoutField "__proto__" (formatResultSet prefix results formatForInput).
Proof.
  assert (forall d : doc, d !! "__proto__" = None ->
                          base.delete "__proto__" (stripNulls d) = stripNulls d)
    as Hsame.
  { intros d Hd. apply delete_id. unfold stripNulls.
    by rewrite lookup_omap, Hd. }
  split_and!; [apply formatResultSet_no_null| |].
  - destruct results as [document|documents]; simpl.
    + intros Hd. by rewrite formatDocument_default, Hsame.
    + intros Hall. f_equal. apply Forall_fmap_ext_1.
      eapply Forall_impl; [exact Hall|].
      intros d Hd. simpl. by rewrite formatDocument_default, Hsame.
  - destruct results as [document|documents]; simpl.
    + apply formatDocument_proto.
    + apply Forall_fmap, Forall_forall. intros d _. apply formatDocument_proto.
Qed.

End NullFacts.

Lemma formatResultSet_strips_nulls_witness :
  let d : doc := <["name" := VStr "1984"]> (<["_rating" := VNull]> ∅) in
  formatResultSetForOutput "_" (Multiple [d])
  = Multiple [<["name" := VStr "1984"]> ∅].
Proof.
  intros d.
  rewrite (proj1 (proj2 (formatResultSet_strips_nulls "_" (Multiple [d]) false))).
  - vm_compute. reflexivity.
  - repeat constructor.
Defined.


(** ** Keys in dot notation *)

Section KeyFacts.

Implicit Types (s first rest : string) (c : ascii).

Lemma indexOf_append c first rest :
  indexOf c first = None ->
  indexOf c (first +:+ String c rest) = Some (String.length first).
Proof.
  induction first as [|a first IH]; simpl.
  - by rewrite Ascii.eqb_refl.
  - destruct (Ascii.eqb a c); [done|].
    destruct (indexOf c first); [done|]. intros _. by rewrite IH.
Qed.

Lemma split_append c first rest :
  indexOf c first = None ->
  split c (first +:+ String c rest) = first :: split c rest.
Proof.
  induction first as [|a first IH]; simpl.
  - by rewrite Ascii.eqb_refl.
  - destruct (Ascii.eqb a c); [done|].
    destruct (indexOf c first); [done|]. intros _. by rewrite IH.
Qed.

Lemma split_whole c s : indexOf c s = None -> split c s = [s].
Proof.
  induction s as [|a s IH]; simpl; [done|].
  destruct (Ascii.eqb a c); [done|].
  destruct (indexOf c s); [done|]. intros _. by rewrite IH.
Qed.

(** X11. [isKeyValid] looks at the first segment of a key in dot
    notation and at nothing after it: a key [first.rest] that is not
    itself a property of the schema is valid exactly when [first] is a
    property of the schema whose type has [Mixed], [Object] or
    [Reference] in it.  The properties of the schema are its fields,
    its settings and what an object inherits, such as [constructor];
    of these only the fields have a type. *)
Theorem isKeyValid_first_segment (self : Model) first rest :
  indexOf "."%char first = None ->
  first <> "" ->
  isKeyValid self (first +:+ "." +:+ rest)
  = match schemaProperty (schema self) (first +:+ "." +:+ rest) with
    | Some _ => true
    | None =>
        match sc_fields (schema self) !! first with
        | Some fieldSchema => compositeType (Some (f_type fieldSchema))
        | None => false
        end
    end.
Proof.
  intros Hdot Hne. unfold isKeyValid.
  change ("." +:+ rest) with (String "."%char rest).
  assert (String.eqb (first +:+ String "." rest) "_id" = false) as ->.
  { apply String.eqb_neq. intros Heq.
    pose proof (indexOf_append "."%char first rest Hdot) as Hi.
    by rewrite Heq in Hi. }
  rewrite orb_false_l.
  destruct (schemaProperty (schema self) (first +:+ String "." rest));
    [done|].
  rewrite indexOf_append, split_append by done.
  change (default "" (head (first :: split "." rest))) with first.
  assert (String.length first <> 0) as Hlen by by destruct first.
  destruct (String.length first); [done|].
  unfold schemaProperty.
  destruct (sc_fields (schema self) !! first); [done|].
  assert (compositeType None = false) as Hnone by (vm_compute; reflexivity).
  destruct (String.eqb first "settings" && _); [exact Hnone|].
  destruct (bool_decide _); [exact Hnone|done].
Qed.

End KeyFacts.

Lemma isKeyValid_first_segment_witness :
  let self := Fixtures.books true (Fixtures.settingsWith None None) in
  isKeyValid self ("authorId" +:+ "." +:+ "name.first") = true /\
  isKeyValid self ("constructor" +:+ "." +:+ "name") = false.
Proof.
  intros self. split.
  - rewrite (isKeyValid_first_segment self "authorId" "name.first").
    + vm_compute. reflexivity.
    + reflexivity.
    + discriminate.
  - rewrite (isKeyValid_first_segment self "constructor" "name").
    + vm_compute. reflexivity.
    + reflexivity.
    + discriminate.
Defined.

(** ** The model chain and the queries that need none *)

Section ChainFacts.

Variable getForeignModel : string -> option Reference.FieldModel.
Variable rootModel : Reference.FieldModel.

Lemma chainStep_length fields chain index field n :
  match chain with
  | Reference.Resolved (Some chain) =>
      length chain = n /\ (n <> 0 -> head chain = Some (Some rootModel))
  | _ => True
  end ->
  match Reference.chainStep getForeignModel rootModel fields chain index
          field with
  | Reference.Resolved (Some chain) =>
      length chain = S n /\ head chain = Some (Some rootModel)
  | _ => True
  end.
Proof.
  destruct chain as [[chain|]|e]; simpl; try done.
  destruct chain as [|m chain]; [by intros [<- _]|].
  intros [<- Hhead]. specialize (Hhead ltac:(done)).
  repeat case_match; try done.
  all: simplify_eq; simpl; rewrite ?length_app; simpl; split; [lia|done].
Qed.

Lemma createModelChain_fold fields l chain index n :
  match chain with
  | Reference.Resolved (Some chain) =>
      length chain = n /\ (n <> 0 -> head chain = Some (Some rootModel))
  | _ => True
  end ->
  match (foldl (fun acc field =>
                  (Reference.chainStep getForeignModel rootModel fields
                     acc.1 acc.2 field, S acc.2))
               (chain, index) l).1 with
  | Reference.Resolved (Some chain) =>
      length chain = n + length l /\
      (n + length l <> 0 -> head chain = Some (Some rootModel))
  | _ => True
  end.
Proof.
  revert chain index n. induction l as [|field l IH]; intros chain index n H.
  - simpl. rewrite Nat.add_0_r. by destruct chain as [[?|]|].
  - simpl.
    pose proof (chainStep_length fields chain index field n H) as Hstep.
    specialize (IH (Reference.chainStep getForeignModel rootModel fields
                      chain index field) (S index) (S n)).
    replace (n + S (length l)) with (S n + length l) by lia.
    apply IH. destruct (Reference.chainStep _ _ _ _ _ _) as [[?|]|]; try done.
    by destruct Hstep.
Qed.

(** X12. A chain that [createModelChain] returns has one model for each
    field of the path, and starts with the root model: each step of
    the reduction adds one node, or falls into the error state for all
    the steps that follow. *)
Theorem createModelChain_length fields chain :
  Reference.createModelChain getForeignModel rootModel fields
  = Reference.Resolved (Some chain) ->
  length chain = length fields /\
  (fields <> [] -> head chain = Some (Some rootModel)).
Proof.
  unfold Reference.createModelChain. intros Heq.
  pose proof (createModelChain_fold fields fields
                (Reference.Resolved (Some [])) 0 0) as H.
  rewrite Heq in H. simpl in H.
  destruct H as [Hlen Hhead]; [by split|].
  split; [done|]. intros Hne. apply Hhead. by destruct fields.
Qed.

End ChainFacts.

Lemma createModelChain_length_witness :
  let root :=
    {| Reference.fm_name := "books";
       Reference.fm_fields := <["author" := Fixtures.reference "authors" true]> ∅ |} in
  let authors :=
    {| Reference.fm_name := "authors";
       Reference.fm_fields := <["country" := Fixtures.reference "countries" true]> ∅ |} in
  let countries :=
    {| Reference.fm_name := "countries"; Reference.fm_fields := ∅ |} in
  let chain := [Some root; Some authors; Some countries] in
  length chain = length ["author"; "country"; "name"] /\
  (["author"; "country"; "name"] <> [] -> head chain = Some (Some root)).
Proof.
  intros root authors countries chain.
  apply (createModelChain_length
           (fun collection =>
              if String.eqb collection "authors" then Some authors
              else if String.eqb collection "countries" then Some countries
              else None)
           root ["author"; "country"; "name"] chain).
  vm_compute. reflexivity.
Defined.

Section FlatQueryFacts.

Variable getForeignModel : string -> option Reference.FieldModel.
Variable rootModel : Reference.FieldModel.

Lemma assign_fresh (query : list (string * value)) key v :
  key <> "__proto__" ->
  key ∉ query.*1 -> Reference.assign query key v = query ++ [(key, v)].
Proof.
  intros Hproto. apply String.eqb_neq in Hproto.
  induction query as [|[k x] query IH]; simpl; rewrite Hproto; [done|].
  intros [Hne Hin]%not_elem_of_cons.
  rewrite (proj2 (String.eqb_neq k key)); [|done]. by rewrite IH.
Qed.

(** The tree of a query without dot notation is the query, and no call
    of [objectPath.set] throws. *)
Lemma inputTree_flat (input : list (string * value)) :
  NoDup input.*1 ->
  Forall (fun kv => indexOf "."%char kv.1 = None /\
                    kv.1 <> "" /\ kv.1 <> "__proto__") input ->
  Reference.inputTree input = input /\
  Reference.inputTreeThrows [] input = false.
Proof.
  unfold Reference.inputTree. intros Hnd Hflat.
  assert (forall tree,
            (forall k, k ∈ input.*1 -> k ∉ tree.*1) ->
            foldl Reference.setInput tree input = tree ++ input /\
            Reference.inputTreeThrows tree input = false) as Hfold;
    [|apply (Hfold []); intros; apply not_elem_of_nil].
  induction Hflat as [|[k v] input (Hk & Hne & Hproto) _ IH]; intros tree Hfresh.
  { by rewrite app_nil_r. }
  rewrite fmap_cons in Hnd, Hfresh. cbn [fst] in Hnd, Hfresh, Hk, Hne, Hproto.
  apply NoDup_cons in Hnd as [Hnew Hnd].
  assert (Reference.setInput tree (k, v) = tree ++ [(k, v)]) as Hset.
  { unfold Reference.setInput. cbn [fst snd].
    rewrite (proj2 (String.eqb_neq k "") Hne), (split_whole _ _ Hk).
    cbn [Reference.setPath].
    apply assign_fresh; [done|]. apply Hfresh. by left. }
  cbn [foldl Reference.inputTreeThrows fst snd].
  rewrite Hset, (split_whole _ _ Hk).
  cbn [Reference.setPathThrows]. rewrite andb_false_r, orb_false_l.
  destruct (IH Hnd (tree ++ [(k, v)])) as [-> ->].
  - intros k' Hk'. rewrite fmap_app, not_elem_of_app. split.
    + apply Hfresh. by right.
    + simpl. rewrite not_elem_of_cons. split; [|apply not_elem_of_nil].
      by intros ->.
  - by rewrite <-app_assoc.
Qed.

(** X13. A query without dot notation, without the suffix of a
    collection in its keys and without an object or an array for a
    value, other than operator queries, goes through [beforeQuery] as it
    is, and nothing is asked of the datastore.  The keys of the query
    are names of fields: none is empty, and none is the name of a
    property that an object inherits, such as [__proto__]. *)
Theorem beforeQuery_flat field (input : list (string * value)) w :
  NoDup input.*1 ->
  Forall (fun kv => indexOf "."%char kv.1 = None /\
                    indexOf "@"%char kv.1 = None /\
                    kv.1 <> "" /\
                    (kv.1 ∉ inheritedProperties) /\
                    isSubtree kv.2 = false) input ->
  Reference.beforeQuery getForeignModel rootModel field input w
  = (Reference.Resolved (VObj input), w).
Proof.
  intros Hnd Hflat.
  assert (forall k, k ∉ inheritedProperties -> k <> "__proto__") as Hproto.
  { intros k Hk ->. apply Hk. unfold inheritedProperties.
    repeat (apply elem_of_cons; first [by left|right]). }
  unfold Reference.beforeQuery.
  destruct (Reference.isOperatorQuery _); [done|].
  destruct (inputTree_flat input Hnd) as [-> ->].
  { eapply Forall_impl; [done|]. intros kv (? & _ & ? & ? & _).
    split_and!; [done|done|by apply Hproto]. }
  simpl.
  match goal with
  | |- context [?queue input [] w] =>
      assert (forall query,
                (forall k, k ∈ input.*1 -> k ∉ query.*1) ->
                queue input query w
                = (Reference.Resolved (query ++ input), w)) as Hqueue
  end.
  { clear -Hnd Hflat Hproto.
    induction Hflat as [|[k v] input (Hdot & Hat & Hne & Hown & Hleaf) _ IH];
      intros query Hfresh.
    { by rewrite app_nil_r. }
    simpl in *. apply NoDup_cons in Hnd as [Hnew Hnd].
    unfold Reference.processKey at 1. unfold isSubtree in Hleaf.
    rewrite Hleaf, (split_whole _ _ Hat). simpl.
    rewrite assign_fresh; [|by apply Hproto|apply Hfresh; by left].
    rewrite IH; [by rewrite <-app_assoc|done|].
    intros k' Hk'. rewrite fmap_app, not_elem_of_app. split.
    - apply Hfresh. by right.
    - simpl. rewrite not_elem_of_cons. split; [|apply not_elem_of_nil].
      by intros ->. }
  rewrite Hqueue; [done|]. intros k _. apply not_elem_of_nil.
Qed.

End FlatQueryFacts.

Lemma beforeQuery_flat_witness :
  let root :=
    {| Reference.fm_name := "books";
       Reference.fm_fields := <["author" := Fixtures.reference "authors" true]> ∅ |} in
  let input :=
    [("title", VStr "War and Peace");
     ("year", VObj [("$gt", VNum 1850)])] in
  let w := Fixtures.world (Some (Fixtures.store [])) in
  Reference.beforeQuery (fun _ => None) root "author" input w
  = (Reference.Resolved (VObj input), w).
Proof.
  intros root input w.
  apply (beforeQuery_flat (fun _ => None) root "author" input w).
  - repeat constructor; vm_compute; intros H.
    + repeat (apply elem_of_cons in H as [H|H]; [discriminate H|]).
      by apply elem_of_nil in H.
    + by apply elem_of_nil in H.
  - assert (forall k : string,
               bool_decide (k ∈ inheritedProperties) = false ->
               k ∉ inheritedProperties) as Hout.
    { intros k Hk Hin. by rewrite (bool_decide_eq_true_2 _ Hin) in Hk. }
    repeat constructor; try discriminate; by apply Hout.
Defined.


(** ** [count] *)

Section CountFacts.

Variable lib : Library.


End CountFacts.


(** ** [revisions] *)

Section RevisionFacts.

Implicit Types (ds : Datastore) (d r : doc) (w : World).

Lemma matches_insert query k cond d :
  matches (<[k := cond]> query) d
  = condMatches cond (d !! k) && matches (base.delete k query) d.
Proof.
  unfold matches. rewrite <-insert_delete_eq.
  destruct (condMatches cond (d !! k)) eqn:Hc; simpl.
  - apply bool_decide_ext. rewrite map_Forall_insert by apply lookup_delete_eq.
    tauto.
  - apply bool_decide_eq_false. rewrite map_Forall_insert by apply lookup_delete_eq.
    intros [H _]. congruence.
Qed.

Lemma database_find_ok c query fields w ds :
  db w = Some ds ->
  faults ds !! c = None ->
  database_find c query fields w
  = (inr (project fields <$> selected ds c query,
          {| totalCount := length (project fields <$> selected ds c query) |}),
     emit (Call (DbFind c query fields)) w).
Proof.
  intros Hdb Hfault. unfold database_find. cbn [emit db]. rewrite Hdb.
  unfold ds_find. by rewrite Hfault.
Qed.

Lemma mapM_toString_strings (ids : list string) :
  mapM toString (VStr <$> ids) = Some ids.
Proof.
  induction ids as [|id ids IH]; [done|].
  rewrite fmap_cons. cbn [mapM]. rewrite IH. done.
Qed.

(** A list without duplicates whose only element is [x]. *)
Lemma NoDup_singleton_eq {A} (l : list A) (x : A) :
  NoDup l -> (forall y, y ∈ l <-> y = x) -> l = [x].
Proof.
  intros Hnd Hl. destruct l as [|a l].
  - assert (x ∈ ([] : list A)) as H by by apply Hl. by apply elem_of_nil in H.
  - assert (a = x) as -> by (apply Hl; by left).
    destruct l as [|b l]; [done|].
    assert (b = x) as -> by (apply Hl; right; by left).
    apply NoDup_cons in Hnd as [Hnd _]. exfalso. apply Hnd. by left.
Qed.

(** The document stored under an identifier is the one that a query on
    that identifier selects. *)
Lemma selected_by_id ds c id d :
  (forall id d, collectionOf ds c !! id = Some d -> d !! "_id" = Some (VStr id)) ->
  collectionOf ds c !! id = Some d ->
  selected ds c (<["_id" := VStr id]> ∅) = [d].
Proof.
  intros Hstored Hd. apply NoDup_singleton_eq.
  - destruct (selected_ids ds c (<["_id" := VStr id]> ∅) Hstored) as [Hnd _].
    by eapply NoDup_fmap_1.
  - intros d'. unfold selected. rewrite elem_of_selected, matches_id_string.
    rewrite bool_decide_eq_true. split.
    + intros [Hid (id' & Hd')]. pose proof (Hstored id' d' Hd') as Hid'.
      assert (id' = id) as -> by congruence. congruence.
    + intros ->. split; [by eapply Hstored|by exists id].
Qed.

(** X15. With revisions kept, a document stored under [id] whose
    [_history] lists the identifiers [rids], on a datastore that
    answers: [revisions] hands over exactly the documents of the
    revision collection that are stored under one of [rids] and satisfy
    the filters given.  A condition on [_id] among the filters is
    replaced by the one on the identifiers of the history. *)
Theorem revisions_listed (self : Model) id filters w ds rc d rids :
  db w = Some ds ->
  history self = true ->
  revisionCollection self = Some rc ->
  faults ds !! name self = None ->
  faults ds !! rc = None ->
  (forall id d, collectionOf ds (name self) !! id = Some d ->
                d !! "_id" = Some (VStr id)) ->
  (forall rid r, collectionOf ds rc !! rid = Some r ->
                 r !! "_id" = Some (VStr rid)) ->
  collectionOf ds (name self) !! id = Some d ->
  d !! "_history" = Some (VArr (VStr <$> rids)) ->
  exists results,
    (revisions self (VStr id) filters w).1 = Some (inr results) /\
    db (revisions self (VStr id) filters w).2 = Some ds /\
    (forall r, r ∈ results <->
               exists rid, rid ∈ rids /\
                           collectionOf ds rc !! rid = Some r /\
                           matches (base.delete "_id" (default ∅ filters)) r = true).
Proof.
  intros Hdb Hhistory Hrc Hfault Hrcfault Hstored Hrevs Hd Hh.
  assert (revisions self (VStr id) filters w
          = (Some (inr (selected ds rc
                          (<["_id" := VObj [("$in", idValues rids)]]>
                             (default ∅ filters)))),
             emit (Call (DbFind rc
                           (<["_id" := VObj [("$in", idValues rids)]]>
                              (default ∅ filters)) []))
               (emit (Call (DbFind (name self) (<["_id" := VStr id]> ∅) []))
                  w))) as ->.
  { unfold revisions. rewrite Hdb.
    rewrite (database_find_ok _ _ _ _ ds Hdb Hfault).
    rewrite (selected_by_id ds (name self) id d Hstored Hd).
    cbn [fmap list_fmap project]. rewrite Hhistory, Hh.
    cbn [historyIds]. rewrite mapM_toString_strings. cbv zeta.
    rewrite Hrc. change (default "" (Some rc)) with rc.
    rewrite (database_find_ok _ _ _ _ ds); [|done|done].
    by rewrite project_all. }
  eexists. split; [reflexivity|]. split; [done|].
  intros r. unfold selected.
  rewrite elem_of_selected, matches_insert, andb_true_iff. split.
  - intros [[Hin Hm] (rid & Hr)]. exists rid. split_and!; [|done|done].
    rewrite (Hrevs rid r Hr) in Hin. simpl in Hin.
    apply bool_decide_eq_true in Hin.
    apply list_elem_of_fmap in Hin as (rid' & [= ->] & Hin). done.
  - intros (rid & Hin & Hr & Hm). split; [|by exists rid].
    split; [|done]. rewrite (Hrevs rid r Hr). simpl.
    apply bool_decide_eq_true. apply list_elem_of_fmap. by exists rid.
Qed.

(** X16. [revisions] hands over the empty list, after one [find], when
    the model keeps no revisions, and when no document is stored that
    the identifier selects. *)
Theorem revisions_none (self : Model) id filters w ds :
  db w = Some ds ->
  faults ds !! name self = None ->
  history self = false \/ selected ds (name self) (<["_id" := id]> ∅) = [] ->
  revisions self id filters w
  = (Some (inr []), emit (Call (DbFind (name self) (<["_id" := id]> ∅) [])) w).
Proof.
  intros Hdb Hfault Hnone. unfold revisions. rewrite Hdb.
  rewrite (database_find_ok _ _ _ _ ds Hdb Hfault), project_all.
  destruct Hnone as [Hh| ->]; [|done].
  rewrite Hh. by destruct (selected _ _ _).
Qed.

End RevisionFacts.

Lemma revisions_listed_witness :
  let self := Fixtures.books false (Fixtures.settingsWith None None) in
  let rids := ["r1"] in
  let d : doc :=
    <["_history" := VArr (VStr <$> rids)]> (Fixtures.book "b1" "Animal Farm" 2) in
  let revision : doc :=
    <["_id" := VStr "r1"]>
      (revisionRecord "update" (Fixtures.book "b1" "1984" 1)) in
  let ds :=
    Fixtures.store [("books", [("b1", d)]); ("booksHistory", [("r1", revision)])] in
  let w := Fixtures.world (Some ds) in
  exists results,
    (revisions self (VStr "b1") None w).1 = Some (inr results) /\
    db (revisions self (VStr "b1") None w).2 = Some ds /\
    (forall r, r ∈ results <->
               exists rid, rid ∈ rids /\
                           collectionOf ds "booksHistory" !! rid = Some r /\
                           matches (base.delete "_id" (default ∅ None)) r = true).
Proof.
  intros self rids d revision ds w.
  apply (revisions_listed self "b1" None w ds "booksHistory" d rids).
  - reflexivity.
  - reflexivity.
  - reflexivity.
  - reflexivity.
  - reflexivity.
  - assert (collectionOf ds (name self) = <["b1" := d]> ∅) as ->
      by (vm_compute; reflexivity).
    intros id d0 [[<- <-]|[_ Hempty]]%lookup_insert_Some.
    + vm_compute. reflexivity.
    + rewrite lookup_empty in Hempty. discriminate Hempty.
  - assert (collectionOf ds "booksHistory" = <["r1" := revision]> ∅) as ->
      by (vm_compute; reflexivity).
    intros id d0 [[<- <-]|[_ Hempty]]%lookup_insert_Some.
    + vm_compute. reflexivity.
    + rewrite lookup_empty in Hempty. discriminate Hempty.
  - vm_compute. reflexivity.
  - vm_compute. reflexivity.
Defined.

Lemma revisions_none_witness :
  let self := Fixtures.books false (Fixtures.settingsWith (Some false) None) in
  let ds := Fixtures.store [("books", [("b1", Fixtures.book "b1" "1984" 1)])] in
  let w := Fixtures.world (Some ds) in
  revisions self (VStr "b1") None w
  = (Some (inr []),
     emit (Call (DbFind (name self) (<["_id" := VStr "b1"]> ∅) [])) w).
Proof.
  intros self ds w.
  apply (revisions_none self (VStr "b1") None w ds).
  - reflexivity.
  - reflexivity.
  - left. reflexivity.
Defined.

(** ** [get] *)

Section GetFacts.

Variable lib : Library.
Variables (beforeGet afterGet : option (list HookConfig)).
Variable beforeGet_apply : HookConfig -> Model -> option doc -> BeforeGetReturn.
Variable afterGet_apply : HookConfig -> Model -> GetResults -> AfterGetReturn.

(** The [afterGet] pipeline ends with an error exactly when it ends
    without results. *)
Lemma afterGetPipeline_error (self : Model) hooks current :
  match afterGetPipeline lib afterGet_apply self hooks current with
  | (None, MResults _) | (Some _, MNull) | (Some _, MUndefined) => True
  | _ => False
  end.
Proof.
  revert current. induction hooks as [|h hooks IH]; intros current; [done|].
  simpl. destruct (afterGet_apply h self current); [apply IH|done|done].
Qed.

Lemma onlyFinds_databaseGetIn inPipeline depth (self : Model) query options w :
  onlyFinds w (databaseGetIn lib afterGet afterGet_apply inPipeline depth self
                 query options w).2.
Proof.
  unfold databaseGetIn.
  pose proof (onlyFinds_findOutcome lib depth self query options w) as H.
  destruct (findOutcome lib depth self query options w)
    as [[[[err|[results md]] guarded| |e] m] w1]; simpl in H; try done.
  - destruct (match afterGet with Some _ => _ | None => _ end)
      as [err [final| |]].
    + destruct (g_results final); [by destruct err|].
      eapply onlyFinds_trans; [done|]. by apply onlyFinds_emit.
    + eapply onlyFinds_trans; [done|]. by apply onlyFinds_emit.
    + eapply onlyFinds_trans; [done|]. by apply onlyFinds_emit.
  - eapply onlyFinds_trans; [done|]. by apply onlyFinds_emit.
Qed.

(** X17. Whatever the hooks do, short of a [beforeGet] pipeline that
    ends with null for a query, [get] changes nothing in the datastore
    and asks it for nothing that changes documents: what it adds to the
    events is what its [find] adds, and what is thrown and not caught.
    The results that it hands to the callback went through the
    formatting for output: none of their documents has a null-valued
    field. *)
Theorem get_reads_and_formats depth (self : Model) query options w :
  (forall hooks,
      beforeGet = Some hooks ->
      beforeGetPipeline lib beforeGet_apply self hooks (Some query)
      <> inr None) ->
  let reply :=
    get lib beforeGet afterGet beforeGet_apply afterGet_apply depth self
      query options w in
  db reply.2 = db w /\
  (exists es, events reply.2 = events w ++ es /\ Forall findEvent es) /\
  mutations (events reply.2) = mutations (events w) /\
  reply.1.1 <> GNullQuery /\
  match reply.1.1 with
  | GCalled (inr results) =>
      exists formatted,
        g_results results = Some formatted /\ withoutNull formatted
  | _ => True
  end.
Proof.
  intros Hnull. cbv zeta.
  assert (forall inPipeline q,
            let reply :=
              databaseGetIn lib afterGet afterGet_apply inPipeline depth self
                q options w in
            onlyFinds w reply.2 /\
            reply.1.1 <> GNullQuery /\
            match reply.1.1 with
            | GCalled (inr results) =>
                exists formatted,
                  g_results results = Some formatted /\ withoutNull formatted
            | _ => True
            end) as Hget.
  { intros inPipeline q. cbv zeta.
    split; [apply onlyFinds_databaseGetIn|].
    unfold databaseGetIn.
    destruct (findOutcome lib depth self q options w)
      as [[[[err|[results md]] guarded| |e] m] w1]; try done.
    destruct (match afterGet with Some _ => _ | None => _ end)
      as [err [final| |]]; try done.
    destruct (g_results final) as [rs|]; [|done].
    destruct err; [done|]. simpl. split; [done|]. eexists. split; [done|].
    apply (formatResultSet_no_null _ rs false). }
  assert (forall inPipeline q,
            let reply :=
              databaseGetIn lib afterGet afterGet_apply inPipeline depth self
                q options w in
            db reply.2 = db w /\
            (exists es, events reply.2 = events w ++ es /\ Forall findEvent es) /\
            mutations (events reply.2) = mutations (events w) /\
            reply.1.1 <> GNullQuery /\
            match reply.1.1 with
            | GCalled (inr results) =>
                exists formatted,
                  g_results results = Some formatted /\ withoutNull formatted
            | _ => True
            end) as Hall.
  { intros inPipeline q. cbv zeta.
    destruct (Hget inPipeline q) as (Hfinds & Hcalled & Hformat).
    split_and!; [apply Hfinds|apply Hfinds|by apply onlyFinds_mutations|
                 done|done]. }
  unfold get. destruct beforeGet as [hooks|]; [|apply Hall].
  specialize (Hnull hooks eq_refl).
  destruct (beforeGetPipeline lib beforeGet_apply self hooks (Some query))
    as [err|[q|]]; [|apply Hall|done].
  split_and!; [done| |done|done|done].
  exists []. by rewrite app_nil_r.
Qed.

(** X18. When [find] has handed documents over and an [afterGet]
    handler returns null or rejects, the final callback of the pipeline
    reads [results] of the null or undefined value that comes with the
    error, which throws before [done] is reached: the callback of [get]
    is not called, with the error or with anything else. *)
Theorem get_afterGet_failure depth (self : Model) query options w hooks
    results metadata self' w' err :
  afterGet = Some hooks ->
  find lib depth self query options w
  = (Some (inr (results, metadata)), self', w') ->
  (afterGetPipeline lib afterGet_apply self' hooks
     {| g_results := Some (Multiple results);
        g_metadata := Some metadata |}).1 = Some err ->
  (databaseGet lib afterGet afterGet_apply depth self query options w).1.1
  = GNotCalled.
Proof.
  intros Hafter Hfind Herr. unfold databaseGet, databaseGetIn.
  apply find_answers in Hfind as [guarded Hfind]. rewrite Hfind, Hafter.
  pose proof (afterGetPipeline_error self' hooks
                {| g_results := Some (Multiple results);
                   g_metadata := Some metadata |}) as Hmemo.
  destruct (afterGetPipeline _ _ _ _ _) as [[e|] [final| |]];
    try done; eauto.
Qed.

End GetFacts.

Lemma get_reads_and_formats_witness :
  let lib := Fixtures.library "_" in
  let self := Fixtures.books false (Fixtures.settingsWith None None) in
  let ds := Fixtures.store [("books", [("b1", Fixtures.book "b1" "1984" 1)])] in
  let w := Fixtures.world (Some ds) in
  let narrow : HookConfig -> Model -> option doc -> BeforeGetReturn :=
    fun _ _ query => BValue (<["name" := VStr "1984"]> <$> query) in
  let keep : HookConfig -> Model -> GetResults -> AfterGetReturn :=
    fun _ _ results => AValue results in
  let reply := get lib (Some ["narrow"]) None narrow keep 1 self ∅ noOptions w in
  db reply.2 = db w /\
  (exists es, events reply.2 = events w ++ es /\ Forall findEvent es) /\
  mutations (events reply.2) = mutations (events w) /\
  reply.1.1 <> GNullQuery /\
  match reply.1.1 with
  | GCalled (inr results) =>
      exists formatted,
        g_results results = Some formatted /\ withoutNull formatted
  | _ => True
  end.
Proof.
  intros lib self ds w narrow keep.
  apply (get_reads_and_formats lib (Some ["narrow"]) None narrow keep 1 self ∅
           noOptions w).
  intros hooks [= <-]. discriminate.
Defined.

Lemma get_afterGet_failure_witness :
  let lib := Fixtures.library "_" in
  let self := Fixtures.books false (Fixtures.settingsWith None None) in
  let ds := Fixtures.store [("books", [("b1", Fixtures.book "b1" "1984" 1)])] in
  let w := Fixtures.world (Some ds) in
  let veto : HookConfig -> Model -> GetResults -> AfterGetReturn :=
    fun _ _ _ => ANull in
  (databaseGet lib (Some ["veto"]) veto 1 self ∅ noOptions w).1.1 = GNotCalled.
Proof.
  intros lib self ds w veto.
  apply (get_afterGet_failure lib (Some ["veto"]) veto 1 self ∅ noOptions w
           ["veto"] [Fixtures.book "b1" "1984" 1] {| totalCount := 1 |}
           (find lib 1 self ∅ noOptions w).1.2
           (find lib 1 self ∅ noOptions w).2 (VObj [])).
  - reflexivity.
  - vm_compute. reflexivity.
  - reflexivity.
Defined.


(** ** What [delete] reports *)

Section HistoryLiveFacts.

Variables (kind : string) (model : Model) (rc : string).

Hypothesis model_revisions : revisionCollection model = Some rc.
Hypothesis model_distinct : rc <> name model.

Implicit Types (ds : Datastore) (d : doc) (w : World) (objs : list doc).

(** The history write on a datastore that takes the writes: it
    resolves, and what it does to the documents of the collection is to
    write [_history] in some of them. *)
Lemma History_createEach_live objs : forall w ds,
  db w = Some ds ->
  faults ds !! name model = None ->
  faults ds !! rc = None ->
  exists w' ds' (g : doc -> doc),
    History_createEach objs kind model w = (None, w') /\
    db w' = Some ds' /\
    faults ds' = faults ds /\
    collectionOf ds' (name model) = g <$> collectionOf ds (name model) /\
    (forall d, g d = d \/ exists h, g d = <["_history" := h]> d).
Proof.
  induction objs as [|o objs IH]; intros w ds Hdb Hlive Hrev.
  { exists w, ds, (fun d => d). split_and!; try done.
    - by rewrite map_fmap_id.
    - by left. }
  remember (fresh_string "id" (collectionOf ds rc)) as rid eqn:Hrid.
  set (stored := <["_id" := VStr rid]> (revisionRecord kind o)).
  set (ds1 := setCollection ds rc (<[rid := stored]> (collectionOf ds rc))).
  set (w1 := setDb ds1 (emit (Call (DbInsert rc [revisionRecord kind o])) w)).
  set (push := {| u_set := ∅; u_inc := [];
                  u_push := [("_history", VStr rid)] |}).
  set (query := <["_id" := default VNull (o !! "_id")]> (∅ : doc)).
  set (step := fun d : doc =>
                 if matches query d then applyUpdate push d else d).
  set (ds2 := setCollection ds1 (name model)
                (step <$> collectionOf ds1 (name model))).
  set (w2 := setDb ds2 (emit (Call (DbUpdate (name model) query push)) w1)).
  assert (collectionOf ds1 (name model) = collectionOf ds (name model)) as Hlive1.
  { unfold ds1. rewrite collectionOf_setCollection. by rewrite decide_False. }
  assert (History_createEach (o :: objs) kind model w
          = History_createEach objs kind model w2) as Hstep.
  { cbn [History_createEach]. rewrite model_revisions.
    change (default "" (Some rc)) with rc.
    rewrite (database_insert_one rc (revisionRecord kind o) w ds Hdb Hrev).
    cbv zeta. rewrite <-Hrid. fold stored ds1 w1.
    change (head [stored] ≫= idString) with (stored !! "_id" ≫= toString).
    unfold stored at 1. rewrite lookup_insert_eq.
    change (Some (VStr rid) ≫= toString) with (Some rid).
    fold query. cbv beta iota. fold push.
    rewrite (database_update_ok (name model) query push w1 ds1 eq_refl Hlive).
    done. }
  assert (forall d, step d = d \/ exists h, step d = <["_history" := h]> d)
    as Hstepd.
  { intros d. unfold step. destruct (matches query d); [|by left].
    right. unfold push. rewrite applyUpdate_history. by eexists. }
  assert (collectionOf ds2 (name model)
          = step <$> collectionOf ds (name model)) as Hlive2.
  { unfold ds2. rewrite collectionOf_setCollection.
    rewrite decide_True; [|done]. by rewrite Hlive1. }
  assert (db w2 = Some ds2) as Hdb2 by reflexivity.
  assert (faults ds2 = faults ds) as Hfaults2 by reflexivity.
  clearbody w2 ds2 stored step. clear w1 ds1 push query Hlive1.
  rewrite <-Hfaults2 in Hlive, Hrev.
  destruct (IH w2 ds2 Hdb2 Hlive Hrev)
    as (w' & ds' & g & Heq & Hdb' & Hf' & Hcoll & Hg).
  exists w', ds', (g ∘ step). split_and!.
  - by rewrite Hstep.
  - done.
  - by rewrite Hf'.
  - by rewrite Hcoll, Hlive2, map_fmap_compose.
  - intros d. simpl.
    destruct (Hstepd d) as [->|[h ->]]; [apply Hg|].
    destruct (Hg (<["_history" := h]> d)) as [->|[h' ->]].
    + right. by eexists.
    + right. exists h'. by rewrite insert_insert_eq.
Qed.

End HistoryLiveFacts.

Section DeleteFacts.

Variable lib : Library.

Implicit Types (ds : Datastore) (d : doc) (w : World) (self : Model).

Lemma matches_history query d h :
  query !! "_history" = None ->
  matches query (<["_history" := h]> d) = matches query d.
Proof.
  intros Hq. unfold matches. apply bool_decide_ext.
  unfold map_Forall. split; intros H k cond Hk.
  - specialize (H k cond Hk). rewrite lookup_insert_ne in H; [done|].
    intros <-. congruence.
  - rewrite lookup_insert_ne; [by apply H|]. intros <-. congruence.
Qed.

Lemma filter_all {A} (P : A -> Prop) `{forall x, Decision (P x)} (l : list A) :
  Forall P l -> filter P l = l.
Proof.
  induction 1 as [|x l Hx _ IH]; [done|].
  by rewrite filter_cons_True, IH.
Qed.

Lemma selected_all ds c : selected ds c ∅ = (map_to_list (collectionOf ds c)).*2.
Proof.
  unfold selected. apply filter_all, Forall_forall.
  intros d _. unfold matches. apply bool_decide_eq_true, map_Forall_empty.
Qed.

Lemma length_filter_fmap {A B} (P : B -> Prop) `{forall x, Decision (P x)}
    (f : A -> B) (l : list A) :
  length (filter P (f <$> l)) = length (filter (fun x => P (f x)) l).
Proof.
  induction l as [|x l IH]; [done|].
  rewrite fmap_cons, !filter_cons. destruct (decide (P (f x))); simpl; lia.
Qed.

(** The documents of a collection that a query selects, counted in the
    collection. *)
Lemma length_selected (docs : gmap string doc) query :
  length (filter (fun d => matches query d = true) (map_to_list docs).*2)
  = size (filter (fun kv : string * doc => matches query kv.2 = true) docs).
Proof.
  induction docs as [|id d docs Hid Hfirst IH] using map_first_key_ind.
  { rewrite map_to_list_empty, map_filter_empty, map_size_empty. reflexivity. }
  rewrite map_to_list_insert_first_key by done.
  rewrite fmap_cons, filter_cons. cbn [snd].
  destruct (decide (matches query d = true)) as [Hm|Hm].
  - rewrite map_filter_insert_True by done.
    rewrite map_size_insert_None; [simpl; by rewrite IH|].
    apply map_lookup_filter_None. by left.
  - rewrite map_filter_insert_False by done.
    by rewrite delete_id.
Qed.

(** Of a collection, the documents that a query selects and those it
    leaves. *)
Lemma size_unselected (docs : gmap string doc) query :
  length (filter (fun d => matches query d = true) (map_to_list docs).*2)
  + size (filter (fun kv : string * doc => matches query kv.2 = false) docs)
  = size docs.
Proof.
  rewrite length_selected.
  rewrite <-(map_filter_union_complement
               (fun kv : string * doc => matches query kv.2 = true) docs) at 3.
  rewrite map_size_disj_union by apply map_disjoint_filter_complement.
  f_equal. f_equal. apply map_filter_ext. intros id d _. simpl.
  by destruct (matches query d).
Qed.

Lemma selected_fmap (docs : gmap string doc) (g : doc -> doc) query :
  (forall d, matches query (g d) = matches query d) ->
  length (filter (fun d => matches query d = true)
            (map_to_list (g <$> docs)).*2)
  = length (filter (fun d => matches query d = true) (map_to_list docs).*2).
Proof.
  intros Hg. rewrite !length_selected, map_filter_fmap, map_size_fmap.
  f_equal. apply map_filter_ext. intros id d _. simpl. by rewrite Hg.
Qed.

Lemma db_applyAfterHooks hooks w : db (applyAfterHooks hooks w) = db w.
Proof.
  unfold applyAfterHooks. revert w.
  induction (default [] hooks) as [|h hs IH]; intros w; simpl; [done|].
  by rewrite IH.
Qed.

(** [deleteDocuments] on a datastore that takes the delete. *)
Lemma delete_deleteDocuments_ok self query deletedDocs allDocs w ds :
  db w = Some ds ->
  faults ds !! name self = None ->
  let n := length (selected ds (name self) query) in
  let w' := delete_deleteDocuments self query deletedDocs allDocs w in
  dones (events w')
  = dones (events w)
    ++ [inr (Deleted n (Z.of_nat (totalCount allDocs) - Z.of_nat n))] /\
  documentsOf w' (name self)
  = filter (fun kv : string * doc => matches query kv.2 = false)
           (collectionOf ds (name self)).
Proof.
  intros Hdb Hfault n w'. unfold w', delete_deleteDocuments.
  assert (database_delete (name self) query w
          = (inr n,
             setDb (setCollection ds (name self)
                      (filter (fun kv : string * doc =>
                                 matches query kv.2 = false)
                              (collectionOf ds (name self))))
                   (emit (Call (DbDelete (name self) query)) w))) as ->.
  { unfold database_delete, ds_delete. cbn [emit db]. by rewrite Hdb, Hfault. }
  split.
  - rewrite dones_emit. f_equal.
    destruct (0 <? n)%nat.
    + rewrite dones_applyAfterHooks, dones_emit, app_nil_r.
      unfold dones. simpl. by rewrite omap_app, app_nil_r.
    + unfold dones. simpl. by rewrite omap_app, app_nil_r.
  - unfold documentsOf. cbn [emit db].
    destruct (0 <? n)%nat.
    + rewrite db_applyAfterHooks. cbn [emit db setDb from_option].
      rewrite collectionOf_setCollection. by rewrite decide_True.
    + cbn [emit db setDb from_option].
      rewrite collectionOf_setCollection. by rewrite decide_True.
Qed.


End DeleteFacts.


(** The same call in figures: of the two books one is deleted and one is
    left, and a revision of the deleted book is written. *)
Lemma delete_scenario :
  let lib := Fixtures.library "_" in
  let self := Fixtures.books false (Fixtures.settingsWith None None) in
  let ds :=
    Fixtures.store [("books", [("b1", Fixtures.book "b1" "1984" 1);
                               ("b2", Fixtures.book "b2" "Animal Farm" 1)])] in
  let query : doc := <["name" := VStr "1984"]> ∅ in
  let w' := delete lib 1 self query None (Fixtures.world (Some ds)) in
  dones (events w') = [inr (Deleted 1 1)] /\
  documentsOf w' "books" = <["b2" := Fixtures.book "b2" "Animal Farm" 1]> ∅ /\
  size (documentsOf w' "booksHistory") = 1.
Proof.
  intros. split_and!; vm_compute; reflexivity.
Qed.


(** ** An update that selects nothing *)

Section UpdateUnmatchedFacts.

Variable lib : Library.

Implicit Types (ds : Datastore) (d : doc) (w : World) (self : Model).

(** A condition on no identifier selects nothing. *)
Lemma selected_in_nothing ds c :
  selected ds c (<["_id" := VObj [("$in", idValues [])]]> ∅) = [].
Proof.
  unfold selected. induction ((map_to_list (collectionOf ds c)).*2)
    as [|d l IH]; [done|].
  rewrite filter_cons_False; [done|].
  rewrite matches_id. simpl. destruct (d !! "_id") as [[]|]; try done.
  simpl. by induction xs.
Qed.

(** X20. An [update] whose query selects no document, in a request that
    is not addressed by identifier, on a datastore that takes the reads
    and the writes: the update of the datastore is issued all the same
    and changes no document, no revision is written, and the callback
    receives, once, an empty result set and no error. *)
Theorem update_unmatched depth self query payload internals req bypass w ds :
  db w = Some ds ->
  success (validate_query lib self query) = true ->
  success (validate_schema lib self payload true) = true ->
  (forall c q,
     q = formatQuery (internalFieldsPrefix lib) query \/
     q = <["_id" := VObj [("$in", idValues [])]]> ∅ ->
     success (validate_query lib (withCompose c self) q) = true /\
     queryUtils_makeCaseInsensitive lib q (schema self) = q /\
     queryUtils_containsNestedReferenceFields lib q (schema self) = false) ->
  (forall c, composer_createFromComposed lib (withCompose c self)
               (updatePayload lib self payload internals) ds
             = (inr (updatePayload lib self payload internals), ds, [])) ->
  (forall c w, composer_compose lib (withCompose c self) [] w = []) ->
  (forall hooks docs,
     s_hooks (settings self) ≫= beforeUpdate = Some hooks ->
     (async_reduce hooks (updatePayload lib self payload internals)
        (hookIteratee lib "beforeUpdate" (withCompose (Some false) self)
           docs)).1.1 = None) ->
  faults ds !! name self = None ->
  selected ds (name self) (formatQuery (internalFieldsPrefix lib) query) = [] ->
  isRestIDQuery req = false ->
  let w' := update lib depth self query payload internals req bypass w in
  dones (events w')
  = dones (events w) ++ [inr (Found [] {| totalCount := 0 |})] /\
  mutations (events w')
  = mutations (events w)
    ++ [DbUpdate (name self) (formatQuery (internalFieldsPrefix lib) query)
          {| u_set := updatePayload lib self payload internals;
             u_inc := [("_version", 1%Z)]; u_push := [] |}] /\
  (forall c, documentsOf w' c = documentsOf w c).
Proof.
  intros Hdb Hq Hp Hplain Hcomposed Hcompose Hhooks Hfault Hnone Hrest w'.
  destruct (update_reaches_save lib depth self query payload internals req
              bypass w ds Hdb Hq Hp) as (w3 & Hdb3 & Hevents3 & _ & Hupdate).
  { intros c. apply (Hplain c). by left. }
  { apply (Hplain None). by left. }
  { apply (Hplain None). by left. }
  { done. }
  { done. }
  { done. }
  unfold w'. rewrite Hupdate. clear Hupdate.
  remember (formatQuery (internalFieldsPrefix lib) query) as query' eqn:Hquery'.
  remember (updatePayload lib self payload internals) as payload' eqn:Hpayload'.
  remember (<["_id" := VObj [("$in", idValues [])]]> (∅ : doc)) as refetch
    eqn:Hrefetch.
  destruct (Hplain (Some true) refetch (or_intror eq_refl))
    as (Hv2 & Hc2 & Hn2).
  rewrite Hnone.
  assert ((if default false (compose self)
           then composer_compose lib self []
                  (emit (Call (DbFind (name self) query' [])) w)
           else []) = []) as ->.
  { destruct (default false (compose self)); [|done].
    pose proof (Hcompose (compose self)
                  (emit (Call (DbFind (name self) query' [])) w)) as Hc.
    by rewrite withCompose_self in Hc. }
  remember (withCompose (Some false) self) as self1 eqn:Hself1.
  assert (name self1 = name self /\ settings self1 = settings self
          /\ schema self1 = schema self)
    as (Hname & Hsettings & Hschema) by by rewrite Hself1.
  unfold update_saveDocuments. cbv zeta. rewrite Hname.
  rewrite (database_update_ok _ _ _ _ ds Hdb3 Hfault), Hnone, Hrest.
  cbn [length andb].
  remember {| u_set := payload'; u_inc := [("_version", 1%Z)]; u_push := [] |}
    as setUpdate eqn:HsetUpdate.
  remember (setCollection ds (name self)
              ((fun d => if matches query' d then applyUpdate setUpdate d
                         else d) <$> collectionOf ds (name self)))
    as ds4 eqn:Hds4.
  remember (setDb ds4 (emit (Call (DbUpdate (name self) query' setUpdate)) w3))
    as w4 eqn:Hw4.
  assert (forall c, collectionOf ds4 c = collectionOf ds c) as Hsame.
  { apply (ds_update_unmatched ds (name self) query' setUpdate ds4).
    unfold ds_update. rewrite Hfault. cbv zeta.
    fold (selected ds (name self) query'). by rewrite Hnone, Hds4. }
  assert ((if history self1
           then History_createEach [] "update" self1 w4 else (None, w4))
          = (None, w4)) as -> by by destruct (history self1).
  (* the documents are fetched again *)
  unfold update_refetch.
  assert (pluckIds [] = Some []) as -> by done. rewrite <-Hrefetch.
  remember (withCompose (Some true) self1) as self2 eqn:Hself2.
  remember (emit (Call (DbFind (name self) refetch [])) w4) as w5 eqn:Hw5.
  assert (findOutcome lib depth self1 refetch
            {| o_compose := Some true; o_fields := [] |} w4
          = (Answers (inr ([], {| totalCount := 0 |}))
               (composer_compose_immediate lib self2 [] w5), self2, w5)) as ->.
  { assert (db w4 = Some ds4) as Hdb4 by by rewrite Hw4.
    assert (faults ds4 !! name self1 = None) as Hfault4
      by by rewrite Hname, Hds4.
    pose proof (findOutcome_plain lib depth self1 refetch
                  {| o_compose := Some true; o_fields := [] |} w4 ds4 Hdb4)
      as Hfind.
    cbn [overrideCompose o_compose o_fields] in Hfind.
    rewrite <-Hself2, Hschema, Hname in Hfind.
    assert (self2 = withCompose (Some true) self) as Heq
      by by rewrite Hself2, Hself1.
    rewrite Heq in Hfind at 1. rewrite <-Hname in Hfind at 1.
    specialize (Hfind Hv2 Hc2 Hn2 Hfault4). cbv zeta in Hfind.
    rewrite Hrefetch, selected_in_nothing in Hfind. rewrite <-Hrefetch in Hfind.
    cbn [fmap list_fmap length] in Hfind.
    pose proof (Hcompose (Some true) w5) as Hc. rewrite <-Heq in Hc.
    rewrite <-Hw5, Hc in Hfind. rewrite Hfind.
    assert (default false (compose self2) = true) as ->
      by by rewrite Hself2.
    done. }
  cbn [Nat.eqb].
  assert (dones (events w3) = dones (events w)
          /\ mutations (events w3) = mutations (events w)) as [Hdones3 Hmut3].
  { rewrite Hevents3. unfold mutations, calls, dones.
    rewrite !omap_app. cbn [omap list_omap]. rewrite !app_nil_r.
    split; [done|]. by rewrite filter_app, app_nil_r. }
  split_and!.
  - rewrite dones_emit, Hw5, dones_emit, Hw4. cbn [setDb events].
    by rewrite dones_emit, Hdones3, !app_nil_r.
  - assert (forall ds w, events (setDb ds w) = events w) as Hset by done.
    rewrite mutations_emit, Hw5, mutations_emit, Hw4, Hset, mutations_emit.
    rewrite Hmut3, !app_nil_r. by rewrite HsetUpdate.
  - intros c. unfold documentsOf. rewrite Hw5, Hw4. cbn [emit db setDb].
    rewrite Hdb. cbn [from_option]. apply Hsame.
Qed.

End UpdateUnmatchedFacts.

Lemma update_unmatched_witness :
  let lib := Fixtures.library "_" in
  let self := Fixtures.books false (Fixtures.settingsWith None None) in
  let ds :=
    Fixtures.store [("books", [("b1", Fixtures.book "b1" "1984" 1)])] in
  let w := Fixtures.world (Some ds) in
  let query : doc := <["name" := VStr "Animal Farm"]> ∅ in
  let payload : doc := <["name" := VStr "Animal Farm (1945)"]> ∅ in
  let w' := update lib 1 self query payload None None false w in
  dones (events w')
  = dones (events w) ++ [inr (Found [] {| totalCount := 0 |})] /\
  mutations (events w')
  = mutations (events w)
    ++ [DbUpdate (name self) (formatQuery (internalFieldsPrefix lib) query)
          {| u_set := updatePayload lib self payload None;
             u_inc := [("_version", 1%Z)]; u_push := [] |}] /\
  (forall c, documentsOf w' c = documentsOf w c).
Proof.
  intros lib self ds w query payload.
  apply (update_unmatched lib 1 self query payload None None false w ds).
  - reflexivity.
  - reflexivity.
  - reflexivity.
  - intros c q [-> | ->]; split_and!; vm_compute; reflexivity.
  - intros c. reflexivity.
  - intros c w0. reflexivity.
  - intros hooks docs Hhooks. vm_compute in Hhooks. discriminate Hhooks.
  - reflexivity.
  - vm_compute. reflexivity.
  - reflexivity.
Defined.
